(** * Authentication and tenant-scoped authorisation of the project-management backend

    A shallow embedding of
    - [middleware/auth.js]: [verifyToken], [checkPermission], [checkAnyPermission];
    - [routes/auth.js]: the [/auth/logout] and [/auth/refresh-token] routes,
      [/auth/login], [/auth/register] with the slug of the organisation, and
      [DELETE /auth/sessions/:id];
    - [routes/users.js]: [PUT /users/:id/role] and [PUT /users/:id/status],
      with its session invalidation;
    - [db/schema.sql]: the tables these read and write.

    Tables are lists of rows and every SQL statement is a list comprehension
    over them.  A handler is a computation in a small state-and-exception
    monad whose state is the database together with the log of the statements
    sent to it, so that "no lookup is performed" is a statement about the log.
    A store that cannot be reached is not part of the model; a statement
    that MySQL refuses for what the client sent is: [db.query] then throws
    and the [catch] block of the handler answers 500.  What MySQL and mysql2
    make of a value that the handler passes on unread (the comparison of
    strings under the collation of a column, the reading of a string as a
    number, the text of a parameter that is no string) is left to
    parameters.  The package
    [jsonwebtoken] is modelled by the order of the checks of its [verify],
    over an abstract signature primitive.  One clock, in seconds, stands for
    [Date.now()], for [NOW()] and for the timestamp [jsonwebtoken] reads. *)

From Stdlib Require Import ZArith Lia Ascii.
From stdpp Require Import base list strings pretty.

Open Scope string_scope.
Open Scope Z_scope.

(** ** The schema *)

Inductive tenant_status := TenantActive | TenantSuspended | TenantDeleted.
Inductive user_status := UserActive | UserInactive | UserInvited.

#[global] Instance tenant_status_eq_dec : EqDecision tenant_status.
Proof. solve_decision. Defined.
#[global] Instance user_status_eq_dec : EqDecision user_status.
Proof. solve_decision. Defined.

Module Tenant.
Record t := mk { id : Z; name : string; status : tenant_status }.
End Tenant.

Module User.
Record t := mk {
  id : Z; tenant_id : Z; email : string;
  first_name : string; last_name : string; status : user_status }.
End User.

Module Role.
Record t := mk { id : Z; tenant_id : Z; name : string; is_system_role : bool }.
End Role.

Module Permission.
Record t := mk { id : Z; name : string; category : string }.
End Permission.

Module RolePermission.
Record t := mk { role_id : Z; permission_id : Z }.
End RolePermission.

Module UserRole.
Record t := mk { user_id : Z; role_id : Z }.
End UserRole.

Module Session.
Record t := mk {
  id : Z; user_id : Z; refresh_token : string;
  is_active : bool; expires_at : Z; last_used : Z }.
End Session.

Record database := mk_database {
  tenants : list Tenant.t;
  users : list User.t;
  roles : list Role.t;
  permissions : list Permission.t;
  role_permissions : list RolePermission.t;
  user_roles : list UserRole.t;
  user_sessions : list Session.t }.

#[global] Instance tenant_eq_dec : EqDecision Tenant.t.
Proof. solve_decision. Defined.
#[global] Instance user_eq_dec : EqDecision User.t.
Proof. solve_decision. Defined.
#[global] Instance session_eq_dec : EqDecision Session.t.
Proof. solve_decision. Defined.

(** [PRIMARY KEY] of [tenants.id] and of [users.id]. *)
Definition primary_keys (d : database) : Prop :=
  NoDup (Tenant.id <$> tenants d) ∧ NoDup (User.id <$> users d).

(** ** What a handler sends back *)

Inductive required_field :=
  | RequiredOne (permission : string)
  | RequiredMany (permissions : list string).

Inductive json_body :=
  | ErrorBody (error : string) (required : option required_field)
  | MessageBody (message : string)
  | AccessTokenBody (accessToken : string).

Record reply := mk_reply { status : Z; body : json_body }.

(** [res.status(c).json({ error: e })] *)
Definition json_error (c : Z) (e : string) : reply := mk_reply c (ErrorBody e None).

(** A middleware either answers the request or calls [next()], handing on
    what it attached to [req]. *)
Inductive handled (A : Type) :=
  | Proceed (attached : A)
  | Responded (r : reply).
Arguments Proceed {A} attached.
Arguments Responded {A} r.

(** [req.user] *)
Module Principal.
Record t := mk {
  id : Z; email : string; firstName : string; lastName : string;
  tenantId : Z; tenantName : string; permissions : list string }.
End Principal.

(** ** Permission gates *)

(** [Array.prototype.includes] on an array of strings. *)
Fixpoint includes (l : list string) (x : string) : bool :=
  match l with
  | [] => false
  | y :: l' => if decide (y = x) then true else includes l' x
  end.

(** [Array.prototype.some] *)
Fixpoint some {A} (f : A → bool) (l : list A) : bool :=
  match l with
  | [] => false
  | x :: l' => if f x then true else some f l'
  end.

Definition checkPermission (permission : string) (user : Principal.t) : handled unit :=
  if negb (includes (Principal.permissions user) permission)
  then Responded (mk_reply 403
         (ErrorBody "Insufficient permissions" (Some (RequiredOne permission))))
  else Proceed ().

Definition checkAnyPermission (permissions : list string) (user : Principal.t) : handled unit :=
  let hasPermission := some (λ p, includes (Principal.permissions user) p) permissions in
  if negb hasPermission
  then Responded (mk_reply 403
         (ErrorBody "Insufficient permissions" (Some (RequiredMany permissions))))
  else Proceed ().

(** ** The token codec: [jsonwebtoken]

    The payloads are the ones this server signs: [jwt.sign({ userId, tenantId },
    secret, { expiresIn })] adds [iat] and [exp] (in seconds) and nothing else. *)
Record claims := mk_claims { userId : Z; tenantId : Z; iat : Z; exp : Z }.

(** The compact serialisation and the HMAC are not modelled: a codec says
    which strings are well-formed tokens and what they carry ([jws_decode]),
    whether the signature of a string verifies under a secret ([jws_verify]),
    and which string signing a payload yields ([jws_sign]). *)
Record jws_codec := mk_codec {
  jws_decode : string → option claims;
  jws_verify : string → string → bool;
  jws_sign : claims → string → string }.

(** [error.name] of what [jwt.verify] throws. *)
Inductive jwt_error := JsonWebTokenError | NotBeforeError | TokenExpiredError.

Inductive outcome (A : Type) :=
  | Returned (a : A)
  | Thrown (e : jwt_error).
Arguments Returned {A} a.
Arguments Thrown {A} e.

(** [process.env]; [JWT_EXPIRES_IN] is the configured life of an access token
    in seconds, [None] when unset or empty. *)
Record environment := mk_env {
  JWT_SECRET : string;
  JWT_REFRESH_SECRET : string;
  JWT_EXPIRES_IN : option Z }.

(** [jwt.verify(token, secret)] at [clock] seconds: an empty or malformed
    string and a signature that does not verify are a [JsonWebTokenError];
    only then is [exp] compared with the clock. *)
Definition jwt_verify (codec : jws_codec) (token secret : string) (clock : Z) : outcome claims :=
  if decide (token = "") then Thrown JsonWebTokenError
  else match jws_decode codec token with
       | None => Thrown JsonWebTokenError
       | Some payload =>
           if negb (jws_verify codec token secret) then Thrown JsonWebTokenError
           else if bool_decide (exp payload ≤ clock) then Thrown TokenExpiredError
           else Returned payload
       end.

(** [jwt.sign({ userId, tenantId }, secret, { expiresIn })] at [clock]. *)
Definition jwt_sign (codec : jws_codec) (uid tid : Z) (secret : string)
    (expiresIn clock : Z) : string :=
  jws_sign codec (mk_claims uid tid clock (clock + expiresIn)) secret.

(** ** The handler monad *)

(** The statements the modelled handlers send through [db.query]. *)
Inductive statement :=
  | SelectUserJoinTenant (user_id : Z)
  | SelectPermissionNames (user_id : Z)
  | SelectActiveSession (refresh_token : string)
  | UpdateSessionsByToken (refresh_token : string)
  | UpdateSessionsByValue (rendered : string)
  | UpdateSessionsByUser (user_id : Z).

Record store := mk_store { data : database; log : list statement }.

Definition io (A : Type) : Type := store → outcome A * store.

#[global] Instance io_ret : MRet io := λ A a s, (Returned a, s).
#[global] Instance io_bind : MBind io := λ A B f m s,
  match m s with
  | (Returned a, s') => f a s'
  | (Thrown e, s') => (Thrown e, s')
  end.

Definition throw_or_return {A} (o : outcome A) : io A := λ s, (o, s).

(** [try { body } catch (error) { handler(error) }] *)
Definition try_catch {A} (body : io A) (handler : jwt_error → io A) : io A := λ s,
  match body s with
  | (Returned a, s') => (Returned a, s')
  | (Thrown e, s') => handler e s'
  end.

(** A [SELECT]: logged, answered from the current tables. *)
Definition db_select {A} (q : statement) (rows : database → list A) : io (list A) := λ s,
  (Returned (rows (data s)), mk_store (data s) (log s ++ [q])).

(** An [UPDATE]: logged, the tables replaced. *)
Definition db_update (q : statement) (f : database → database) : io unit := λ s,
  (Returned (), mk_store (f (data s)) (log s ++ [q])).

(** A statement that MySQL refuses: logged, nothing written; [db.query]
    throws and [caught] is the [catch] block that receives the error. *)
Definition db_refused {A} (q : statement) (caught : io A) : io A := λ s,
  caught (mk_store (data s) (log s ++ [q])).

(** ** The statements *)

(** A row of the user lookup: [u.*] with [t.id as tenant_id],
    [t.name as tenant_name], [t.status as tenant_status]. *)
Module UserRow.
Record t := mk {
  id : Z; email : string; first_name : string; last_name : string;
  tenant_id : Z; tenant_name : string; tenant_status : tenant_status }.
Definition join (u : User.t) (tn : Tenant.t) : t :=
  mk (User.id u) (User.email u) (User.first_name u) (User.last_name u)
     (Tenant.id tn) (Tenant.name tn) (Tenant.status tn).
End UserRow.

(** [SELECT u.*, t.id as tenant_id, t.name as tenant_name, t.status as tenant_status
     FROM users u JOIN tenants t ON u.tenant_id = t.id
     WHERE u.id = ? AND u.status = 'active'] *)
Definition select_user_join_tenant (uid : Z) (d : database) : list UserRow.t :=
  u ← users d; tn ← tenants d;
  if decide (User.tenant_id u = Tenant.id tn ∧ User.id u = uid
             ∧ User.status u = UserActive)
  then [UserRow.join u tn] else [].

(** [SELECT DISTINCT p.name FROM permissions p
     JOIN role_permissions rp ON p.id = rp.permission_id
     JOIN user_roles ur ON rp.role_id = ur.role_id
     WHERE ur.user_id = ?] *)
Definition select_permission_names (uid : Z) (d : database) : list string :=
  remove_dups
    (p ← permissions d; rp ← role_permissions d; ur ← user_roles d;
     if decide (Permission.id p = RolePermission.permission_id rp
                ∧ RolePermission.role_id rp = UserRole.role_id ur
                ∧ UserRole.user_id ur = uid)
     then [Permission.name p] else []).

(** [SELECT * FROM user_sessions
     WHERE refresh_token = ? AND is_active = TRUE AND expires_at > NOW()] *)
Definition select_active_session (token : string) (now : Z) (d : database) : list Session.t :=
  filter (λ s, Session.refresh_token s = token ∧ Session.is_active s = true
               ∧ now < Session.expires_at s)
         (user_sessions d).

(** [SET is_active = FALSE] on one row.  [last_used] is declared
    [ON UPDATE CURRENT_TIMESTAMP]: it moves only when the statement changes
    the row, that is when the row was still active. *)
Definition deactivate (now : Z) (s : Session.t) : Session.t :=
  if Session.is_active s
  then Session.mk (Session.id s) (Session.user_id s) (Session.refresh_token s)
         false (Session.expires_at s) now
  else s.

Definition with_user_sessions (d : database) (l : list Session.t) : database :=
  mk_database (tenants d) (users d) (roles d) (permissions d)
    (role_permissions d) (user_roles d) l.

(** [UPDATE user_sessions SET is_active = FALSE WHERE ...], the rows the
    [WHERE] clause holds of being those of [matches]. *)
Definition deactivate_where (matches : Session.t → bool) (now : Z) (d : database) : database :=
  with_user_sessions d
    ((λ s, if matches s then deactivate now s else s) <$> user_sessions d).

(** [UPDATE user_sessions SET is_active = FALSE WHERE refresh_token = ?]
    with a string for parameter.  The column is a [VARCHAR] of a table
    created under [utf8mb4_unicode_ci], so that the comparison is the one of
    that collation, which holds of more pairs than the equal ones (it
    ignores case, for one): [token_eq stored given] stands for it. *)
Definition revoke (token_eq : string → string → bool) (token : string) (now : Z)
    (d : database) : database :=
  deactivate_where (λ s, token_eq (Session.refresh_token s) token) now d.

(** [UPDATE user_sessions SET is_active = FALSE WHERE user_id = ?] *)
Definition revokeAll (uid : Z) (now : Z) (d : database) : database :=
  with_user_sessions d
    ((λ s, if decide (Session.user_id s = uid) then deactivate now s else s)
       <$> user_sessions d).

(** The session test of the refresh route: [sessions.length === 0] fails it. *)
Definition isSessionValid (token : string) (now : Z) (d : database) : bool :=
  negb (bool_decide (length (select_active_session token now d) = 0%nat)).

(** ** Requests *)

(** [req.headers.authorization] and [req.body.refreshToken]; [None] is
    [undefined]. *)
Record request := mk_request {
  authorization : option string;
  body_refreshToken : option string }.

(** [req.body.refreshToken] as [POST /auth/logout] reads it.  The body went
    through [express.json()] and [express.urlencoded({ extended: true })]
    and the handler hands the field to [db.query] as it is: a string, or a
    value of another kind (a number, a boolean, [null], an array, an
    object). *)
Inductive body_value (J : Type) :=
  | BodyString (s : string)
  | BodyJson (v : J).
Arguments BodyString {J} s.
Arguments BodyJson {J} v.

(** What the model leaves to the platform in the statement of the logout
    route.  [json] is the type of the body values that are no strings and
    [json_truthy v] is [!!v].  [token_eq stored given] is the comparison
    [refresh_token = ?] of MySQL on strings, under the collation of the
    column.  [db.query] of mysql2 writes the parameter into the statement
    with [SqlString.format]: [json_rendered v] is the text it puts in the
    place of [?] (an object becomes a list of [`key` = value]), and
    [json_where v] is the condition the statement then has on a row, or
    [None] when MySQL refuses the statement.  Of the comparison the model
    uses one fact, which holds under every collation: a string equals
    itself. *)
Class SqlDriver := {
  json : Type;
  json_truthy : json → bool;
  json_rendered : json → string;
  json_where : json → option (Session.t → bool);
  token_eq : string → string → bool;
  token_eq_refl : ∀ token, token_eq token token = true }.

(** [String.prototype.split] with a one-character separator. *)
Fixpoint split (sep : Ascii.ascii) (s : string) : list string :=
  match s with
  | EmptyString => [EmptyString]
  | String c rest =>
      if decide (c = sep) then EmptyString :: split sep rest
      else match split sep rest with
           | [] => [String c EmptyString]
           | w :: ws => String c w :: ws
           end
  end.

(** [req.headers.authorization?.split(' ')[1]] *)
Definition bearer (req : request) : option string :=
  h ← authorization req; split " "%char h !! 1%nat.

(** The values that pass [if (!v) ...]: neither [undefined] nor empty. *)
Definition truthy (v : option string) : option string :=
  match v with
  | Some s => if decide (s = "") then None else Some s
  | None => None
  end.

(** [if (refreshToken)] of the logout route. *)
Definition truthy_value `{SqlDriver} (v : option (body_value json)) : bool :=
  match v with
  | Some (BodyString s) => negb (bool_decide (s = ""))
  | Some (BodyJson v) => json_truthy v
  | None => false
  end.

(** The statement of the logout route for a body value, and the rows its
    [WHERE] clause holds of; [None] when MySQL refuses the statement. *)
Definition update_sessions_statement `{SqlDriver} (v : body_value json) : statement :=
  match v with
  | BodyString s => UpdateSessionsByToken s
  | BodyJson v => UpdateSessionsByValue (json_rendered v)
  end.

Definition where_refresh_token `{SqlDriver} (v : body_value json)
    : option (Session.t → bool) :=
  match v with
  | BodyString s => Some (λ x, token_eq (Session.refresh_token x) s)
  | BodyJson v => json_where v
  end.

(** ** The handlers *)

Section Handlers.
Context `{SqlDriver} (env : environment) (codec : jws_codec) (now : Z).

(** [verifyToken] of [middleware/auth.js]. *)
Definition verifyToken (req : request) : io (handled Principal.t) :=
  try_catch
    (match truthy (bearer req) with
     | None => mret (Responded (json_error 401 "Access token required"))
     | Some token =>
         decoded ← throw_or_return (jwt_verify codec token (JWT_SECRET env) now);
         users ← db_select (SelectUserJoinTenant (userId decoded))
                   (select_user_join_tenant (userId decoded));
         match users with
         | [] => mret (Responded (json_error 401 "User not found or inactive"))
         | user :: _ =>
             if decide (UserRow.tenant_status user ≠ TenantActive)
             then mret (Responded (json_error 403 "Organization is suspended"))
             else
               permissions ← db_select (SelectPermissionNames (UserRow.id user))
                               (select_permission_names (UserRow.id user));
               mret (Proceed (Principal.mk
                       (UserRow.id user) (UserRow.email user)
                       (UserRow.first_name user) (UserRow.last_name user)
                       (UserRow.tenant_id user) (UserRow.tenant_name user)
                       permissions))
         end
     end)
    (λ error,
       match error with
       | JsonWebTokenError => mret (Responded (json_error 401 "Invalid token"))
       | TokenExpiredError => mret (Responded (json_error 401 "Token expired"))
       | _ => mret (Responded (json_error 500 "Authentication failed"))
       end).

(** [POST /auth/logout]: [verifyToken], then the handler, which is given
    [req.body.refreshToken].  A statement that MySQL refuses makes
    [db.query] throw, which the [catch] block answers with status 500; the
    statement was sent and has written nothing. *)
Definition logout (req : request) (refreshToken : option (body_value json)) : io reply :=
  auth ← verifyToken req;
  match auth with
  | Responded r => mret r
  | Proceed _ =>
      match refreshToken with
      | Some v =>
          if truthy_value refreshToken then
            match where_refresh_token v with
            | Some matches =>
                db_update (update_sessions_statement v) (deactivate_where matches now);;
                mret (mk_reply 200 (MessageBody "Logged out successfully"))
            | None =>
                db_refused (update_sessions_statement v)
                  (mret (json_error 500 "Logout failed"))
            end
          else mret (mk_reply 200 (MessageBody "Logged out successfully"))
      | None => mret (mk_reply 200 (MessageBody "Logged out successfully"))
      end
  end.

(** [POST /auth/refresh-token] *)
Definition refresh_token (req : request) : io reply :=
  try_catch
    (match truthy (body_refreshToken req) with
     | None => mret (json_error 400 "Refresh token required")
     | Some refreshToken =>
         decoded ← throw_or_return
                     (jwt_verify codec refreshToken (JWT_REFRESH_SECRET env) now);
         sessions ← db_select (SelectActiveSession refreshToken)
                      (select_active_session refreshToken now);
         if bool_decide (length sessions = 0%nat)
         then mret (json_error 401 "Invalid or expired refresh token")
         else
           let accessToken :=
             jwt_sign codec (userId decoded) (tenantId decoded) (JWT_SECRET env)
               (default 3600 (JWT_EXPIRES_IN env)) now in
           mret (mk_reply 200 (AccessTokenBody accessToken))
     end)
    (λ error,
       match error with
       | JsonWebTokenError | TokenExpiredError =>
           mret (json_error 401 "Invalid refresh token")
       | _ => mret (json_error 500 "Token refresh failed")
       end).

End Handlers.

(** ASCII lower-casing, for running the definitions. *)
Definition ascii_lower (c : ascii) : ascii :=
  let n := nat_of_ascii c in
  if ((65 <=? n)%nat && (n <=? 90)%nat) then ascii_of_nat (n + 32) else c.

Fixpoint ascii_toLowerCase (s : string) : string :=
  match s with
  | EmptyString => EmptyString
  | String c rest => String (ascii_lower c) (ascii_toLowerCase rest)
  end.

(** ** A concrete deployment, for running the handlers *)

Module Demo.

Definition env : environment := mk_env "access-secret" "refresh-secret" None.

(** Five tokens: [tok.alice], [tok.bob] and [tok.carol] are signed with the
    access secret, [tok.forged] carries an expiry long past and a signature
    made with another key, [rt.bob] is a refresh token; signing yields
    [tok.fresh]. *)
Definition codec : jws_codec := mk_codec
  (λ s, if decide (s = "tok.alice") then Some (mk_claims 1 1 0 3600)
        else if decide (s = "tok.bob") then Some (mk_claims 2 2 0 3600)
        else if decide (s = "tok.carol") then Some (mk_claims 3 2 0 3600)
        else if decide (s = "tok.forged") then Some (mk_claims 1 1 0 50)
        else if decide (s = "rt.bob") then Some (mk_claims 2 2 0 604800)
        else None)
  (λ s k, bool_decide ((s = "tok.alice" ∨ s = "tok.bob" ∨ s = "tok.carol")
                       ∧ k = "access-secret")
          || bool_decide (s = "rt.bob" ∧ k = "refresh-secret"))
  (λ c k, "tok.fresh").

(** Tenant 1 is active and tenant 2 suspended; alice (user 1, tenant 1)
    holds role 10 of her tenant and role 20 of tenant 2; bob (user 2,
    tenant 2) is inactive; carol (user 3, tenant 2) is active. *)
Definition db : database := mk_database
  [Tenant.mk 1 "Acme" TenantActive; Tenant.mk 2 "Globex" TenantSuspended]
  [User.mk 1 1 "alice@acme.test" "Alice" "A" UserActive;
   User.mk 2 2 "bob@globex.test" "Bob" "B" UserInactive;
   User.mk 3 2 "carol@globex.test" "Carol" "C" UserActive]
  [Role.mk 10 1 "Member" true; Role.mk 20 2 "Admin" true]
  [Permission.mk 1 "tasks.view" "tasks"; Permission.mk 2 "billing.manage" "billing"]
  [RolePermission.mk 10 1; RolePermission.mk 20 1; RolePermission.mk 20 2]
  [UserRole.mk 1 10; UserRole.mk 1 20]
  [Session.mk 1 2 "rt.bob" true 604800 0; Session.mk 2 1 "rt.alice" true 604800 0].

(** The same store without alice's assignment to the role of tenant 2. *)
Definition db_scoped : database := mk_database
  (tenants db) (users db) (roles db) (permissions db) (role_permissions db)
  [UserRole.mk 1 10] (user_sessions db).

Definition with_bearer (token : string) : request :=
  mk_request (Some ("Bearer " +:+ token)) None.

(** The body values of the demo that are no strings: [null], an array of
    two strings and an object with one key and an integer under it. *)
Inductive json_value :=
  | JsonNull
  | JsonArray (a b : string)
  | JsonObject (key : string) (n : Z).

(** The tokens of the demo are ASCII, where the collation equates what
    differs in case only.  [refresh_token = 'a', 'b'] is no statement.
    [refresh_token = `refresh_token` = n] is read
    [(refresh_token = refresh_token) = n] and compares 1 with [n] on every
    row; under another column of the table, or one the table does not have,
    the statement is refused (no token of the demo is a number). *)
#[global] Instance driver : SqlDriver := {|
  json := json_value;
  json_truthy := λ v, match v with JsonNull => false | _ => true end;
  json_rendered := λ v,
    match v with
    | JsonNull => "NULL"
    | JsonArray a b => "'" +:+ a +:+ "', '" +:+ b +:+ "'"
    | JsonObject key n => "`" +:+ key +:+ "` = " +:+ pretty n
    end;
  json_where := λ v,
    match v with
    | JsonObject key n =>
        if decide (key = "refresh_token") then Some (λ _, bool_decide (n = 1)) else None
    | _ => None
    end;
  token_eq := λ stored given,
    bool_decide (ascii_toLowerCase stored = ascii_toLowerCase given);
  token_eq_refl := λ token, bool_decide_eq_true_2 _ eq_refl |}.

(** alice logs out, naming her refresh token in capitals. *)
Definition logout_request : request := with_bearer "tok.alice".
Definition logout_body : option (body_value json) := Some (BodyString "RT.ALICE").

(** alice logs out with [{ "refreshToken": { "refresh_token": 1 } }]. *)
Definition logout_object : option (body_value json) :=
  Some (BodyJson (JsonObject "refresh_token" 1)).

End Demo.

(** [verifyToken] from the user lookup on, once [jwt.verify] has returned
    [decoded]; [verifyToken_verified] below shows that it is that. *)
Definition after_verify (decoded : claims) (s : store) : outcome (handled Principal.t) * store :=
  let s1 := mk_store (data s) (log s ++ [SelectUserJoinTenant (userId decoded)]) in
  match select_user_join_tenant (userId decoded) (data s) with
  | [] => (Returned (Responded (json_error 401 "User not found or inactive")), s1)
  | user :: _ =>
      if decide (UserRow.tenant_status user ≠ TenantActive)
      then (Returned (Responded (json_error 403 "Organization is suspended")), s1)
      else (Returned (Proceed (Principal.mk
               (UserRow.id user) (UserRow.email user)
               (UserRow.first_name user) (UserRow.last_name user)
               (UserRow.tenant_id user) (UserRow.tenant_name user)
               (select_permission_names (UserRow.id user) (data s)))),
            mk_store (data s)
              ((log s ++ [SelectUserJoinTenant (userId decoded)])
                 ++ [SelectPermissionNames (UserRow.id user)]))
  end.

(** ** The vocabulary of the specification *)

(** A valid, unexpired token for [secret]: a well-formed string whose
    signature verifies under [secret] and whose expiry lies ahead. *)
Definition valid_token (codec : jws_codec) (token secret : string) (now : Z)
    (payload : claims) : Prop :=
  token ≠ "" ∧ jws_decode codec token = Some payload
  ∧ jws_verify codec token secret = true ∧ now < exp payload.

(** [name] is reachable through a role assigned to user [uid]. *)
Definition reachable_permission (d : database) (uid : Z) (name : string) : Prop :=
  ∃ ur rp p,
    ur ∈ user_roles d ∧ UserRole.user_id ur = uid
    ∧ rp ∈ role_permissions d ∧ RolePermission.role_id rp = UserRole.role_id ur
    ∧ p ∈ permissions d ∧ Permission.id p = RolePermission.permission_id rp
    ∧ Permission.name p = name.

(** [name] is reachable through an assigned role that belongs to tenant [tid]. *)
Definition reachable_within_tenant (d : database) (uid tid : Z) (name : string) : Prop :=
  ∃ ur rp p r,
    ur ∈ user_roles d ∧ UserRole.user_id ur = uid
    ∧ rp ∈ role_permissions d ∧ RolePermission.role_id rp = UserRole.role_id ur
    ∧ p ∈ permissions d ∧ Permission.id p = RolePermission.permission_id rp
    ∧ Permission.name p = name
    ∧ r ∈ roles d ∧ Role.id r = UserRole.role_id ur ∧ Role.tenant_id r = tid.

(** Every assignment gives a user a role of the user's own tenant: what
    [PUT /users/:id/role] and registration check before they insert into
    [user_roles]. *)
Definition assignments_within_tenant (d : database) : Prop :=
  ∀ ur u, ur ∈ user_roles d → u ∈ users d → User.id u = UserRole.user_id ur →
    ∃ r, r ∈ roles d ∧ Role.id r = UserRole.role_id ur
         ∧ Role.tenant_id r = User.tenant_id u.

(** Two stores that differ at most in [user_sessions]. *)
Definition same_but_sessions (d1 d2 : database) : Prop :=
  tenants d1 = tenants d2 ∧ users d1 = users d2 ∧ roles d1 = roles d2
  ∧ permissions d1 = permissions d2 ∧ role_permissions d1 = role_permissions d2
  ∧ user_roles d1 = user_roles d2.

(** ** What a logout may write *)

(** [d'] is [d] but for session rows deactivated at [now]: the other tables
    are those of [d], and the session table has the rows of [d], in their
    order, each as it was or deactivated. *)
Definition only_deactivated (now : Z) (d d' : database) : Prop :=
  same_but_sessions d d'
  ∧ Forall2 (λ x y, y = x ∨ y = deactivate now x) (user_sessions d) (user_sessions d').

(** ** Routes behind the gates *)

Section Gated.
Context (env : environment) (codec : jws_codec) (now : Z).

(** [router.use(verifyToken)], or [verifyToken] ahead of the handler in
    [router.METHOD(path, verifyToken, handler)]: the handler runs with the
    principal [verifyToken] attached, or not at all. *)
Definition authenticated (handler : Principal.t → io reply) (req : request) : io reply :=
  auth ← verifyToken env codec now req;
  match auth with
  | Responded r => mret r
  | Proceed user => handler user
  end.

(** [router.METHOD(path, checkPermission(permission), handler)] on a router
    that uses [verifyToken]. *)
Definition gated (permission : string) (handler : Principal.t → io reply)
    (req : request) : io reply :=
  authenticated
    (λ user,
       match checkPermission permission user with
       | Responded r => mret r
       | Proceed _ => handler user
       end)
    req.

End Gated.

(** ** Values the client sends *)

(** A route parameter ([req.params.id]) or a body field that no validator
    has constrained ([req.body.roleId], [req.body.status]: their validators
    run but [validationResult] is never consulted) is whatever JavaScript
    value the client sent.  The handlers read such a value in ways that
    belong to the platform, not to this repository:
    - [parseInt v], [None] standing for [NaN];
    - [sql_eq k v]: whether an integer column holding [k] satisfies
      [column = ?] with [v] as the parameter;
    - [sql_int v]: what an integer column stores when [v] is inserted;
    - [sql_status v]: what the [status] ENUM of [users] stores for [v], for
      the values the column accepts;
    - [js_string v]: [Some s] when [v] is the string [s], for [v === 'literal']. *)
Class Untyped := mk_untyped {
  value : Type;
  parseInt : value → option Z;
  sql_eq : Z → value → bool;
  sql_int : value → Z;
  sql_status : value → user_status;
  js_string : value → option string }.

(** A value an integer column compares equal to is stored as that integer. *)
Definition eq_stores `{Untyped} : Prop :=
  ∀ k v, sql_eq k v = true → sql_int v = k.

(** The string ['inactive'] is stored as the ENUM member of that name. *)
Definition inactive_stores `{Untyped} : Prop :=
  ∀ v, js_string v = Some "inactive" → sql_status v = UserInactive.

(** The values of a client that sends integers for ids and the three member
    names for a status. *)
Inductive plain_value := PlainInt (n : Z) | PlainStatus (st : user_status).

Definition plain : Untyped := mk_untyped plain_value
  (λ v, match v with PlainInt n => Some n | PlainStatus _ => None end)
  (λ k v, match v with PlainInt n => bool_decide (k = n) | PlainStatus _ => false end)
  (λ v, match v with PlainInt n => n | PlainStatus _ => 0 end)
  (λ v, match v with PlainStatus st => st | PlainInt _ => UserActive end)
  (λ v, match v with
        | PlainStatus UserActive => Some "active"
        | PlainStatus UserInactive => Some "inactive"
        | PlainStatus UserInvited => Some "invited"
        | PlainInt _ => None
        end).

(** The values of a client that writes what it likes: an integer in
    scientific notation, [Scientific m x] for the digits of [m], the letter
    [e] and the digits of [x], as in ['1e1']; or a word, which this client
    sends for a status only.  [parseInt] reads the digits before the [e];
    MySQL reads the number. *)
Inductive loose_value := Scientific (mantissa : Z) (exponent : nat) | Word (s : string).

Definition loose : Untyped := mk_untyped loose_value
  (λ v, match v with Scientific m _ => Some m | Word _ => None end)
  (λ k v, match v with
          | Scientific m x => bool_decide (k = m * 10 ^ Z.of_nat x)
          | Word _ => false
          end)
  (λ v, match v with Scientific m x => m * 10 ^ Z.of_nat x | Word _ => 0 end)
  (λ v, match v with
        | Word s => if decide (s = "inactive") then UserInactive
                    else if decide (s = "invited") then UserInvited else UserActive
        | Scientific _ _ => UserActive
        end)
  (λ v, match v with Word s => Some s | Scientific _ _ => None end).

(** ** The audit log *)

(** What [JSON.stringify] is applied to for [new_values]. *)
Inductive logged_values (V : Type) :=
  | LoggedRoleId (roleId : V)
  | LoggedStatus (status : V).
Arguments LoggedRoleId {V} roleId.
Arguments LoggedStatus {V} status.

Module AuditLog.
Record t (V : Type) := mk {
  tenant_id : Z; user_id : Z; action : string; entity_type : string;
  entity_id : Z; new_values : logged_values V; ip_address : string }.
Arguments mk {V}.
Arguments tenant_id {V}.
Arguments user_id {V}.
Arguments action {V}.
Arguments entity_type {V}.
Arguments entity_id {V}.
Arguments new_values {V}.
Arguments ip_address {V}.
End AuditLog.

(** The tables the user-management routes work on. *)
Record world (V : Type) := mk_world {
  tables : database;
  audit_logs : list (AuditLog.t V) }.
Arguments mk_world {V}.
Arguments tables {V}.
Arguments audit_logs {V}.

Definition with_users (d : database) (l : list User.t) : database :=
  mk_database (tenants d) l (roles d) (permissions d)
    (role_permissions d) (user_roles d) (user_sessions d).

Definition with_user_roles (d : database) (l : list UserRole.t) : database :=
  mk_database (tenants d) (users d) (roles d) (permissions d)
    (role_permissions d) l (user_sessions d).

Definition set_status (st : user_status) (u : User.t) : User.t :=
  User.mk (User.id u) (User.tenant_id u) (User.email u)
    (User.first_name u) (User.last_name u) st.

(** ** [routes/users.js] and the session routes of [routes/auth.js]

    Each handler is given the principal [verifyToken] attached; the routes of
    [routes/users.js] run behind [checkPermission('users.edit')]. *)

Section UserRoutes.
Context `{Untyped}.

(** [SELECT id FROM users WHERE id = ? AND tenant_id = ?] *)
Definition select_user_in_tenant (id : value) (tid : Z) (d : database) : list User.t :=
  filter (λ u, sql_eq (User.id u) id = true ∧ User.tenant_id u = tid) (users d).

(** [SELECT id FROM roles WHERE id = ? AND tenant_id = ?] *)
Definition select_role_in_tenant (roleId : value) (tid : Z) (d : database) : list Role.t :=
  filter (λ r, sql_eq (Role.id r) roleId = true ∧ Role.tenant_id r = tid) (roles d).

(** [PUT /users/:id/role] *)
Definition put_user_role (user : Principal.t) (id roleId : value) (ip : string)
    (w : world value) : reply * world value :=
  if decide (parseInt id = Some (Principal.id user))
  then (json_error 400 "Cannot change your own role", w)
  else
    let d := tables w in
    if bool_decide (length (select_user_in_tenant id (Principal.tenantId user) d) = 0%nat)
    then (json_error 404 "User not found", w)
    else if bool_decide
              (length (select_role_in_tenant roleId (Principal.tenantId user) d) = 0%nat)
    then (json_error 404 "Role not found", w)
    else
      (* DELETE FROM user_roles WHERE user_id = ? *)
      let kept := filter (λ ur, sql_eq (UserRole.user_id ur) id ≠ true) (user_roles d) in
      (* INSERT INTO user_roles (user_id, role_id) VALUES (?, ?) *)
      let assigned := (kept ++ [UserRole.mk (sql_int id) (sql_int roleId)])%list in
      let entry := AuditLog.mk (Principal.tenantId user) (Principal.id user)
                     "update_role" "user" (sql_int id) (LoggedRoleId roleId) ip in
      (mk_reply 200 (MessageBody "User role updated successfully"),
       mk_world (with_user_roles d assigned) (audit_logs w ++ [entry])).

(** [UPDATE users SET status = ? WHERE id = ? AND tenant_id = ?] *)
Definition update_user_status (status id : value) (tid : Z) (d : database) : database :=
  with_users d
    ((λ u, if decide (sql_eq (User.id u) id = true ∧ User.tenant_id u = tid)
           then set_status (sql_status status) u else u) <$> users d).

(** [UPDATE user_sessions SET is_active = FALSE WHERE user_id = ?], the
    parameter being the route's [id]. *)
Definition revoke_sessions_of (id : value) (now : Z) (d : database) : database :=
  with_user_sessions d
    ((λ s, if decide (sql_eq (Session.user_id s) id = true) then deactivate now s else s)
       <$> user_sessions d).

(** [PUT /users/:id/status] *)
Definition put_user_status (user : Principal.t) (id status : value) (ip : string)
    (now : Z) (w : world value) : reply * world value :=
  if decide (parseInt id = Some (Principal.id user))
  then (json_error 400 "Cannot change your own status", w)
  else
    let d := tables w in
    if bool_decide (length (select_user_in_tenant id (Principal.tenantId user) d) = 0%nat)
    then (json_error 404 "User not found", w)
    else
      let d1 := update_user_status status id (Principal.tenantId user) d in
      let d2 := if decide (js_string status = Some "inactive")
                then revoke_sessions_of id now d1 else d1 in
      let entry := AuditLog.mk (Principal.tenantId user) (Principal.id user)
                     "update_status" "user" (sql_int id) (LoggedStatus status) ip in
      (mk_reply 200
         (MessageBody ("User " +:+ (if decide (js_string status = Some "active")
                                    then "activated" else "deactivated")
                       +:+ " successfully")),
       mk_world d2 (audit_logs w ++ [entry])).

(** [DELETE /auth/sessions/:id]:
    [UPDATE user_sessions SET is_active = FALSE WHERE id = ? AND user_id = ?].
    The [id] is a segment of the path, which MySQL compares with an integer
    column.  [refuses id d] tells whether MySQL refuses the statement with
    that parameter on the tables [d], as it does under strict SQL mode for a
    string that is no number: [db.query] then throws, nothing is written and
    the [catch] block answers. *)
Definition delete_session (refuses : value → database → bool) (user : Principal.t)
    (id : value) (now : Z) (d : database) : reply * database :=
  if refuses id d
  then (json_error 500 "Failed to terminate session", d)
  else
    (mk_reply 200 (MessageBody "Session terminated"),
     with_user_sessions d
       ((λ s, if decide (sql_eq (Session.id s) id = true
                         ∧ Session.user_id s = Principal.id user)
              then deactivate now s else s)
          <$> user_sessions d)).

End UserRoutes.

(** The demo deployment with dave, user 10 of tenant 1, who holds role 10
    and has a session; tenant 1 has a second role, 11. *)
Module GuardDemo.

Definition db : database := mk_database
  (tenants Demo.db)
  (users Demo.db ++ [User.mk 10 1 "dave@acme.test" "Dave" "D" UserActive])%list
  (roles Demo.db ++ [Role.mk 11 1 "Owner" true])%list
  (permissions Demo.db) (role_permissions Demo.db)
  (user_roles Demo.db ++ [UserRole.mk 10 10])%list
  (user_sessions Demo.db ++ [Session.mk 3 10 "rt.dave" true 604800 0])%list.

Definition dave : Principal.t :=
  Principal.mk 10 "dave@acme.test" "Dave" "D" 1 "Acme" ["tasks.view"; "users.edit"].

End GuardDemo.

(** ** [POST /auth/login] *)

(** What the handler reads of the request once [loginValidation] has run:
    the list [validationResult(req)] holds, [req.body.email] as
    [normalizeEmail] left it, [req.body.password], and whether
    [req.body.rememberMe] is truthy. *)
Record login_request := mk_login_request {
  validation_errors : list string;
  login_email : string;
  login_password : string;
  rememberMe : bool }.

(** The [user] object of the answer ([avatar] is a column the model of
    [users] does not carry). *)
Module Account.
Record t := mk {
  id : Z; email : string; firstName : string; lastName : string;
  tenantId : Z; tenantName : string }.
End Account.

Inductive login_reply :=
  | LoginInvalid (errors : list string)
  | LoginRefused (r : reply)
  | LoginSuccessful (user : Account.t) (accessToken refreshToken : string).

(** [INSERT INTO user_sessions (user_id, refresh_token, ..., expires_at)]:
    [id] is the key the store hands out, [is_active] defaults to [TRUE] and
    [last_used] to the current time. *)
Definition insert_session (id user_id : Z) (refresh_token : string)
    (expires_at now : Z) (d : database) : database :=
  with_user_sessions d
    (user_sessions d ++ [Session.mk id user_id refresh_token true expires_at now]).

(** The statements by which the handler writes:
    [INSERT INTO user_sessions ...] and
    [UPDATE users SET last_login = NOW() WHERE id = ?]. *)
Inductive login_write :=
  | InsertSession (id user_id : Z) (refresh_token : string) (expires_at now : Z)
  | UpdateLastLogin (user_id now : Z).

(** [last_login] is a column the model of [users] does not carry: the
    statement leaves the modelled tables as they are. *)
Definition run_login_write (d : database) (w : login_write) : database :=
  match w with
  | InsertSession id user_id refresh_token expires_at now =>
      insert_session id user_id refresh_token expires_at now d
  | UpdateLastLogin _ _ => d
  end.

Section Login.
Context (env : environment) (codec : jws_codec) (now : Z).
(** [u.email = ?] under the collation of the column. *)
Context (email_eq : string → string → bool).
(** [bcrypt.compare(password, user.password_hash)]: [password_hash] is a
    column the model of [users] does not carry, so the test is taken on the
    row. *)
Context (password_matches : string → User.t → bool).

(** [SELECT u.*, t.name as tenant_name, t.status as tenant_status
     FROM users u JOIN tenants t ON u.tenant_id = t.id
     WHERE u.email = ? AND u.status = 'active'] *)
Definition select_user_by_email (email : string) (d : database) : list (User.t * Tenant.t) :=
  u ← users d; tn ← tenants d;
  if decide (User.tenant_id u = Tenant.id tn ∧ email_eq (User.email u) email = true
             ∧ User.status u = UserActive)
  then [(u, tn)] else [].

(** The handler of [POST /auth/login], with the statements it writes by, in
    the order it sends them; [session_id] is the key the store hands out for
    the new session row.  [insert_refused] tells whether MySQL refuses the
    [INSERT], as it does under strict SQL mode for a [User-Agent] header
    longer than the column [device_info]: [db.query] then throws, and the
    [catch] block answers. *)
Definition login_run (insert_refused : bool) (session_id : Z) (req : login_request)
    (d : database) : login_reply * list login_write :=
  if negb (bool_decide (validation_errors req = []))
  then (LoginInvalid (validation_errors req), [])
  else
    match select_user_by_email (login_email req) d with
    | [] => (LoginRefused (json_error 401 "Invalid credentials"), [])
    | (user, tn) :: _ =>
        if decide (Tenant.status tn ≠ TenantActive)
        then (LoginRefused (json_error 403 "Organization is suspended"), [])
        else if negb (password_matches (login_password req) user)
        then (LoginRefused (json_error 401 "Invalid credentials"), [])
        else
          let expiresIn := if rememberMe req then 30 * 86400 else 3600 in
          let refreshExpiresIn := if rememberMe req then 90 * 86400 else 7 * 86400 in
          let accessToken :=
            jwt_sign codec (User.id user) (User.tenant_id user) (JWT_SECRET env)
              expiresIn now in
          let refreshToken :=
            jwt_sign codec (User.id user) (User.tenant_id user)
              (JWT_REFRESH_SECRET env) refreshExpiresIn now in
          let days := if rememberMe req then 90 else 7 in
          let expiresAt := now + days * 24 * 60 * 60 in
          if insert_refused
          then (LoginRefused (json_error 500 "Login failed"), [])
          else
            (LoginSuccessful
               (Account.mk (User.id user) (User.email user) (User.first_name user)
                  (User.last_name user) (User.tenant_id user) (Tenant.name tn))
               accessToken refreshToken,
             [InsertSession session_id (User.id user) refreshToken expiresAt now;
              UpdateLastLogin (User.id user) now])
    end.

(** The handler when MySQL takes the [INSERT]: the answer, and the tables
    once the statements have run. *)
Definition login (session_id : Z) (req : login_request) (d : database)
    : login_reply * database :=
  (fst (login_run false session_id req d),
   foldl run_login_write d (snd (login_run false session_id req d))).

End Login.

(** The codec reads back what it signs for [payload] under [secret]: the
    string is not empty, decodes to [payload], and verifies under [secret]. *)
Definition reads_back (codec : jws_codec) (payload : claims) (secret : string) : Prop :=
  jws_sign codec payload secret ≠ ""
  ∧ jws_decode codec (jws_sign codec payload secret) = Some payload
  ∧ jws_verify codec (jws_sign codec payload secret) secret = true.

Module LoginDemo.

(** A codec that reads back the two tokens alice is handed at time 100. *)
Definition codec : jws_codec := mk_codec
  (λ s, if decide (s = "at.alice") then Some (mk_claims 1 1 100 3700)
        else if decide (s = "rt.alice.2") then Some (mk_claims 1 1 100 604900)
        else None)
  (λ s k, bool_decide (s = "at.alice" ∧ k = "access-secret")
          || bool_decide (s = "rt.alice.2" ∧ k = "refresh-secret"))
  (λ c k, if decide (k = "refresh-secret") then "rt.alice.2" else "at.alice").

Definition email_eq (a b : string) : bool := bool_decide (a = b).

Definition password_matches (password : string) (u : User.t) : bool :=
  bool_decide (password = "correct horse" ∧ User.id u = 1).

Definition request : login_request :=
  mk_login_request [] "alice@acme.test" "correct horse" false.

End LoginDemo.

(** ** The slug of an organisation ([POST /auth/register]) *)

(** The class [[a-z0-9]]. *)
Definition is_slug_char (c : ascii) : bool :=
  let n := nat_of_ascii c in
  ((97 <=? n)%nat && (n <=? 122)%nat) || ((48 <=? n)%nat && (n <=? 57)%nat).

(** [s.replace(/[^a-z0-9]+/g, '-')]; [in_run] says that the character before
    belonged to the run being replaced. *)
Fixpoint dash_runs (in_run : bool) (s : string) : string :=
  match s with
  | EmptyString => EmptyString
  | String c rest =>
      if is_slug_char c then String c (dash_runs false rest)
      else if in_run then dash_runs true rest
      else String "-" (dash_runs true rest)
  end.

Definition drop_leading_dash (s : string) : string :=
  match s with
  | String c rest => if decide (c = "-"%char) then rest else s
  | EmptyString => EmptyString
  end.

Fixpoint drop_trailing_dash (s : string) : string :=
  match s with
  | EmptyString => EmptyString
  | String c EmptyString => if decide (c = "-"%char) then EmptyString else s
  | String c rest => String c (drop_trailing_dash rest)
  end.

(** [s.replace(/^-|-$/g, '')] *)
Definition trim_dashes (s : string) : string :=
  drop_trailing_dash (drop_leading_dash s).

Section Slug.
(** [String.prototype.toLowerCase] *)
Context (toLowerCase : string → string).

(** [organizationName.toLowerCase().replace(/[^a-z0-9]+/g, '-').replace(/^-|-$/g, '')] *)
Definition slug_base (organizationName : string) : string :=
  trim_dashes (dash_runs false (toLowerCase organizationName)).

(** The slug, [millis] being [Date.now()]. *)
Definition organization_slug (organizationName : string) (millis : Z) : string :=
  slug_base organizationName +:+ "-" +:+ pretty millis.

End Slug.

(** Words of [[a-z0-9]] joined by single dashes: [after_char] says that the
    character before was of the class. *)
Fixpoint dashed_words (after_char : bool) (s : string) : bool :=
  match s with
  | EmptyString => after_char
  | String c rest =>
      if is_slug_char c then dashed_words true rest
      else if decide (c = "-"%char) then after_char && dashed_words false rest
      else false
  end.

(** Output in which no two dashes are adjacent; with [after_char] false it
    does not begin with a dash either. *)
Fixpoint single_dashes (after_char : bool) (s : string) : bool :=
  match s with
  | EmptyString => true
  | String c rest =>
      if is_slug_char c then single_dashes true rest
      else if decide (c = "-"%char) then after_char && single_dashes false rest
      else false
  end.

(** Empty, or words of [[a-z0-9]] joined by single dashes. *)
Definition well_formed_slug (s : string) : bool :=
  match s with
  | EmptyString => true
  | _ => dashed_words false s
  end.

Fixpoint has_slug_char (s : string) : bool :=
  match s with
  | EmptyString => false
  | String c rest => is_slug_char c || has_slug_char rest
  end.

(** ** [POST /auth/register] *)

(** What the handler reads of the request once [registerValidation] has run. *)
Record register_request := mk_register_request {
  reg_validation_errors : list string;
  reg_email : string;
  reg_password : string;
  reg_firstName : string;
  reg_lastName : string;
  organizationName : string }.

(** The keys the store hands out ([insertId]) for the rows the handler
    inserts. *)
Record fresh_keys := mk_fresh_keys {
  new_tenant_id : Z;
  new_admin_role_id : Z;
  new_manager_role_id : Z;
  new_member_role_id : Z;
  new_user_id : Z;
  new_session_id : Z }.

Inductive register_reply :=
  | RegisterInvalid (errors : list string)
  | RegisterRefused (r : reply)
  | Registered (user : Account.t) (accessToken refreshToken : string).

(** Where a statement of the handler fails, if one does: within the
    transaction, which the inner [catch] block then rolls back, or after
    [connection.commit()], at [jwt.sign] or at the [INSERT] of the session
    row, when there is nothing left to roll back. *)
Inductive register_fault := InTransaction | AfterCommit.

Section Register.
Context (env : environment) (codec : jws_codec) (now : Z).
Context (email_eq : string → string → bool).
(** [process.env.JWT_REFRESH_EXPIRES_IN] in seconds, [None] when unset. *)
Context (JWT_REFRESH_EXPIRES_IN : option Z).

(** The handler of [POST /auth/register].  The slug and the password hash go
    to columns the model does not carry.  Either [catch] block ends in the
    answer 500. *)
Definition register_run (fault : option register_fault) (keys : fresh_keys)
    (req : register_request) (d : database) : register_reply * database :=
  if negb (bool_decide (reg_validation_errors req = []))
  then (RegisterInvalid (reg_validation_errors req), d)
  else
    (* SELECT id FROM users WHERE email = ? *)
    let existing := filter (λ u, email_eq (User.email u) (reg_email req) = true) (users d) in
    if negb (bool_decide (length existing = 0%nat))
    then (RegisterRefused (json_error 400 "Email already registered"), d)
    else
      let tenantId := new_tenant_id keys in
      let adminRoleId := new_admin_role_id keys in
      let userId := new_user_id keys in
      let committed :=
        mk_database
          (tenants d ++ [Tenant.mk tenantId (organizationName req) TenantActive])
          (users d ++ [User.mk userId tenantId (reg_email req) (reg_firstName req)
                         (reg_lastName req) UserActive])
          (roles d ++ [Role.mk adminRoleId tenantId "Admin" true]
             ++ [Role.mk (new_manager_role_id keys) tenantId "Manager" true;
                 Role.mk (new_member_role_id keys) tenantId "Member" true])
          (permissions d)
          (role_permissions d
             ++ ((λ perm, RolePermission.mk adminRoleId (Permission.id perm))
                   <$> permissions d))
          (user_roles d ++ [UserRole.mk userId adminRoleId])
          (user_sessions d) in
      let accessToken :=
        jwt_sign codec userId tenantId (JWT_SECRET env)
          (default 3600 (JWT_EXPIRES_IN env)) now in
      let refreshToken :=
        jwt_sign codec userId tenantId (JWT_REFRESH_SECRET env)
          (default (7 * 86400) JWT_REFRESH_EXPIRES_IN) now in
      let expiresAt := now + 7 * 24 * 60 * 60 in
      match fault with
      | Some InTransaction =>
          (RegisterRefused (json_error 500 "Registration failed"), d)
      | Some AfterCommit =>
          (RegisterRefused (json_error 500 "Registration failed"), committed)
      | None =>
          (Registered
             (Account.mk userId (reg_email req) (reg_firstName req) (reg_lastName req)
                tenantId (organizationName req))
             accessToken refreshToken,
           with_user_sessions committed
             (user_sessions d
              ++ [Session.mk (new_session_id keys) userId refreshToken true
                    expiresAt now]))
      end.

(** The handler when the store answers every statement. *)
Definition register (keys : fresh_keys) (req : register_request) (d : database)
    : register_reply * database :=
  register_run None keys req d.

End Register.

(** [FOREIGN KEY (user_id) REFERENCES users(id)] and
    [FOREIGN KEY (role_id) REFERENCES roles(id)] of [user_roles]. *)
Definition user_roles_foreign_keys (d : database) : Prop :=
  ∀ ur, ur ∈ user_roles d →
    UserRole.user_id ur ∈ (User.id <$> users d)
    ∧ UserRole.role_id ur ∈ (Role.id <$> roles d).

(** The keys handed out are not in use. *)
Definition keys_unused (keys : fresh_keys) (d : database) : Prop :=
  (new_tenant_id keys ∉ (Tenant.id <$> tenants d))
  ∧ (new_user_id keys ∉ (User.id <$> users d))
  ∧ (new_admin_role_id keys ∉ (Role.id <$> roles d)).

Module RegisterDemo.

Definition keys : fresh_keys := mk_fresh_keys 3 30 31 32 4 5.

Definition request : register_request :=
  mk_register_request [] "erin@initech.test" "s3cret-pass" "Erin" "E" "Initech".

(** A codec that reads back the access token erin is handed at time 100. *)
Definition codec : jws_codec := mk_codec
  (λ s, if decide (s = "at.erin") then Some (mk_claims 4 3 100 3700) else None)
  (λ s k, bool_decide (s = "at.erin" ∧ k = "access-secret"))
  (λ c k, if decide (k = "refresh-secret") then "rt.erin" else "at.erin").

End RegisterDemo.

(** Whether [c] occurs in [s]. *)
Fixpoint contains (c : ascii) (s : string) : bool :=
  match s with
  | EmptyString => false
  | String c' rest => bool_decide (c' = c) || contains c rest
  end.

Module RegisterDemo2.

(** A deployment whose refresh tokens are signed for thirty days, and a codec
    that reads back the refresh token erin is handed at time 100. *)
Definition refresh_expires_in : option Z := Some (30 * 86400).

Definition codec : jws_codec := mk_codec
  (λ s, if decide (s = "rt.erin") then Some (mk_claims 4 3 100 2592100) else None)
  (λ s k, bool_decide (s = "rt.erin" ∧ k = "refresh-secret"))
  (λ c k, if decide (k = "refresh-secret") then "rt.erin" else "at.erin").

End RegisterDemo2.

(** ** The handlers on the demo deployment *)

Example split_bearer : split " "%char "Bearer abc.def.ghi" = ["Bearer"; "abc.def.ghi"].
Proof. reflexivity. Qed.

Example split_empty : split " "%char "" = [""].
Proof. reflexivity. Qed.

Example split_double_space : split " "%char "a  b" = ["a"; ""; "b"].
Proof. reflexivity. Qed.

Example bearer_missing_token :
  fst (verifyToken Demo.env Demo.codec 100 (mk_request (Some "Bearer") None)
         (mk_store Demo.db []))
  = Returned (Responded (json_error 401 "Access token required"))
  ∧ fst (verifyToken Demo.env Demo.codec 100 (mk_request (Some "Bearer ") None)
           (mk_store Demo.db []))
    = Returned (Responded (json_error 401 "Access token required"))
  ∧ fst (verifyToken Demo.env Demo.codec 100 (mk_request None None)
           (mk_store Demo.db []))
    = Returned (Responded (json_error 401 "Access token required")).
Proof. by split_and!. Qed.

Example alice_authenticates :
  verifyToken Demo.env Demo.codec 100 (Demo.with_bearer "tok.alice") (mk_store Demo.db [])
  = (Returned (Proceed (Principal.mk 1 "alice@acme.test" "Alice" "A" 1 "Acme"
                          ["tasks.view"; "billing.manage"])),
     mk_store Demo.db [SelectUserJoinTenant 1; SelectPermissionNames 1]).
Proof. reflexivity. Qed.

Example alice_gates :
  let alice := Principal.mk 1 "alice@acme.test" "Alice" "A" 1 "Acme" ["tasks.view"] in
  checkPermission "tasks.view" alice = Proceed ()
  ∧ checkPermission "tasks.delete" alice
    = Responded (mk_reply 403
        (ErrorBody "Insufficient permissions" (Some (RequiredOne "tasks.delete"))))
  ∧ checkAnyPermission ["tasks.delete"; "tasks.view"] alice = Proceed ().
Proof. by split_and!. Qed.

Example refresh_of_revoked_session :
  fst (refresh_token Demo.env Demo.codec 100 (mk_request None (Some "rt.bob"))
         (mk_store (revoke token_eq "rt.bob" 90 Demo.db) []))
  = Returned (json_error 401 "Invalid or expired refresh token").
Proof. reflexivity. Qed.

(** ** Properties of the gates *)

Lemma includes_elem_of (l : list string) (x : string) :
  includes l x = true ↔ x ∈ l.
Proof.
  induction l as [|y l IH]; simpl.
  - split; [discriminate | intros H; inversion H].
  - rewrite elem_of_cons. destruct (decide (y = x)) as [->|Hne].
    + split; auto.
    + rewrite IH. split; [auto | intros [->|?]]; [congruence | done].
Qed.

Lemma some_exists {A} (f : A → bool) (l : list A) :
  some f l = true ↔ ∃ x, x ∈ l ∧ f x = true.
Proof.
  induction l as [|y l IH]; simpl.
  - split; [discriminate | intros (x & Hx & _); inversion Hx].
  - destruct (f y) eqn:Hy.
    + split; [intros _; exists y; split; [left | done] | done].
    + rewrite IH. split.
      * intros (x & Hx & Hfx). exists x. split; [by right | done].
      * intros (x & Hx & Hfx). apply elem_of_cons in Hx as [->|Hx];
          [congruence | eauto].
Qed.

(** C6: [checkPermission name] answers 403 "Insufficient permissions", naming
    the required permission, exactly when [name] is not among the principal's
    permissions (and calls [next()] otherwise); [checkAnyPermission names]
    answers 403 exactly when none of [names] is among them. *)
Theorem permission_gates_reject_iff (user : Principal.t) (name : string) (names : list string) :
  (checkPermission name user
     = Responded (mk_reply 403
         (ErrorBody "Insufficient permissions" (Some (RequiredOne name))))
   ↔ name ∉ Principal.permissions user)
  ∧ (checkPermission name user = Proceed () ↔ name ∈ Principal.permissions user)
  ∧ (checkAnyPermission names user
       = Responded (mk_reply 403
           (ErrorBody "Insufficient permissions" (Some (RequiredMany names))))
     ↔ ∀ n, n ∈ names → n ∉ Principal.permissions user)
  ∧ (checkAnyPermission names user = Proceed ()
     ↔ ∃ n, n ∈ names ∧ n ∈ Principal.permissions user).
Proof.
  unfold checkPermission, checkAnyPermission.
  pose proof (includes_elem_of (Principal.permissions user) name) as Hinc.
  pose proof (some_exists (λ p, includes (Principal.permissions user) p) names) as Hsome.
  split; [|split; [|split]].
  - destruct (includes (Principal.permissions user) name); simpl.
    + split; [discriminate | intros Hn; destruct Hn; by apply Hinc].
    + split; [intros _ Hin; apply Hinc in Hin; discriminate | done].
  - destruct (includes (Principal.permissions user) name); simpl.
    + split; [intros _; by apply Hinc | done].
    + split; [discriminate | intros Hin; apply Hinc in Hin; discriminate].
  - destruct (some _ names); simpl.
    + split; [discriminate |].
      intros Hnone. destruct Hsome as [(n & Hn & Hin) _]; [done |].
      destruct (Hnone n Hn). by apply includes_elem_of.
    + split; [| done].
      intros _ n Hn Hin. apply includes_elem_of in Hin.
      destruct Hsome as [_ Hs]. by discriminate Hs; eauto.
  - destruct (some _ names); simpl.
    + split; [intros _ | done].
      destruct Hsome as [(n & Hn & Hin) _]; [done |].
      exists n. split; [done | by apply includes_elem_of].
    + split; [discriminate |].
      intros (n & Hn & Hin). apply includes_elem_of in Hin.
      destruct Hsome as [_ Hs]. by discriminate Hs; eauto.
Qed.

(** C10: [checkAnyPermission] over no names answers 403 "Insufficient
    permissions" to every principal, whatever it holds. *)
Theorem checkAnyPermission_nil_rejects (user : Principal.t) :
  checkAnyPermission [] user
  = Responded (mk_reply 403
      (ErrorBody "Insufficient permissions" (Some (RequiredMany [])))).
Proof. reflexivity. Qed.

(** ** The token codec *)

Lemma jwt_verify_returns codec token secret now payload :
  jwt_verify codec token secret now = Returned payload
  ↔ valid_token codec token secret now payload.
Proof.
  unfold jwt_verify, valid_token.
  destruct (decide (token = "")) as [->|Hne].
  { split; [discriminate | intros [? _]; done]. }
  destruct (jws_decode codec token) as [c|].
  2: { split; [discriminate | intros (_ & ? & _); discriminate]. }
  destruct (jws_verify codec token secret); simpl.
  2: { split; [discriminate | intros (_ & _ & ? & _); discriminate]. }
  case_bool_decide as Hexp.
  - split; [discriminate | intros (_ & [= ->] & _ & ?); lia].
  - split; [intros [= ->]; repeat split; [done | lia] |].
    by intros (_ & [= ->] & _).
Qed.

(** ** The user lookup *)

Lemma bind_nil_all {A B} (g : A → list B) (l : list A) :
  (∀ y, y ∈ l → g y = []) → l ≫= g = [].
Proof.
  induction l as [|a l IH]; intros Hg; [done |].
  rewrite bind_cons, (Hg a), IH; [done | | left].
  intros y Hy. apply Hg. by right.
Qed.

Lemma bind_unique_key {A B} (key : A → Z) (g : A → list B) (l : list A) (x : A) :
  NoDup (key <$> l) → x ∈ l →
  (∀ y, y ∈ l → key y ≠ key x → g y = []) →
  l ≫= g = g x.
Proof.
  induction l as [|a l IH]; intros Hnd Hx Hg; [inversion Hx |].
  rewrite fmap_cons in Hnd. apply NoDup_cons in Hnd as [Ha Hnd].
  rewrite bind_cons. apply elem_of_cons in Hx as [->|Hx].
  - rewrite (bind_nil_all g l), app_nil_r; [done |].
    intros y Hy. apply Hg; [by right |].
    intros Heq. apply Ha. rewrite <- Heq. by apply list_elem_of_fmap_2.
  - rewrite (Hg a), IH; [done | done | done | | left |].
    + intros y Hy. apply Hg. by right.
    + intros Heq. apply Ha. rewrite Heq. by apply list_elem_of_fmap_2.
Qed.

Lemma select_user_join_tenant_found d uid u tn :
  primary_keys d →
  u ∈ users d → User.id u = uid → User.status u = UserActive →
  tn ∈ tenants d → Tenant.id tn = User.tenant_id u →
  select_user_join_tenant uid d = [UserRow.join u tn].
Proof.
  intros [Htn Hus] Hu Hid Hst Ht Htid. unfold select_user_join_tenant.
  rewrite (bind_unique_key User.id _ (users d) u Hus Hu).
  - rewrite (bind_unique_key Tenant.id _ (tenants d) tn Htn Ht).
    + by rewrite decide_True.
    + intros y _ Hne. rewrite decide_False; [done |]. intros (? & _). congruence.
  - intros y _ Hne. apply bind_nil_all. intros t' _.
    rewrite decide_False; [done |]. intros (_ & ? & _). congruence.
Qed.

Lemma select_user_join_tenant_none d uid :
  (∀ u, u ∈ users d → User.id u = uid → User.status u ≠ UserActive) →
  select_user_join_tenant uid d = [].
Proof.
  intros Hno. unfold select_user_join_tenant.
  apply bind_nil_all. intros u Hu. apply bind_nil_all. intros t' _.
  rewrite decide_False; [done |]. intros (_ & Hid & Hst). by apply (Hno u).
Qed.

Lemma elem_of_select_user_join_tenant d uid row :
  row ∈ select_user_join_tenant uid d →
  ∃ u tn, u ∈ users d ∧ tn ∈ tenants d ∧ row = UserRow.join u tn
          ∧ User.tenant_id u = Tenant.id tn ∧ User.id u = uid.
Proof.
  unfold select_user_join_tenant. intros Hrow.
  apply list_elem_of_bind in Hrow as (u & Hrow & Hu).
  apply list_elem_of_bind in Hrow as (tn & Hrow & Htn).
  case_decide as Hc; [| inversion Hrow].
  apply list_elem_of_singleton in Hrow. destruct Hc as (? & ? & _).
  by exists u, tn.
Qed.

(** ** The permission lookup *)

Lemma elem_of_select_permission_names d uid name :
  name ∈ select_permission_names uid d ↔ reachable_permission d uid name.
Proof.
  unfold select_permission_names, reachable_permission.
  rewrite elem_of_remove_dups. split.
  - intros Hn.
    apply list_elem_of_bind in Hn as (p & Hn & Hp).
    apply list_elem_of_bind in Hn as (rp & Hn & Hrp).
    apply list_elem_of_bind in Hn as (ur & Hn & Hur).
    case_decide as Hc; [| inversion Hn].
    apply list_elem_of_singleton in Hn. destruct Hc as (? & ? & ?).
    by exists ur, rp, p.
  - intros (ur & rp & p & Hur & ? & Hrp & ? & Hp & ? & ?).
    apply list_elem_of_bind. exists p. split; [| done].
    apply list_elem_of_bind. exists rp. split; [| done].
    apply list_elem_of_bind. exists ur. split; [| done].
    rewrite decide_True; [| done]. by apply list_elem_of_singleton.
Qed.

(** ** [verifyToken], step by step *)

Section VerifyToken.
Context (env : environment) (codec : jws_codec) (now : Z).

Lemma verifyToken_verified req s token decoded :
  truthy (bearer req) = Some token →
  jwt_verify codec token (JWT_SECRET env) now = Returned decoded →
  verifyToken env codec now req s = after_verify decoded s.
Proof.
  intros Htok Hver. unfold verifyToken, after_verify, try_catch.
  rewrite Htok. unfold mbind, io_bind, throw_or_return. rewrite Hver.
  unfold db_select at 1. cbn [data log].
  destruct (select_user_join_tenant (userId decoded) (data s)) as [|user rows];
    [done |].
  by destruct (decide (UserRow.tenant_status user ≠ TenantActive)).
Qed.

Lemma verifyToken_thrown req s token e :
  truthy (bearer req) = Some token →
  jwt_verify codec token (JWT_SECRET env) now = Thrown e →
  verifyToken env codec now req s =
    (Returned (Responded
       match e with
       | JsonWebTokenError => json_error 401 "Invalid token"
       | TokenExpiredError => json_error 401 "Token expired"
       | NotBeforeError => json_error 500 "Authentication failed"
       end), s).
Proof.
  intros Htok Hver. unfold verifyToken, try_catch.
  rewrite Htok. unfold mbind, io_bind, throw_or_return. rewrite Hver.
  by destruct e.
Qed.

End VerifyToken.

(** ** Authentication *)

(** C1: a request carrying a valid, unexpired access token whose [userId] is
    that of an active user of an active tenant is admitted, and the attached
    principal's [permissions] is the duplicate-free list of exactly the
    permission names reachable through the roles assigned to that user. *)
Theorem authenticate_attaches_role_permissions
    env codec now req s token payload u tn :
  truthy (bearer req) = Some token →
  valid_token codec token (JWT_SECRET env) now payload →
  primary_keys (data s) →
  u ∈ users (data s) → User.id u = userId payload → User.status u = UserActive →
  tn ∈ tenants (data s) → Tenant.id tn = User.tenant_id u →
  Tenant.status tn = TenantActive →
  ∃ p s',
    verifyToken env codec now req s = (Returned (Proceed p), s')
    ∧ Principal.id p = User.id u ∧ Principal.tenantId p = Tenant.id tn
    ∧ NoDup (Principal.permissions p)
    ∧ ∀ name, name ∈ Principal.permissions p
              ↔ reachable_permission (data s) (User.id u) name.
Proof.
  intros Htok Hvalid Hpk Hu Hid Hust Htn Htid Htst.
  apply jwt_verify_returns in Hvalid.
  rewrite (verifyToken_verified env codec now req s token payload Htok Hvalid).
  unfold after_verify.
  rewrite (select_user_join_tenant_found _ _ u tn Hpk Hu Hid Hust Htn Htid).
  cbn [UserRow.join UserRow.tenant_status UserRow.id UserRow.tenant_id].
  rewrite decide_False by (rewrite Htst; intros Hne; by apply Hne).
  eexists _, _. split; [reflexivity |]. cbn [Principal.id Principal.tenantId
    Principal.permissions]. repeat split.
  - apply NoDup_remove_dups.
  - by apply elem_of_select_permission_names.
  - by apply elem_of_select_permission_names.
Qed.

Lemma authenticate_attaches_role_permissions_witness :
  ∃ p s',
    verifyToken Demo.env Demo.codec 100 (Demo.with_bearer "tok.alice")
      (mk_store Demo.db []) = (Returned (Proceed p), s')
    ∧ Principal.id p = 1 ∧ Principal.tenantId p = 1
    ∧ NoDup (Principal.permissions p)
    ∧ ∀ name, name ∈ Principal.permissions p
              ↔ reachable_permission Demo.db 1 name.
Proof.
  apply (authenticate_attaches_role_permissions
           Demo.env Demo.codec 100 (Demo.with_bearer "tok.alice")
           (mk_store Demo.db []) "tok.alice" (mk_claims 1 1 0 3600)
           (User.mk 1 1 "alice@acme.test" "Alice" "A" UserActive)
           (Tenant.mk 1 "Acme" TenantActive)).
  - reflexivity.
  - unfold valid_token. split_and!; [discriminate | reflexivity | reflexivity | simpl; lia].
  - split; compute_done.
  - compute_done.
  - reflexivity.
  - reflexivity.
  - compute_done.
  - reflexivity.
  - reflexivity.
Defined.

(** C2: the user check comes first.  With a valid token, if no active user
    has the decoded [userId] the answer is 401 "User not found or inactive",
    whatever the tenants are; if the user is active and the tenant is not,
    the answer is 403 "Organization is suspended".  Either way the user
    lookup is the only statement sent. *)
Theorem user_check_precedes_tenant_check env codec now req s token payload :
  truthy (bearer req) = Some token →
  valid_token codec token (JWT_SECRET env) now payload →
  ((∀ u, u ∈ users (data s) → User.id u = userId payload →
         User.status u ≠ UserActive) →
   verifyToken env codec now req s
   = (Returned (Responded (json_error 401 "User not found or inactive")),
      mk_store (data s) (log s ++ [SelectUserJoinTenant (userId payload)])))
  ∧ (∀ u tn,
       primary_keys (data s) →
       u ∈ users (data s) → User.id u = userId payload →
       User.status u = UserActive →
       tn ∈ tenants (data s) → Tenant.id tn = User.tenant_id u →
       Tenant.status tn ≠ TenantActive →
       verifyToken env codec now req s
       = (Returned (Responded (json_error 403 "Organization is suspended")),
          mk_store (data s) (log s ++ [SelectUserJoinTenant (userId payload)]))).
Proof.
  intros Htok Hvalid. apply jwt_verify_returns in Hvalid.
  rewrite (verifyToken_verified env codec now req s token payload Htok Hvalid).
  unfold after_verify. split.
  - intros Hno. by rewrite select_user_join_tenant_none.
  - intros u tn Hpk Hu Hid Hust Htn Htid Htst.
    rewrite (select_user_join_tenant_found _ _ u tn Hpk Hu Hid Hust Htn Htid).
    cbn [UserRow.join UserRow.tenant_status]. by rewrite decide_True.
Qed.

Lemma user_check_precedes_tenant_check_witness :
  verifyToken Demo.env Demo.codec 100 (Demo.with_bearer "tok.bob") (mk_store Demo.db [])
  = (Returned (Responded (json_error 401 "User not found or inactive")),
     mk_store Demo.db [SelectUserJoinTenant 2])
  ∧ verifyToken Demo.env Demo.codec 100 (Demo.with_bearer "tok.carol") (mk_store Demo.db [])
    = (Returned (Responded (json_error 403 "Organization is suspended")),
       mk_store Demo.db [SelectUserJoinTenant 3]).
Proof.
  split.
  - refine (proj1 (user_check_precedes_tenant_check
              Demo.env Demo.codec 100 (Demo.with_bearer "tok.bob")
              (mk_store Demo.db []) "tok.bob" (mk_claims 2 2 0 3600) _ _) _).
    + reflexivity.
    + unfold valid_token.
      split_and!; [discriminate | reflexivity | reflexivity | simpl; lia].
    + intros u Hu Hid. cbn in Hu.
      repeat (apply elem_of_cons in Hu as [-> | Hu]); try discriminate.
      inversion Hu.
  - refine (proj2 (user_check_precedes_tenant_check
              Demo.env Demo.codec 100 (Demo.with_bearer "tok.carol")
              (mk_store Demo.db []) "tok.carol" (mk_claims 3 2 0 3600) _ _)
              (User.mk 3 2 "carol@globex.test" "Carol" "C" UserActive)
              (Tenant.mk 2 "Globex" TenantSuspended) _ _ _ _ _ _ _).
    + reflexivity.
    + unfold valid_token.
      split_and!; [discriminate | reflexivity | reflexivity | simpl; lia].
    + split; compute_done.
    + compute_done.
    + reflexivity.
    + reflexivity.
    + compute_done.
    + reflexivity.
    + discriminate.
Defined.

(** C4: a bearer token that is not a well-formed token, or whose signature
    does not verify under the access-token secret, is answered 401 "Invalid
    token"; the store comes back as it was, its log included: no statement
    was sent. *)
Theorem invalid_token_rejected_without_lookup env codec now req s token :
  truthy (bearer req) = Some token →
  jws_decode codec token = None ∨ jws_verify codec token (JWT_SECRET env) = false →
  verifyToken env codec now req s
  = (Returned (Responded (json_error 401 "Invalid token")), s).
Proof.
  intros Htok Hbad.
  apply (verifyToken_thrown env codec now req s token JsonWebTokenError Htok).
  unfold jwt_verify. destruct (decide (token = "")); [done |].
  destruct (jws_decode codec token); [| done].
  destruct Hbad as [? | ->]; done.
Qed.

Lemma invalid_token_rejected_without_lookup_witness :
  verifyToken Demo.env Demo.codec 100 (Demo.with_bearer "not-a-token") (mk_store Demo.db [])
  = (Returned (Responded (json_error 401 "Invalid token")), mk_store Demo.db [])
  ∧ verifyToken Demo.env Demo.codec 100 (Demo.with_bearer "rt.bob") (mk_store Demo.db [])
    = (Returned (Responded (json_error 401 "Invalid token")), mk_store Demo.db []).
Proof.
  split.
  - apply (invalid_token_rejected_without_lookup
             Demo.env Demo.codec 100 (Demo.with_bearer "not-a-token")
             (mk_store Demo.db []) "not-a-token"); [reflexivity |].
    left. reflexivity.
  - apply (invalid_token_rejected_without_lookup
             Demo.env Demo.codec 100 (Demo.with_bearer "rt.bob")
             (mk_store Demo.db []) "rt.bob"); [reflexivity |].
    right. reflexivity.
Defined.

(** C3 as the specification words it does not hold: a token past its expiry
    whose signature does not verify is answered "Invalid token", since
    [jwt.verify] checks the signature before it reads [exp]. *)
Lemma expired_forged_token_reported_invalid :
  jws_decode Demo.codec "tok.forged" = Some (mk_claims 1 1 0 50)
  ∧ exp (mk_claims 1 1 0 50) < 100
  ∧ jws_verify Demo.codec "tok.forged" (JWT_SECRET Demo.env) = false
  ∧ fst (verifyToken Demo.env Demo.codec 100 (Demo.with_bearer "tok.forged")
           (mk_store Demo.db []))
    = Returned (Responded (json_error 401 "Invalid token"))
  ∧ fst (verifyToken Demo.env Demo.codec 100 (Demo.with_bearer "tok.forged")
           (mk_store Demo.db []))
    ≠ Returned (Responded (json_error 401 "Token expired")).
Proof. split_and!; [reflexivity | reflexivity | reflexivity | reflexivity | discriminate]. Qed.

(** C3, amended: a well-formed token past its expiry is answered 401 "Token
    expired" when its signature verifies under the access-token secret, and
    401 "Invalid token" when it does not; no statement is sent. *)
Theorem expired_token_rejected env codec now req s token payload :
  truthy (bearer req) = Some token →
  jws_decode codec token = Some payload →
  exp payload ≤ now →
  verifyToken env codec now req s
  = (Returned (Responded (json_error 401
       (if jws_verify codec token (JWT_SECRET env)
        then "Token expired" else "Invalid token"))), s).
Proof.
  intros Htok Hdec Hexp.
  assert (token ≠ "") as Hne.
  { intros ->. unfold truthy in Htok. destruct (bearer req) as [b|]; [| done].
    by destruct (decide (b = "")) as [->|?]; [| injection Htok as ->]. }
  destruct (jws_verify codec token (JWT_SECRET env)) eqn:Hsig.
  - apply (verifyToken_thrown env codec now req s token TokenExpiredError Htok).
    unfold jwt_verify. rewrite decide_False, Hdec, Hsig by done. simpl.
    by rewrite bool_decide_eq_true_2.
  - apply (verifyToken_thrown env codec now req s token JsonWebTokenError Htok).
    unfold jwt_verify. by rewrite decide_False, Hdec, Hsig.
Qed.

Lemma expired_token_rejected_witness :
  verifyToken Demo.env Demo.codec 4000 (Demo.with_bearer "tok.alice") (mk_store Demo.db [])
  = (Returned (Responded (json_error 401 "Token expired")), mk_store Demo.db []).
Proof.
  apply (expired_token_rejected Demo.env Demo.codec 4000
           (Demo.with_bearer "tok.alice") (mk_store Demo.db [])
           "tok.alice" (mk_claims 1 1 0 3600)).
  - reflexivity.
  - reflexivity.
  - simpl. lia.
Defined.

(** ** What [verifyToken] reads *)

Lemma select_user_join_tenant_ext uid d1 d2 :
  users d1 = users d2 → tenants d1 = tenants d2 →
  select_user_join_tenant uid d1 = select_user_join_tenant uid d2.
Proof. unfold select_user_join_tenant. by intros -> ->. Qed.

Lemma select_permission_names_ext uid d1 d2 :
  permissions d1 = permissions d2 → role_permissions d1 = role_permissions d2 →
  user_roles d1 = user_roles d2 →
  select_permission_names uid d1 = select_permission_names uid d2.
Proof. unfold select_permission_names. by intros -> -> ->. Qed.

Lemma after_verify_ext decoded s1 s2 :
  same_but_sessions (data s1) (data s2) →
  fst (after_verify decoded s1) = fst (after_verify decoded s2)
  ∧ (log s1 = log s2 →
     log (snd (after_verify decoded s1)) = log (snd (after_verify decoded s2))).
Proof.
  intros (Ht & Hu & _ & Hp & Hrp & Hur). unfold after_verify.
  rewrite (select_user_join_tenant_ext _ _ _ Hu Ht).
  destruct (select_user_join_tenant (userId decoded) (data s2)) as [|user rows].
  { split; [done | by intros ->]. }
  destruct (decide (UserRow.tenant_status user ≠ TenantActive)).
  { split; [done | by intros ->]. }
  rewrite (select_permission_names_ext _ _ _ Hp Hrp Hur).
  split; [done | by intros ->].
Qed.

Section Reads.
Context (env : environment) (codec : jws_codec) (now : Z).

Lemma verifyToken_ext req s1 s2 :
  same_but_sessions (data s1) (data s2) →
  fst (verifyToken env codec now req s1) = fst (verifyToken env codec now req s2)
  ∧ (log s1 = log s2 →
     log (snd (verifyToken env codec now req s1))
     = log (snd (verifyToken env codec now req s2))).
Proof.
  intros Hsame. destruct (truthy (bearer req)) as [token|] eqn:Htok.
  2: { unfold verifyToken, try_catch. by rewrite Htok. }
  destruct (jwt_verify codec token (JWT_SECRET env) now) as [decoded|e] eqn:Hver.
  - rewrite !(verifyToken_verified env codec now req _ token decoded Htok Hver).
    by apply after_verify_ext.
  - by rewrite !(verifyToken_thrown env codec now req _ token e Htok Hver).
Qed.

Lemma verifyToken_data req s :
  data (snd (verifyToken env codec now req s)) = data s.
Proof.
  destruct (truthy (bearer req)) as [token|] eqn:Htok.
  2: { unfold verifyToken, try_catch. by rewrite Htok. }
  destruct (jwt_verify codec token (JWT_SECRET env) now) as [decoded|e] eqn:Hver.
  - rewrite (verifyToken_verified env codec now req _ token decoded Htok Hver).
    unfold after_verify.
    destruct (select_user_join_tenant _ _); [done |]. by case_decide.
  - by rewrite (verifyToken_thrown env codec now req _ token e Htok Hver).
Qed.

Lemma verifyToken_proceed_inv req s p :
  fst (verifyToken env codec now req s) = Returned (Proceed p) →
  ∃ u tn, u ∈ users (data s) ∧ tn ∈ tenants (data s)
          ∧ User.tenant_id u = Tenant.id tn
          ∧ Principal.id p = User.id u ∧ Principal.tenantId p = Tenant.id tn
          ∧ Principal.permissions p = select_permission_names (User.id u) (data s).
Proof.
  destruct (truthy (bearer req)) as [token|] eqn:Htok.
  2: { unfold verifyToken, try_catch. by rewrite Htok. }
  destruct (jwt_verify codec token (JWT_SECRET env) now) as [decoded|e] eqn:Hver.
  2: { rewrite (verifyToken_thrown env codec now req _ token e Htok Hver).
       by destruct e. }
  rewrite (verifyToken_verified env codec now req _ token decoded Htok Hver).
  unfold after_verify.
  destruct (select_user_join_tenant _ _) as [|user rows] eqn:Hrows; [done |].
  case_decide; [done |]. intros [= <-].
  destruct (elem_of_select_user_join_tenant (data s) (userId decoded) user)
    as (u & tn & Hu & Htn & -> & Hjoin & _).
  { rewrite Hrows. left. }
  by exists u, tn.
Qed.

End Reads.

Lemma same_but_sessions_with d l : same_but_sessions d (with_user_sessions d l).
Proof. by repeat split. Qed.

(** C5 as the specification words it does not hold in every state of the
    store: alice, of tenant 1, is assigned role 20 of tenant 2, and her
    principal carries "billing.manage", which only that role grants. *)
Lemma foreign_role_reaches_principal :
  fst (verifyToken Demo.env Demo.codec 100 (Demo.with_bearer "tok.alice")
         (mk_store Demo.db []))
  = Returned (Proceed (Principal.mk 1 "alice@acme.test" "Alice" "A" 1 "Acme"
                         ["tasks.view"; "billing.manage"]))
  ∧ ¬ reachable_within_tenant Demo.db 1 1 "billing.manage".
Proof.
  split; [reflexivity |].
  intros (ur & rp & p & r & Hur & _ & Hrp & Hrole & Hp & Hperm & Hname
          & Hr & Hrid & Htid).
  cbn in Hur, Hrp, Hp, Hr.
  repeat (apply elem_of_cons in Hr as [-> | Hr]); [| | inversion Hr];
    [| discriminate].
  repeat (apply elem_of_cons in Hp as [-> | Hp]); [| | inversion Hp];
    [discriminate |].
  repeat (apply elem_of_cons in Hrp as [-> | Hrp]); [| | | inversion Hrp];
    try discriminate.
  repeat (apply elem_of_cons in Hur as [-> | Hur]); [| | inversion Hur];
    discriminate.
Qed.

(** C5, amended: in every state of the store in which each assignment gives
    a user a role of the user's own tenant, every permission of an admitted
    principal is reachable through an assigned role of the principal's
    tenant. *)
Theorem principal_permissions_within_tenant env codec now req s p :
  assignments_within_tenant (data s) →
  fst (verifyToken env codec now req s) = Returned (Proceed p) →
  ∀ name, name ∈ Principal.permissions p →
    reachable_within_tenant (data s) (Principal.id p) (Principal.tenantId p) name.
Proof.
  intros Hscoped Hadm name Hname.
  apply verifyToken_proceed_inv in Hadm
    as (u & tn & Hu & Htn & Hjoin & Hid & Htid & Hperms).
  rewrite Hperms in Hname. apply elem_of_select_permission_names in Hname
    as (ur & rp & pm & Hur & Huid & Hrp & Hrole & Hpm & Hpid & Hpname).
  destruct (Hscoped ur u Hur Hu) as (r & Hr & Hrid & Hrt); [done |].
  exists ur, rp, pm, r. rewrite Hid, Htid. split_and!; try done. congruence.
Qed.

Lemma principal_permissions_within_tenant_witness :
  reachable_within_tenant Demo.db_scoped 1 1 "tasks.view".
Proof.
  apply (principal_permissions_within_tenant
           Demo.env Demo.codec 100 (Demo.with_bearer "tok.alice")
           (mk_store Demo.db_scoped [])
           (Principal.mk 1 "alice@acme.test" "Alice" "A" 1 "Acme" ["tasks.view"])).
  - intros ur u Hur Hu Hid. cbn in Hur, Hu.
    apply list_elem_of_singleton in Hur as ->.
    exists (Role.mk 10 1 "Member" true).
    repeat (apply elem_of_cons in Hu as [-> | Hu]); try discriminate;
      [| inversion Hu].
    split_and!; [left | reflexivity | reflexivity].
  - reflexivity.
  - compute_done.
Defined.

(** ** The session registry *)

Lemma deactivate_refresh_token now x :
  Session.refresh_token (deactivate now x) = Session.refresh_token x.
Proof. unfold deactivate. by destruct (Session.is_active x). Qed.

Lemma deactivate_is_active now x : Session.is_active (deactivate now x) = false.
Proof. unfold deactivate. by destruct (Session.is_active x) eqn:E. Qed.

Lemma deactivate_twice now now' x : deactivate now' (deactivate now x) = deactivate now x.
Proof.
  unfold deactivate at 1. by rewrite deactivate_is_active.
Qed.

Lemma deactivate_where_matching matches now d y :
  y ∈ user_sessions (deactivate_where matches now d) →
  matches y = true → Session.is_active y = false.
Proof.
  unfold deactivate_where. cbn [user_sessions with_user_sessions].
  intros (x & -> & _)%list_elem_of_fmap. destruct (matches x) eqn:Hx.
  - intros _. apply deactivate_is_active.
  - congruence.
Qed.

Lemma deactivate_where_twice matches now now' d :
  deactivate_where matches now' (deactivate_where matches now d)
  = deactivate_where matches now d.
Proof.
  unfold deactivate_where.
  cbn [user_sessions with_user_sessions tenants users roles
    permissions role_permissions user_roles].
  f_equal. rewrite <- list_fmap_compose. apply list_fmap_ext.
  intros i x _. simpl. destruct (matches x) eqn:Hx.
  - destruct (matches (deactivate now x)); [apply deactivate_twice | done].
  - by rewrite Hx.
Qed.

Lemma deactivate_where_absent matches now d :
  (∀ x, x ∈ user_sessions d → matches x = false) →
  deactivate_where matches now d = d.
Proof.
  intros Habs. unfold deactivate_where, with_user_sessions.
  destruct d as [t u r p rp ur ss].
  cbn [user_sessions tenants users roles permissions role_permissions user_roles] in *.
  f_equal. induction ss as [|x l IH]; [done |].
  rewrite fmap_cons, IH.
  - rewrite Habs; [done | left].
  - intros y Hy. apply Habs. by right.
Qed.

Lemma select_active_session_revoke token_eq token given now now' d :
  token_eq token given = true →
  select_active_session token now' (revoke token_eq given now d) = [].
Proof.
  intros Heq. unfold select_active_session.
  destruct (filter _ _) as [|y l] eqn:E; [done |]. exfalso.
  assert (y ∈ y :: l) as Hy by left. rewrite <- E in Hy.
  apply list_elem_of_filter in Hy as [(Htok & Hact & _) Hy].
  rewrite (deactivate_where_matching _ now d y Hy) in Hact; [done |].
  by rewrite Htok.
Qed.

Lemma revoke_twice token_eq token now now' d :
  revoke token_eq token now' (revoke token_eq token now d) = revoke token_eq token now d.
Proof. apply deactivate_where_twice. Qed.

Lemma revoke_absent token_eq token now d :
  (∀ x, x ∈ user_sessions d → token_eq (Session.refresh_token x) token = false) →
  revoke token_eq token now d = d.
Proof. apply deactivate_where_absent. Qed.

Section Logout.
Context `{SqlDriver} (env : environment) (codec : jws_codec) (now : Z).

Lemma logout_authenticated req s p token :
  fst (verifyToken env codec now req s) = Returned (Proceed p) →
  token ≠ "" →
  fst (logout env codec now req (Some (BodyString token)) s)
  = Returned (mk_reply 200 (MessageBody "Logged out successfully"))
  ∧ data (snd (logout env codec now req (Some (BodyString token)) s))
    = revoke token_eq token now (data s).
Proof.
  intros Hadm Hbody. pose proof (verifyToken_data env codec now req s) as Hdata.
  unfold logout, mbind, io_bind.
  destruct (verifyToken env codec now req s) as [o s1]. simpl in Hadm, Hdata.
  subst o. cbn [truthy_value where_refresh_token update_sessions_statement].
  rewrite bool_decide_eq_false_2 by done. cbn. by rewrite Hdata.
Qed.

End Logout.

(** C7: an authenticated logout that names the refresh token [token], a
    string that is not empty, answers 200 and leaves the store with the
    session revoked, the comparison being that of the column's collation.
    From then on every session row whose token the collation equates with
    [token] is inactive, and [isSessionValid] is false of [token] and of
    every string that the collation equates with it, at every later time.
    Logging out again
    answers 200 again and changes nothing, as does a further [revoke] at any
    later time; and when the collation equates the token of no session with
    [token], the store is left as it was. *)
Theorem revoke_invalidates_and_is_idempotent `{SqlDriver} env codec now req s p token :
  fst (verifyToken env codec now req s) = Returned (Proceed p) →
  token ≠ "" →
  let ok := Returned (mk_reply 200 (MessageBody "Logged out successfully")) in
  let body := Some (BodyString token) in
  let s1 := snd (logout env codec now req body s) in
  let s2 := snd (logout env codec now req body s1) in
  fst (logout env codec now req body s) = ok
  ∧ data s1 = revoke token_eq token now (data s)
  ∧ (∀ x, x ∈ user_sessions (data s1) →
          token_eq (Session.refresh_token x) token = true →
          Session.is_active x = false)
  ∧ (∀ now', isSessionValid token now' (data s1) = false)
  ∧ (∀ token' now', token_eq token' token = true →
                    isSessionValid token' now' (data s1) = false)
  ∧ fst (logout env codec now req body s1) = ok
  ∧ data s2 = data s1
  ∧ (∀ now', revoke token_eq token now' (data s1) = data s1)
  ∧ ((∀ x, x ∈ user_sessions (data s) →
           token_eq (Session.refresh_token x) token = false) →
     data s1 = data s).
Proof.
  intros Hadm Hbody ok body s1 s2.
  destruct (logout_authenticated env codec now req s p token Hadm Hbody) as [Hok Hd1].
  assert (fst (verifyToken env codec now req s1) = Returned (Proceed p)) as Hadm1.
  { rewrite <- Hadm. apply verifyToken_ext. subst s1 body. rewrite Hd1.
    by repeat split. }
  destruct (logout_authenticated env codec now req s1 p token Hadm1 Hbody) as [Hok1 Hd2].
  subst s2 body. fold s1 in Hd1. split_and!; try done.
  - intros x Hx. rewrite Hd1 in Hx.
    apply (deactivate_where_matching _ now (data s) x Hx).
  - intros now'. unfold isSessionValid. rewrite Hd1.
    by rewrite select_active_session_revoke by apply token_eq_refl.
  - intros token' now' Hsame. unfold isSessionValid. rewrite Hd1.
    by rewrite select_active_session_revoke.
  - rewrite Hd2, Hd1. apply revoke_twice.
  - intros now'. rewrite Hd1. apply revoke_twice.
  - intros Habs. rewrite Hd1. by apply revoke_absent.
Qed.

Lemma revoke_invalidates_and_is_idempotent_witness :
  fst (logout Demo.env Demo.codec 100 Demo.logout_request Demo.logout_body
         (mk_store Demo.db []))
  = Returned (mk_reply 200 (MessageBody "Logged out successfully"))
  ∧ ∀ now', isSessionValid "rt.alice" now'
              (data (snd (logout Demo.env Demo.codec 100 Demo.logout_request
                            Demo.logout_body (mk_store Demo.db [])))) = false.
Proof.
  pose proof (revoke_invalidates_and_is_idempotent
                Demo.env Demo.codec 100 Demo.logout_request (mk_store Demo.db [])
                (Principal.mk 1 "alice@acme.test" "Alice" "A" 1 "Acme"
                   ["tasks.view"; "billing.manage"])
                "RT.ALICE" eq_refl ltac:(discriminate)) as H.
  split; [exact (proj1 H) |].
  intros now'. exact (proj1 (proj2 (proj2 (proj2 (proj2 H)))) "rt.alice" now' eq_refl).
Defined.

(** C8: [verifyToken] does not read [user_sessions].  On two stores that
    differ at most in that table it gives the same answer and sends the same
    statements; [revoke] and [revokeAll] change that table only; so a request
    admitted before all sessions of a user are revoked is admitted, with the
    same principal, after. *)
Theorem authenticate_ignores_sessions env codec now req l :
  (∀ d1 d2, same_but_sessions d1 d2 →
     fst (verifyToken env codec now req (mk_store d1 l))
     = fst (verifyToken env codec now req (mk_store d2 l))
     ∧ log (snd (verifyToken env codec now req (mk_store d1 l)))
       = log (snd (verifyToken env codec now req (mk_store d2 l))))
  ∧ (∀ (token_eq : string → string → bool) d uid token n,
       same_but_sessions d (revokeAll uid n d)
       ∧ same_but_sessions d (revoke token_eq token n d))
  ∧ (∀ d uid n p,
       fst (verifyToken env codec now req (mk_store d l)) = Returned (Proceed p) →
       fst (verifyToken env codec now req (mk_store (revokeAll uid n d) l))
       = Returned (Proceed p)).
Proof.
  split_and!.
  - intros d1 d2 Hsame.
    destruct (verifyToken_ext env codec now req (mk_store d1 l) (mk_store d2 l) Hsame)
      as [Hfst Hlog].
    split; [done | by apply Hlog].
  - intros token_eq d uid token n. by repeat split.
  - intros d uid n p <-. symmetry.
    apply (verifyToken_ext env codec now req (mk_store d l)
             (mk_store (revokeAll uid n d) l)).
    apply same_but_sessions_with.
Qed.

Lemma authenticate_ignores_sessions_witness :
  fst (verifyToken Demo.env Demo.codec 100 (Demo.with_bearer "tok.alice")
         (mk_store (revokeAll 1 100 Demo.db) []))
  = Returned (Proceed (Principal.mk 1 "alice@acme.test" "Alice" "A" 1 "Acme"
                         ["tasks.view"; "billing.manage"])).
Proof.
  apply (proj2 (proj2 (authenticate_ignores_sessions
                         Demo.env Demo.codec 100 (Demo.with_bearer "tok.alice") []))
           Demo.db 1 100).
  reflexivity.
Defined.

(** C9: the refresh route asks for nothing but the session.  For a refresh
    token that verifies under the refresh secret and is unexpired, with an
    active, unexpired session row, it answers 200 with an access token signed
    for the decoded [userId] and [tenantId]; the session lookup is the only
    statement it sends, and the answer is the same on any store with the same
    [user_sessions], whatever the status of the user and of the tenant. *)
Theorem refresh_skips_user_and_tenant_status env codec now req s token payload :
  body_refreshToken req = Some token →
  valid_token codec token (JWT_REFRESH_SECRET env) now payload →
  (∃ x, x ∈ user_sessions (data s) ∧ Session.refresh_token x = token
        ∧ Session.is_active x = true ∧ now < Session.expires_at x) →
  let issued := Returned (mk_reply 200 (AccessTokenBody
                  (jwt_sign codec (userId payload) (tenantId payload) (JWT_SECRET env)
                     (default 3600 (JWT_EXPIRES_IN env)) now))) in
  refresh_token env codec now req s
  = (issued, mk_store (data s) (log s ++ [SelectActiveSession token]))
  ∧ ∀ d, user_sessions d = user_sessions (data s) →
      fst (refresh_token env codec now req (mk_store d (log s))) = issued.
Proof.
  intros Hbody Hvalid (x & Hx & Hxtok & Hxact & Hxexp) issued.
  pose proof Hvalid as (Hne & _). apply jwt_verify_returns in Hvalid.
  assert (∀ d, user_sessions d = user_sessions (data s) →
            bool_decide (length (select_active_session token now d) = 0%nat) = false)
    as Hrows.
  { intros d Hd. apply bool_decide_eq_false_2.
    assert (x ∈ select_active_session token now d) as Hin.
    { unfold select_active_session. rewrite Hd. by apply list_elem_of_filter. }
    destruct (select_active_session token now d); [inversion Hin | done]. }
  assert (∀ s', user_sessions (data s') = user_sessions (data s) →
            refresh_token env codec now req s'
            = (issued, mk_store (data s') (log s' ++ [SelectActiveSession token])))
    as Hrun.
  { intros s' Hs'. unfold refresh_token, try_catch. rewrite Hbody.
    unfold truthy. rewrite decide_False by done.
    unfold mbind, io_bind, throw_or_return. rewrite Hvalid.
    unfold db_select. cbn [data log]. by rewrite (Hrows (data s') Hs'). }
  split; [by apply Hrun |].
  intros d Hd. by rewrite (Hrun (mk_store d (log s)) Hd).
Qed.

Lemma refresh_skips_user_and_tenant_status_witness :
  User.mk 2 2 "bob@globex.test" "Bob" "B" UserInactive ∈ users Demo.db
  ∧ Tenant.mk 2 "Globex" TenantSuspended ∈ tenants Demo.db
  ∧ refresh_token Demo.env Demo.codec 100 (mk_request None (Some "rt.bob"))
      (mk_store Demo.db [])
    = (Returned (mk_reply 200 (AccessTokenBody
         (jws_sign Demo.codec (mk_claims 2 2 100 3700) "access-secret"))),
       mk_store Demo.db [SelectActiveSession "rt.bob"]).
Proof.
  split; [compute_done |]. split; [compute_done |].
  refine (proj1 (refresh_skips_user_and_tenant_status
            Demo.env Demo.codec 100 (mk_request None (Some "rt.bob"))
            (mk_store Demo.db []) "rt.bob" (mk_claims 2 2 0 604800) _ _ _)).
  - reflexivity.
  - unfold valid_token.
    split_and!; [discriminate | reflexivity | reflexivity | simpl; lia].
  - exists (Session.mk 1 2 "rt.bob" true 604800 0).
    split_and!; [compute_done | reflexivity | reflexivity | simpl; lia].
Defined.

(** * Further properties *)

(** ** [verifyToken]: what an admitted request implies *)

Lemma elem_of_select_user_join_tenant_active d uid row :
  row ∈ select_user_join_tenant uid d →
  ∃ u tn, u ∈ users d ∧ tn ∈ tenants d ∧ row = UserRow.join u tn
          ∧ User.tenant_id u = Tenant.id tn ∧ User.id u = uid
          ∧ User.status u = UserActive.
Proof.
  unfold select_user_join_tenant. intros Hrow.
  apply list_elem_of_bind in Hrow as (u & Hrow & Hu).
  apply list_elem_of_bind in Hrow as (tn & Hrow & Htn).
  case_decide as Hc; [| inversion Hrow].
  apply list_elem_of_singleton in Hrow. destruct Hc as (? & ? & ?).
  by exists u, tn.
Qed.

(** X1: [verifyToken] calls [next()] only for a request that carries a
    well-formed token, signed with the access secret and unexpired, whose
    [userId] is that of an active user of an active tenant; the principal's
    identity and tenant are those rows' columns, not the token's claims. *)
Theorem verifyToken_admits_only_valid env codec now req s p :
  fst (verifyToken env codec now req s) = Returned (Proceed p) →
  ∃ token payload u tn,
    truthy (bearer req) = Some token
    ∧ valid_token codec token (JWT_SECRET env) now payload
    ∧ u ∈ users (data s) ∧ User.id u = userId payload
    ∧ User.status u = UserActive
    ∧ tn ∈ tenants (data s) ∧ Tenant.id tn = User.tenant_id u
    ∧ Tenant.status tn = TenantActive
    ∧ p = Principal.mk (User.id u) (User.email u) (User.first_name u)
            (User.last_name u) (Tenant.id tn) (Tenant.name tn)
            (select_permission_names (User.id u) (data s)).
Proof.
  destruct (truthy (bearer req)) as [token|] eqn:Htok.
  2: { unfold verifyToken, try_catch. by rewrite Htok. }
  destruct (jwt_verify codec token (JWT_SECRET env) now) as [decoded|e] eqn:Hver.
  2: { rewrite (verifyToken_thrown env codec now req _ token e Htok Hver).
       by destruct e. }
  rewrite (verifyToken_verified env codec now req _ token decoded Htok Hver).
  unfold after_verify.
  destruct (select_user_join_tenant _ _) as [|user rows] eqn:Hrows; [done |].
  case_decide as Hst; [done |]. intros [= <-].
  destruct (elem_of_select_user_join_tenant_active (data s) (userId decoded) user)
    as (u & tn & Hu & Htn & -> & Hjoin & Hid & Hact).
  { rewrite Hrows. left. }
  exists token, decoded, u, tn. cbn in Hst |- *.
  split_and!; try done. by apply jwt_verify_returns.
Qed.

Lemma verifyToken_admits_only_valid_witness :
  ∃ token payload u tn,
    truthy (bearer (Demo.with_bearer "tok.alice")) = Some token
    ∧ valid_token Demo.codec token (JWT_SECRET Demo.env) 100 payload
    ∧ u ∈ users Demo.db ∧ User.id u = userId payload
    ∧ User.status u = UserActive
    ∧ tn ∈ tenants Demo.db ∧ Tenant.id tn = User.tenant_id u
    ∧ Tenant.status tn = TenantActive
    ∧ Principal.mk 1 "alice@acme.test" "Alice" "A" 1 "Acme"
        ["tasks.view"; "billing.manage"]
      = Principal.mk (User.id u) (User.email u) (User.first_name u)
          (User.last_name u) (Tenant.id tn) (Tenant.name tn)
          (select_permission_names (User.id u) Demo.db).
Proof.
  apply (verifyToken_admits_only_valid Demo.env Demo.codec 100
           (Demo.with_bearer "tok.alice") (mk_store Demo.db [])).
  reflexivity.
Defined.

(** X2: [verifyToken] lets no exception escape, never writes, and sends at
    most two statements, both lookups for the [userId] of the token: nothing,
    the user lookup, or the user lookup followed by the permission lookup. *)
Theorem verifyToken_reads_at_most_twice env codec now req s :
  ∃ answer sent,
    verifyToken env codec now req s
    = (Returned answer, mk_store (data s) (log s ++ sent))
    ∧ (sent = []
       ∨ ∃ uid, sent = [SelectUserJoinTenant uid]
                ∨ sent = [SelectUserJoinTenant uid; SelectPermissionNames uid]).
Proof.
  destruct s as [d l].
  destruct (truthy (bearer req)) as [token|] eqn:Htok.
  2: { unfold verifyToken, try_catch. rewrite Htok. cbn.
       eexists _, []. rewrite app_nil_r. split; [done | by left]. }
  destruct (jwt_verify codec token (JWT_SECRET env) now) as [decoded|e] eqn:Hver.
  2: { rewrite (verifyToken_thrown env codec now req _ token e Htok Hver).
       eexists _, []. cbn. rewrite app_nil_r. split; [done | by left]. }
  rewrite (verifyToken_verified env codec now req _ token decoded Htok Hver).
  unfold after_verify. cbn [data log].
  destruct (select_user_join_tenant _ _) as [|user rows] eqn:Hrows.
  { eexists _, _. split; [done |]. right. exists (userId decoded). by left. }
  case_decide.
  { eexists _, _. split; [done |]. right. exists (userId decoded). by left. }
  destruct (elem_of_select_user_join_tenant d (userId decoded) user)
    as (u & tn & _ & _ & -> & _ & Hid).
  { rewrite Hrows. left. }
  eexists _, _. rewrite <- app_assoc. split; [done |].
  right. exists (userId decoded). right. cbn. by rewrite Hid.
Qed.

(** ** The refresh route *)

Lemma isSessionValid_true token now d :
  isSessionValid token now d = true
  ↔ ∃ x, x ∈ user_sessions d ∧ Session.refresh_token x = token
         ∧ Session.is_active x = true ∧ now < Session.expires_at x.
Proof.
  unfold isSessionValid, select_active_session. split.
  - intros Hv. destruct (filter _ (user_sessions d)) as [|x l] eqn:Hf; [done |].
    assert (x ∈ filter (λ s, Session.refresh_token s = token
                             ∧ Session.is_active s = true
                             ∧ now < Session.expires_at s) (user_sessions d)) as Hx.
    { rewrite Hf. left. }
    apply list_elem_of_filter in Hx as [(? & ? & ?) ?]. by exists x.
  - intros (x & Hx & ? & ? & ?).
    assert (x ∈ filter (λ s, Session.refresh_token s = token
                             ∧ Session.is_active s = true
                             ∧ now < Session.expires_at s) (user_sessions d)) as Hin.
    { by apply list_elem_of_filter. }
    by destruct (filter _ (user_sessions d)); [inversion Hin |].
Qed.

Lemma not_valid_token_thrown codec token secret now :
  (∀ payload, ¬ valid_token codec token secret now payload) →
  jwt_verify codec token secret now = Thrown JsonWebTokenError
  ∨ jwt_verify codec token secret now = Thrown TokenExpiredError.
Proof.
  intros Hno. destruct (jwt_verify codec token secret now) as [c|e] eqn:Hver.
  - apply jwt_verify_returns in Hver. by destruct (Hno c).
  - unfold jwt_verify in Hver. repeat case_match; naive_solver.
Qed.

(** X3: the refresh route answers 200 exactly when the body names a refresh
    token that verifies under the refresh secret, is unexpired, and has an
    active, unexpired session row; whatever it answers, it writes nothing
    (not even [last_used]) and lets no exception escape. *)
Theorem refresh_token_issues_iff env codec now req s :
  ((∃ b, fst (refresh_token env codec now req s) = Returned (mk_reply 200 b))
   ↔ ∃ token payload,
       body_refreshToken req = Some token
       ∧ valid_token codec token (JWT_REFRESH_SECRET env) now payload
       ∧ isSessionValid token now (data s) = true)
  ∧ data (snd (refresh_token env codec now req s)) = data s
  ∧ ∃ r, fst (refresh_token env codec now req s) = Returned r.
Proof.
  unfold refresh_token, try_catch.
  destruct (body_refreshToken req) as [token|] eqn:Hbody; cbn [truthy].
  2: { split_and!; [| done | by eexists]. split; [by intros [b [=]] | by intros (? & ? & [=] & _)]. }
  destruct (decide (token = "")) as [->|Hne].
  { split_and!; [| done | by eexists].
    split; [by intros [b [=]] |]. by intros (? & ? & [= <-] & (? & _) & _). }
  unfold mbind, io_bind, throw_or_return.
  destruct (jwt_verify codec token (JWT_REFRESH_SECRET env) now) as [decoded|e] eqn:Hver.
  - unfold db_select. cbn [data log fst snd]. unfold isSessionValid.
    case_bool_decide as Hlen; cbn.
    + split_and!; [| done | by eexists]. split; [by intros [b [=]] |].
      intros (? & ? & [= <-] & _ & Hv). by rewrite bool_decide_eq_true_2 in Hv.
    + split_and!; [| done | by eexists]. split; [| by eexists].
      intros _. exists token, decoded. split_and!; [done | | ].
      * by apply jwt_verify_returns.
      * by rewrite bool_decide_eq_false_2.
  - split_and!; [| by destruct e | destruct e; by eexists].
    split.
    + destruct e; by intros [b [=]].
    + intros (? & payload & [= <-] & Hvalid & _).
      apply jwt_verify_returns in Hvalid. congruence.
Qed.

(** X4: a string that does not verify as an unexpired token under the
    refresh secret (an access token, say, signed with the other secret) is
    answered 401 "Invalid refresh token" before any statement is sent, even
    when a session row carries that very string. *)
Theorem refresh_rejects_unverified_without_lookup env codec now req s token :
  truthy (body_refreshToken req) = Some token →
  (∀ payload, ¬ valid_token codec token (JWT_REFRESH_SECRET env) now payload) →
  refresh_token env codec now req s
  = (Returned (json_error 401 "Invalid refresh token"), s).
Proof.
  intros Hbody Hno. unfold refresh_token, try_catch. rewrite Hbody.
  unfold mbind, io_bind, throw_or_return.
  by destruct (not_valid_token_thrown codec token (JWT_REFRESH_SECRET env) now Hno)
    as [-> | ->].
Qed.

Lemma refresh_rejects_unverified_without_lookup_witness :
  refresh_token Demo.env Demo.codec 100 (mk_request None (Some "tok.alice"))
    (mk_store (with_user_sessions Demo.db
                 [Session.mk 9 1 "tok.alice" true 604800 0]) [])
  = (Returned (json_error 401 "Invalid refresh token"),
     mk_store (with_user_sessions Demo.db
                 [Session.mk 9 1 "tok.alice" true 604800 0]) []).
Proof.
  apply (refresh_rejects_unverified_without_lookup Demo.env Demo.codec 100
           (mk_request None (Some "tok.alice")) _ "tok.alice").
  - reflexivity.
  - intros payload (_ & _ & Hsig & _). vm_compute in Hsig. discriminate.
Defined.

(** ** Revoking every session of a user *)

Lemma revokeAll_sessions uid now d :
  user_sessions (revokeAll uid now d)
  = (λ s, if decide (Session.user_id s = uid) then deactivate now s else s)
      <$> user_sessions d.
Proof. done. Qed.

Lemma deactivate_user_id now x : Session.user_id (deactivate now x) = Session.user_id x.
Proof. unfold deactivate. by destruct (Session.is_active x). Qed.


Lemma elem_of_revokeAll uid now d y :
  y ∈ user_sessions (revokeAll uid now d) →
  ∃ x, x ∈ user_sessions d ∧ Session.refresh_token y = Session.refresh_token x
       ∧ Session.user_id y = Session.user_id x
       ∧ (Session.user_id x = uid → Session.is_active y = false)
       ∧ (Session.user_id x ≠ uid → y = x).
Proof.
  rewrite revokeAll_sessions. intros Hy.
  apply list_elem_of_fmap in Hy as (x & -> & Hx). exists x.
  case_decide.
  - rewrite deactivate_refresh_token, deactivate_user_id, deactivate_is_active.
    by split_and!.
  - by split_and!.
Qed.

(** X5: after the [UPDATE] that deactivation runs, no session row of the user
    is active and no refresh token whose rows are all the user's can be
    exchanged; the rows of every other user are left as they were; running
    it again changes nothing. *)
Theorem revokeAll_ends_sessions_of_user_only uid now d :
  (∀ y, y ∈ user_sessions (revokeAll uid now d) →
        Session.user_id y = uid → Session.is_active y = false)
  ∧ (∀ token now',
       (∀ x, x ∈ user_sessions d → Session.refresh_token x = token →
             Session.user_id x = uid) →
       isSessionValid token now' (revokeAll uid now d) = false)
  ∧ filter (λ x, Session.user_id x ≠ uid) (user_sessions (revokeAll uid now d))
    = filter (λ x, Session.user_id x ≠ uid) (user_sessions d)
  ∧ (∀ now', revokeAll uid now' (revokeAll uid now d) = revokeAll uid now d).
Proof.
  split_and!.
  - intros y Hy Huid.
    destruct (elem_of_revokeAll uid now d y Hy) as (x & _ & _ & Hu & Hact & _).
    apply Hact. congruence.
  - intros token now' Hown.
    destruct (isSessionValid token now' (revokeAll uid now d)) eqn:Hv; [| done].
    apply isSessionValid_true in Hv as (y & Hy & Htok & Hact & _).
    destruct (elem_of_revokeAll uid now d y Hy) as (x & Hx & Ht & _ & Hoff & _).
    rewrite Hoff in Hact; [done |]. apply Hown; [done | congruence].
  - rewrite revokeAll_sessions.
    induction (user_sessions d) as [|x l IH]; [done |].
    rewrite fmap_cons, !filter_cons, IH.
    destruct (decide (Session.user_id x = uid)) as [Hx|Hx].
    + rewrite !decide_False; [done | by intros ? | ].
      rewrite deactivate_user_id. by intros ?.
    + by rewrite !decide_True.
  - intros now'. unfold revokeAll. cbn [user_sessions with_user_sessions tenants
      users roles permissions role_permissions user_roles].
    f_equal. rewrite <- list_fmap_compose. apply list_fmap_ext.
    intros i x _. simpl. destruct (decide (Session.user_id x = uid)) as [Hx|Hx].
    + rewrite deactivate_user_id, decide_True by done. apply deactivate_twice.
    + by rewrite decide_False.
Qed.

Lemma revokeAll_ends_sessions_of_user_only_witness :
  isSessionValid "rt.bob" 100 (revokeAll 2 100 Demo.db) = false.
Proof.
  refine (proj1 (proj2 (revokeAll_ends_sessions_of_user_only 2 100 Demo.db))
            "rt.bob" 100 _).
  intros x Hx Htok. cbn in Hx.
  repeat (apply elem_of_cons in Hx as [-> | Hx]); [done | done | inversion Hx].
Defined.

(** ** What logout writes *)

Lemma only_deactivated_refl now d : only_deactivated now d d.
Proof.
  split; [by repeat split |]. apply Forall2_same_length_lookup_2; [done |].
  intros i x y Hx Hy. left. congruence.
Qed.

Lemma only_deactivated_where matches now d :
  only_deactivated now d (deactivate_where matches now d).
Proof.
  split; [by repeat split |]. unfold deactivate_where.
  cbn [user_sessions with_user_sessions].
  induction (user_sessions d) as [|x l IH]; [constructor |].
  rewrite fmap_cons. constructor; [| done].
  destruct (matches x); [by right | by left].
Qed.

(** What a logout writes depends on the body alone, once [verifyToken] has
    let the request through. *)
Lemma logout_effect `{SqlDriver} env codec now req body :
  ∃ f : database → database,
    (f = id ∨ ∃ matches, f = deactivate_where matches now)
    ∧ ∀ s, data (snd (logout env codec now req body s))
           = match fst (verifyToken env codec now req s) with
             | Returned (Proceed _) => f (data s)
             | _ => data s
             end.
Proof.
  destruct (if truthy_value body then body ≫= where_refresh_token else None)
    as [matches|] eqn:Hbody.
  - exists (deactivate_where matches now). split; [right; by exists matches |].
    intros s. pose proof (verifyToken_data env codec now req s) as Hdata.
    unfold logout, mbind, io_bind.
    destruct (verifyToken env codec now req s) as [[[p|r]|e] s1];
      cbn [fst snd] in Hdata |- *; rewrite <- Hdata; [| done | done].
    destruct body as [v|]; [| done].
    destruct (truthy_value (Some v)); [| done]. cbn in Hbody. by rewrite Hbody.
  - exists id. split; [by left |].
    intros s. pose proof (verifyToken_data env codec now req s) as Hdata.
    unfold logout, mbind, io_bind.
    destruct (verifyToken env codec now req s) as [[[p|r]|e] s1];
      cbn [fst snd] in Hdata |- *; rewrite <- Hdata; [| done | done].
    destruct body as [v|]; [| done].
    destruct (truthy_value (Some v)); [| done]. cbn in Hbody. by rewrite Hbody.
Qed.

(** X6: whatever the body holds under [refreshToken], [POST /auth/logout]
    writes nothing but deactivations of session rows, and the same request
    sent again writes nothing further.  It writes nothing at
    all unless [verifyToken] let the request through and the value is
    truthy.  For a string that is not empty it answers 200 and revokes the
    rows whose token the collation equates with the string, whoever they
    belong to.  For a truthy value of another kind it sends the statement
    that mysql2 makes of the value: when MySQL takes the statement it answers
    200 and deactivates every row the condition holds of, which need not
    name a token; when MySQL refuses it, it answers 500 and writes
    nothing. *)
Theorem logout_writes_only_deactivations `{SqlDriver} env codec now req body s :
  let answer := fst (logout env codec now req body s) in
  let d' := data (snd (logout env codec now req body s)) in
  let ok := Returned (mk_reply 200 (MessageBody "Logged out successfully")) in
  only_deactivated now (data s) d'
  ∧ ((∀ p, fst (verifyToken env codec now req s) ≠ Returned (Proceed p)) →
     d' = data s)
  ∧ (∀ r, fst (verifyToken env codec now req s) = Returned (Responded r) →
       answer = Returned r)
  ∧ (∀ p, fst (verifyToken env codec now req s) = Returned (Proceed p) →
       (truthy_value body = false → answer = ok ∧ d' = data s)
       ∧ (∀ token, body = Some (BodyString token) → token ≠ "" →
            answer = ok ∧ d' = revoke token_eq token now (data s))
       ∧ (∀ v matches, body = Some (BodyJson v) → json_truthy v = true →
            json_where v = Some matches →
            answer = ok ∧ d' = deactivate_where matches now (data s))
       ∧ (∀ v, body = Some (BodyJson v) → json_truthy v = true →
            json_where v = None →
            answer = Returned (json_error 500 "Logout failed") ∧ d' = data s))
  ∧ data (snd (logout env codec now req body (snd (logout env codec now req body s))))
    = d'.
Proof.
  intros answer d' ok. subst answer d'.
  assert (data (snd (logout env codec now req body
                       (snd (logout env codec now req body s))))
          = data (snd (logout env codec now req body s))) as Hagain.
  { destruct (logout_effect env codec now req body) as (f & Hf & Heffect).
    assert (same_but_sessions (data s) (data (snd (logout env codec now req body s))))
      as Hsame.
    { rewrite (Heffect s). destruct (fst (verifyToken env codec now req s))
        as [[p|r]|e]; [| by repeat split | by repeat split].
      destruct Hf as [-> | [matches ->]]; by repeat split. }
    rewrite (Heffect (snd (logout env codec now req body s))).
    rewrite <- (proj1 (verifyToken_ext env codec now req _ _ Hsame)).
    rewrite (Heffect s).
    destruct (fst (verifyToken env codec now req s)) as [[p|r]|e]; [| done | done].
    destruct Hf as [-> | [matches ->]]; [done | apply deactivate_where_twice]. }
  match goal with
  | |- ?A ∧ ?B ∧ ?C ∧ ?D ∧ _ =>
      cut (A ∧ B ∧ C ∧ D); [intros (? & ? & ? & ?); by split_and! |]
  end.
  clear Hagain.
  pose proof (verifyToken_data env codec now req s) as Hdata.
  unfold logout, mbind, io_bind.
  destruct (verifyToken env codec now req s) as [[[p|r]|e] s1];
    cbn [fst snd] in Hdata |- *; rewrite <- Hdata.
  - split_and!.
    + destruct body as [v|]; [| apply only_deactivated_refl].
      destruct (truthy_value (Some v)); [| apply only_deactivated_refl].
      destruct (where_refresh_token v) as [matches|]; cbn.
      * apply only_deactivated_where.
      * apply only_deactivated_refl.
    + intros Hrej. by destruct (Hrej p).
    + done.
    + intros p' _. split_and!.
      * intros Hfalsy. destruct body as [v|]; [| done]. by rewrite Hfalsy.
      * intros token -> Htok. cbn [truthy_value where_refresh_token].
        by rewrite bool_decide_eq_false_2.
      * intros v matches -> Htruthy Hwhere. cbn [truthy_value where_refresh_token].
        by rewrite Htruthy, Hwhere.
      * intros v -> Htruthy Hwhere. cbn [truthy_value where_refresh_token].
        by rewrite Htruthy, Hwhere.
  - split_and!; [apply only_deactivated_refl | done | by intros ? [= ->] | done].
  - split_and!; [apply only_deactivated_refl | done | done | done].
Qed.

Lemma logout_writes_only_deactivations_witness :
  fst (logout Demo.env Demo.codec 100 Demo.logout_request Demo.logout_object
         (mk_store Demo.db []))
  = Returned (mk_reply 200 (MessageBody "Logged out successfully"))
  ∧ user_sessions
      (data (snd (logout Demo.env Demo.codec 100 Demo.logout_request Demo.logout_object
                    (mk_store Demo.db []))))
    = [Session.mk 1 2 "rt.bob" false 604800 100;
       Session.mk 2 1 "rt.alice" false 604800 100].
Proof.
  destruct (proj1 (proj2 (proj2
              (proj1 (proj2 (proj2 (proj2 (logout_writes_only_deactivations
                 Demo.env Demo.codec 100 Demo.logout_request Demo.logout_object
                 (mk_store Demo.db [])))))
                 (Principal.mk 1 "alice@acme.test" "Alice" "A" 1 "Acme"
                    ["tasks.view"; "billing.manage"]) eq_refl)))
              (Demo.JsonObject "refresh_token" 1) (λ _, true) eq_refl eq_refl eq_refl)
    as [Hanswer Hdata].
  split; [exact Hanswer |]. rewrite Hdata. reflexivity.
Defined.

(** A body that names no token: the object [{ "refresh_token": 1 }] makes
    the condition of the statement hold of every row, and alice's logout
    ends bob's session with her own; an array of two strings makes a
    statement that MySQL refuses. *)
Example logout_with_object_ends_every_session :
  logout Demo.env Demo.codec 100 Demo.logout_request Demo.logout_object
    (mk_store Demo.db [])
  = (Returned (mk_reply 200 (MessageBody "Logged out successfully")),
     mk_store
       (with_user_sessions Demo.db
          [Session.mk 1 2 "rt.bob" false 604800 100;
           Session.mk 2 1 "rt.alice" false 604800 100])
       [SelectUserJoinTenant 1; SelectPermissionNames 1;
        UpdateSessionsByValue "`refresh_token` = 1"]).
Proof. reflexivity. Qed.

Example logout_with_array_is_refused :
  logout Demo.env Demo.codec 100 Demo.logout_request
    (Some (BodyJson (Demo.JsonArray "rt.alice" "rt.bob"))) (mk_store Demo.db [])
  = (Returned (json_error 500 "Logout failed"),
     mk_store Demo.db
       [SelectUserJoinTenant 1; SelectPermissionNames 1;
        UpdateSessionsByValue "'rt.alice', 'rt.bob'"]).
Proof. reflexivity. Qed.

(** ** Routes behind the gates *)

Section GatedRoutes.
Context (env : environment) (codec : jws_codec) (now : Z).

Lemma gated_unfold permission handler req s :
  gated env codec now permission handler req s
  = match verifyToken env codec now req s with
    | (Returned (Proceed user), s1) =>
        if includes (Principal.permissions user) permission
        then handler user s1
        else (Returned (mk_reply 403
                (ErrorBody "Insufficient permissions"
                   (Some (RequiredOne permission)))), s1)
    | (Returned (Responded r), s1) => (Returned r, s1)
    | (Thrown e, s1) => (Thrown e, s1)
    end.
Proof.
  unfold gated, authenticated, mbind, io_bind, checkPermission.
  destruct (verifyToken env codec now req s) as [[[user|r]|e] s1]; [| done | done].
  by destruct (includes (Principal.permissions user) permission).
Qed.

End GatedRoutes.

(** X7: the handler of a permission-gated route has no say in the answer
    unless [verifyToken] admitted the request and the permission is among
    those reachable through the roles assigned to the user: whenever two
    handlers would make the route behave differently, that is the case. *)
Theorem gated_handler_runs_only_with_permission
    env codec now permission (h h' : Principal.t → io reply) req s :
  gated env codec now permission h req s ≠ gated env codec now permission h' req s →
  ∃ user,
    fst (verifyToken env codec now req s) = Returned (Proceed user)
    ∧ permission ∈ Principal.permissions user
    ∧ reachable_permission (data s) (Principal.id user) permission.
Proof.
  rewrite !gated_unfold. intros Hdiff.
  destruct (verifyToken env codec now req s) as [[[user|r]|e] s1] eqn:Hrun;
    [| done | done].
  destruct (includes (Principal.permissions user) permission) eqn:Hinc; [| done].
  apply includes_elem_of in Hinc. exists user. split_and!; [done | done |].
  assert (fst (verifyToken env codec now req s) = Returned (Proceed user)) as Hadm
    by by rewrite Hrun.
  apply verifyToken_proceed_inv in Hadm as (u & tn & _ & _ & _ & Hid & _ & Hperms).
  rewrite Hid. apply elem_of_select_permission_names. by rewrite <- Hperms.
Qed.

Lemma gated_handler_runs_only_with_permission_witness :
  ∃ user,
    fst (verifyToken Demo.env Demo.codec 100 (Demo.with_bearer "tok.alice")
           (mk_store Demo.db [])) = Returned (Proceed user)
    ∧ "tasks.view" ∈ Principal.permissions user
    ∧ reachable_permission Demo.db (Principal.id user) "tasks.view".
Proof.
  apply (gated_handler_runs_only_with_permission Demo.env Demo.codec 100 "tasks.view"
           (λ _, mret (mk_reply 200 (MessageBody "one")))
           (λ _, mret (mk_reply 200 (MessageBody "two")))
           (Demo.with_bearer "tok.alice") (mk_store Demo.db [])).
  vm_compute. discriminate.
Defined.

(** X8: on a permission-gated route, a valid token of an active user of an
    active tenant reaches the handler, with the principal of that user and
    after the two lookups, when the permission is reachable through the
    user's roles; when it is not, the answer is 403 "Insufficient
    permissions" naming the permission, and nothing is written. *)
Theorem gated_decides_by_reachable_permission
    env codec now permission (h : Principal.t → io reply) req s token payload u tn :
  truthy (bearer req) = Some token →
  valid_token codec token (JWT_SECRET env) now payload →
  primary_keys (data s) →
  u ∈ users (data s) → User.id u = userId payload → User.status u = UserActive →
  tn ∈ tenants (data s) → Tenant.id tn = User.tenant_id u →
  Tenant.status tn = TenantActive →
  let user := Principal.mk (User.id u) (User.email u) (User.first_name u)
                (User.last_name u) (Tenant.id tn) (Tenant.name tn)
                (select_permission_names (User.id u) (data s)) in
  let s1 := mk_store (data s)
              (log s ++ [SelectUserJoinTenant (User.id u);
                         SelectPermissionNames (User.id u)]) in
  (reachable_permission (data s) (User.id u) permission →
   gated env codec now permission h req s = h user s1)
  ∧ (¬ reachable_permission (data s) (User.id u) permission →
     gated env codec now permission h req s
     = (Returned (mk_reply 403
          (ErrorBody "Insufficient permissions" (Some (RequiredOne permission)))),
        s1)).
Proof.
  intros Htok Hvalid Hpk Hu Hid Hust Htn Htid Htst user s1.
  apply jwt_verify_returns in Hvalid.
  rewrite gated_unfold.
  rewrite (verifyToken_verified env codec now req s token payload Htok Hvalid).
  unfold after_verify.
  rewrite (select_user_join_tenant_found _ _ u tn Hpk Hu Hid Hust Htn Htid).
  cbn [UserRow.join UserRow.tenant_status UserRow.id UserRow.tenant_id
       UserRow.email UserRow.first_name UserRow.last_name UserRow.tenant_name].
  rewrite decide_False by (rewrite Htst; intros Hne; by apply Hne).
  cbn [Principal.permissions]. rewrite <- Hid, <- app_assoc. fold user. cbn [app].
  fold s1. split.
  - intros Hreach. apply elem_of_select_permission_names, includes_elem_of in Hreach.
    by rewrite Hreach.
  - intros Hno.
    destruct (includes (select_permission_names (User.id u) (data s)) permission)
      eqn:Hinc; [| done].
    apply includes_elem_of, elem_of_select_permission_names in Hinc. by destruct Hno.
Qed.

Lemma gated_decides_by_reachable_permission_witness :
  gated Demo.env Demo.codec 100 "tasks.delete"
    (λ _, mret (mk_reply 200 (MessageBody "deleted")))
    (Demo.with_bearer "tok.alice") (mk_store Demo.db_scoped [])
  = (Returned (mk_reply 403
       (ErrorBody "Insufficient permissions" (Some (RequiredOne "tasks.delete")))),
     mk_store Demo.db_scoped [SelectUserJoinTenant 1; SelectPermissionNames 1]).
Proof.
  refine (proj2 (gated_decides_by_reachable_permission
            Demo.env Demo.codec 100 "tasks.delete"
            (λ _, mret (mk_reply 200 (MessageBody "deleted")))
            (Demo.with_bearer "tok.alice") (mk_store Demo.db_scoped [])
            "tok.alice" (mk_claims 1 1 0 3600)
            (User.mk 1 1 "alice@acme.test" "Alice" "A" UserActive)
            (Tenant.mk 1 "Acme" TenantActive) _ _ _ _ _ _ _ _ _) _).
  - reflexivity.
  - unfold valid_token.
    split_and!; [discriminate | reflexivity | reflexivity | simpl; lia].
  - split; compute_done.
  - compute_done.
  - reflexivity.
  - reflexivity.
  - compute_done.
  - reflexivity.
  - reflexivity.
  - intros Hreach. apply elem_of_select_permission_names in Hreach.
    vm_compute in Hreach. apply list_elem_of_singleton in Hreach. discriminate.
Defined.

(** ** Ending one session: [DELETE /auth/sessions/:id] *)

(** X9: [DELETE /auth/sessions/:id] answers 200 "Session terminated" when
    MySQL takes the statement and 500 "Failed to terminate session", with
    nothing written, when MySQL refuses it.  Whatever [id] the client sends,
    it leaves every table but [user_sessions] and every session row of
    another user as they were.  When it answers 200 it has deactivated the
    caller's rows the [id] matches, and a refresh token carried only by such
    rows can no longer be exchanged.  Doing it twice leaves the tables as
    doing it once. *)
Theorem delete_session_ends_own_sessions_only `{Untyped}
    (refuses : value → database → bool)
    (user : Principal.t) (id : value) (now : Z) (d : database) :
  let answer := fst (delete_session refuses user id now d) in
  let d' := snd (delete_session refuses user id now d) in
  (refuses id d = false → answer = mk_reply 200 (MessageBody "Session terminated"))
  ∧ (refuses id d = true →
     answer = json_error 500 "Failed to terminate session" ∧ d' = d)
  ∧ same_but_sessions d d'
  ∧ filter (λ x, Session.user_id x ≠ Principal.id user) (user_sessions d')
    = filter (λ x, Session.user_id x ≠ Principal.id user) (user_sessions d)
  ∧ (∀ token now',
       status answer = 200 →
       (∀ x, x ∈ user_sessions d → Session.refresh_token x = token →
             sql_eq (Session.id x) id = true ∧ Session.user_id x = Principal.id user) →
       isSessionValid token now' d' = false)
  ∧ (∀ now', snd (delete_session refuses user id now' d') = d').
Proof.
  intros answer d'. subst answer d'. unfold delete_session.
  destruct (refuses id d) eqn:Href; cbn [fst snd].
  { rewrite Href. split_and!; try done; by repeat split. }
  split_and!; [done | done | by repeat split | | |].
  - cbn [user_sessions with_user_sessions].
    induction (user_sessions d) as [|x l IH]; [done |].
    rewrite fmap_cons, !filter_cons, IH.
    destruct (decide (sql_eq (Session.id x) id = true
                      ∧ Session.user_id x = Principal.id user)) as [[_ Hm]|Hm].
    + rewrite !decide_False; [done | by intros ? |].
      rewrite deactivate_user_id. by intros ?.
    + done.
  - intros token now' _ Hown.
    match goal with |- ?v = false => destruct v eqn:Hv; [| done] end.
    apply isSessionValid_true in Hv as (y & Hy & Htok & Hact & _).
    cbn [user_sessions with_user_sessions] in Hy.
    apply list_elem_of_fmap in Hy as (x & -> & Hx). case_decide as Hm.
    + by rewrite deactivate_is_active in Hact.
    + destruct Hm. by apply Hown.
  - intros now'. destruct (refuses id (with_user_sessions d _)); [done |].
    cbn [fst snd user_sessions with_user_sessions tenants users roles
      permissions role_permissions user_roles]. unfold with_user_sessions at 1.
    cbn [user_sessions with_user_sessions tenants users roles
      permissions role_permissions user_roles].
    unfold with_user_sessions. f_equal.
    rewrite <- list_fmap_compose. apply list_fmap_ext. intros i x _. simpl.
    destruct (decide (sql_eq (Session.id x) id = true
                      ∧ Session.user_id x = Principal.id user)) as [Hm|Hm].
    + rewrite decide_True; [apply deactivate_twice |].
      unfold deactivate. by destruct (Session.is_active x).
    + by rewrite decide_False.
Qed.

Lemma delete_session_ends_own_sessions_only_witness :
  isSessionValid "rt.alice" 100
    (snd (delete_session (H := plain) (λ _ _, false)
            (Principal.mk 1 "alice@acme.test" "Alice" "A" 1 "Acme" [])
            (PlainInt 2) 100 Demo.db)) = false.
Proof.
  refine (proj1 (proj2 (proj2 (proj2 (proj2 (delete_session_ends_own_sessions_only
            (H := plain) (λ _ _, false)
            (Principal.mk 1 "alice@acme.test" "Alice" "A" 1 "Acme" [])
            (PlainInt 2) 100 Demo.db))))) "rt.alice" 100 eq_refl _).
  intros x Hx Htok. cbn in Hx.
  repeat (apply elem_of_cons in Hx as [-> | Hx]); [done | done | inversion Hx].
Defined.

(** ** The user routes on the demo deployment *)

Example carol_changes_role_of_bob :
  put_user_role (H := plain)
    (Principal.mk 3 "carol@globex.test" "Carol" "C" 2 "Globex" ["users.edit"])
    (PlainInt 2) (PlainInt 20) "10.0.0.1" (mk_world Demo.db [])
  = (mk_reply 200 (MessageBody "User role updated successfully"),
     mk_world
       (with_user_roles Demo.db [UserRole.mk 1 10; UserRole.mk 1 20; UserRole.mk 2 20])
       [AuditLog.mk 2 3 "update_role" "user" 2 (LoggedRoleId (PlainInt 20)) "10.0.0.1"]).
Proof. reflexivity. Qed.

Example carol_cannot_change_her_own_role :
  put_user_role (H := plain)
    (Principal.mk 3 "carol@globex.test" "Carol" "C" 2 "Globex" ["users.edit"])
    (PlainInt 3) (PlainInt 20) "10.0.0.1" (mk_world Demo.db [])
  = (json_error 400 "Cannot change your own role", mk_world Demo.db []).
Proof. reflexivity. Qed.

Example carol_cannot_reach_into_another_tenant :
  fst (put_user_role (H := plain)
         (Principal.mk 3 "carol@globex.test" "Carol" "C" 2 "Globex" ["users.edit"])
         (PlainInt 1) (PlainInt 20) "10.0.0.1" (mk_world Demo.db []))
  = json_error 404 "User not found"
  ∧ fst (put_user_role (H := plain)
           (Principal.mk 3 "carol@globex.test" "Carol" "C" 2 "Globex" ["users.edit"])
           (PlainInt 2) (PlainInt 10) "10.0.0.1" (mk_world Demo.db []))
    = json_error 404 "Role not found".
Proof. by split. Qed.

Example bob_deactivates_carol :
  let w := snd (put_user_status (H := plain)
                  (Principal.mk 2 "bob@globex.test" "Bob" "B" 2 "Globex" ["users.edit"])
                  (PlainInt 3) (PlainStatus UserInactive) "10.0.0.1" 100
                  (mk_world (insert_session 7 3 "rt.carol" 604800 0 Demo.db) [])) in
  users (tables w)
  = [User.mk 1 1 "alice@acme.test" "Alice" "A" UserActive;
     User.mk 2 2 "bob@globex.test" "Bob" "B" UserInactive;
     User.mk 3 2 "carol@globex.test" "Carol" "C" UserInactive]
  ∧ user_sessions (tables w)
    = [Session.mk 1 2 "rt.bob" true 604800 0; Session.mk 2 1 "rt.alice" true 604800 0;
       Session.mk 7 3 "rt.carol" false 604800 100]
  ∧ audit_logs w
    = [AuditLog.mk 2 2 "update_status" "user" 3
         (LoggedStatus (PlainStatus UserInactive)) "10.0.0.1"].
Proof. by split_and!. Qed.

Example alice_ends_her_session :
  delete_session (H := plain) (λ _ _, false)
    (Principal.mk 1 "alice@acme.test" "Alice" "A" 1 "Acme" []) (PlainInt 2) 100 Demo.db
  = (mk_reply 200 (MessageBody "Session terminated"),
     with_user_sessions Demo.db
       [Session.mk 1 2 "rt.bob" true 604800 0; Session.mk 2 1 "rt.alice" false 604800 100])
  ∧ snd (delete_session (H := plain) (λ _ _, false)
           (Principal.mk 1 "alice@acme.test" "Alice" "A" 1 "Acme" []) (PlainInt 1) 100
           Demo.db)
    = Demo.db.
Proof. by split. Qed.

(** MySQL refusing what is no integer: the route answers 500. *)
Example alice_names_no_session :
  delete_session (H := plain)
    (λ id _, match id with PlainInt _ => false | PlainStatus _ => true end)
    (Principal.mk 1 "alice@acme.test" "Alice" "A" 1 "Acme" [])
    (PlainStatus UserActive) 100 Demo.db
  = (json_error 500 "Failed to terminate session", Demo.db).
Proof. reflexivity. Qed.

(** ** Changing a role: [PUT /users/:id/role] *)

Lemma NoDup_fmap_key {A} (key : A → Z) (l : list A) (x y : A) :
  NoDup (key <$> l) → x ∈ l → y ∈ l → key x = key y → x = y.
Proof.
  induction l as [|a l IH]; intros Hnd Hx Hy Hk; [inversion Hx |].
  rewrite fmap_cons in Hnd. apply NoDup_cons in Hnd as [Ha Hnd].
  apply elem_of_cons in Hx as [->|Hx]; apply elem_of_cons in Hy as [->|Hy].
  - done.
  - destruct Ha. rewrite Hk. by apply list_elem_of_fmap_2.
  - destruct Ha. rewrite <- Hk. by apply list_elem_of_fmap_2.
  - by apply IH.
Qed.

Lemma length_zero_false_elem {A} (l : list A) :
  bool_decide (length l = 0%nat) = false → ∃ x, x ∈ l.
Proof.
  destruct l as [|x l]; [by rewrite bool_decide_eq_true_2 |].
  intros _. exists x. left.
Qed.

Section RoleChange.
Context `{Untyped}.

(** The outcome of [put_user_role], by cases. *)
Lemma put_user_role_cases user id roleId ip w :
  (snd (put_user_role user id roleId ip w) = w
   ∧ status (fst (put_user_role user id roleId ip w)) ≠ 200)
  ∨ ∃ u r,
      parseInt id ≠ Some (Principal.id user)
      ∧ u ∈ users (tables w) ∧ sql_eq (User.id u) id = true
      ∧ User.tenant_id u = Principal.tenantId user
      ∧ r ∈ roles (tables w) ∧ sql_eq (Role.id r) roleId = true
      ∧ Role.tenant_id r = Principal.tenantId user
      ∧ put_user_role user id roleId ip w
        = (mk_reply 200 (MessageBody "User role updated successfully"),
           mk_world
             (with_user_roles (tables w)
                (filter (λ ur, sql_eq (UserRole.user_id ur) id ≠ true)
                        (user_roles (tables w))
                 ++ [UserRole.mk (sql_int id) (sql_int roleId)]))
             (audit_logs w
              ++ [AuditLog.mk (Principal.tenantId user) (Principal.id user)
                    "update_role" "user" (sql_int id) (LoggedRoleId roleId) ip])).
Proof.
  unfold put_user_role.
  destruct (decide (parseInt id = Some (Principal.id user))) as [|Hself];
    [by left |].
  case_bool_decide as Hu; [by left |]. case_bool_decide as Hr; [by left |].
  right.
  destruct (length_zero_false_elem
              (select_user_in_tenant id (Principal.tenantId user) (tables w)))
    as [u Hin]; [by apply bool_decide_eq_false_2 |].
  destruct (length_zero_false_elem
              (select_role_in_tenant roleId (Principal.tenantId user) (tables w)))
    as [r Hrin]; [by apply bool_decide_eq_false_2 |].
  apply list_elem_of_filter in Hin as [[? ?] ?].
  apply list_elem_of_filter in Hrin as [[? ?] ?].
  by exists u, r.
Qed.

Lemma kept_assignment (id : value) (k uid : Z) :
  eq_stores → sql_eq uid id = true →
  sql_eq k id ≠ true ↔ k ≠ uid.
Proof.
  intros Hst Hu. split.
  - intros Hk ->. by destruct Hk.
  - intros Hk Heq. apply Hk. by rewrite <- (Hst _ _ Heq), <- (Hst _ _ Hu).
Qed.

End RoleChange.

(** X10: [PUT /users/:id/role] keeps every assignment within the tenant of
    its user: if each row of [user_roles] gave a user a role of the user's own
    tenant before the call, so does each row after it, whatever the caller
    sent.  (Values an integer column compares equal to are stored as that
    integer; [users.id] is a key.) *)
Theorem put_user_role_keeps_assignments_within_tenant `{Untyped}
    user id roleId ip (w : world value) :
  eq_stores →
  primary_keys (tables w) →
  assignments_within_tenant (tables w) →
  assignments_within_tenant (tables (snd (put_user_role user id roleId ip w))).
Proof.
  intros Hst [_ Hpk] Hinv.
  destruct (put_user_role_cases user id roleId ip w)
    as [[-> _] | (u & r & _ & Hu & Hueq & Hut & Hr & Hreq & Hrt & ->)]; [done |].
  cbn [snd tables]. intros ur u' Hur Hu' Hid.
  cbn [user_roles users roles with_user_roles] in *.
  apply elem_of_app in Hur as [Hur | Hur].
  - apply list_elem_of_filter in Hur as [_ Hur]. by apply (Hinv ur u').
  - apply list_elem_of_singleton in Hur as ->. cbn in Hid |- *.
    rewrite (Hst _ _ Hueq) in Hid. rewrite (Hst _ _ Hreq).
    assert (u' = u) as -> by by apply (NoDup_fmap_key User.id (users (tables w))).
    exists r. split_and!; [done | done | congruence].
Qed.

Lemma put_user_role_keeps_assignments_within_tenant_witness :
  assignments_within_tenant
    (tables (snd (put_user_role (H := plain)
                    (Principal.mk 3 "carol@globex.test" "Carol" "C" 2 "Globex" [])
                    (PlainInt 2) (PlainInt 20) "10.0.0.1"
                    (mk_world Demo.db_scoped [])))).
Proof.
  apply (put_user_role_keeps_assignments_within_tenant (H := plain)).
  - intros k [n|st] Heq; [| done]. cbn in Heq |- *. by apply bool_decide_eq_true_1 in Heq.
  - split; compute_done.
  - intros ur u Hur Hu Hid. cbn in Hur, Hu.
    apply list_elem_of_singleton in Hur as ->.
    exists (Role.mk 10 1 "Member" true).
    repeat (apply elem_of_cons in Hu as [-> | Hu]); try discriminate;
      [| inversion Hu].
    split_and!; [left | reflexivity | reflexivity].
Defined.



(** X12: [PUT /users/:id/role] never changes the assignments of a user of
    another tenant, whatever the caller sent.  It leaves the assignments of
    the caller as they are when the guard reads the [id] as MySQL does: when
    [parseInt] reads the caller's id in every [id] that MySQL equates with
    it.  (Values an integer column compares equal to are stored as that
    integer; [users.id] is a key.) *)
Theorem put_user_role_spares_other_tenants `{Untyped}
    user id roleId ip (w : world value) ur :
  eq_stores →
  primary_keys (tables w) →
  (UserRole.user_id ur = Principal.id user
   ∧ (sql_eq (Principal.id user) id = true → parseInt id = Some (Principal.id user)))
  ∨ (∃ u', u' ∈ users (tables w) ∧ User.id u' = UserRole.user_id ur
           ∧ User.tenant_id u' ≠ Principal.tenantId user) →
  ur ∈ user_roles (tables (snd (put_user_role user id roleId ip w)))
  ↔ ur ∈ user_roles (tables w).
Proof.
  intros Hst [_ Hpk] Hother.
  destruct (put_user_role_cases user id roleId ip w)
    as [[-> _] | (u & r & Hself & Hu & Hueq & Hut & Hr & Hreq & Hrt & ->)]; [done |].
  cbn [snd tables user_roles with_user_roles].
  rewrite elem_of_app, list_elem_of_filter, list_elem_of_singleton.
  rewrite (kept_assignment id _ (User.id u) Hst Hueq).
  rewrite (Hst _ _ Hueq), (Hst _ _ Hreq).
  assert (UserRole.user_id ur ≠ User.id u) as Hne.
  { destruct Hother as [[Hcaller Hguard] | (u' & Hu' & Hid' & Htn')].
    - intros Heq. apply Hself, Hguard. by rewrite <- Hcaller, Heq.
    - intros Heq. apply Htn'. rewrite <- Hut. f_equal.
      apply (NoDup_fmap_key User.id (users (tables w))); [done | done | done |].
      congruence. }
  split; [intros [[? ?] | ->]; [done | by destruct Hne] | by left].
Qed.

Lemma put_user_role_spares_other_tenants_witness :
  UserRole.mk 1 20
    ∈ user_roles (tables (snd (put_user_role (H := plain)
        (Principal.mk 3 "carol@globex.test" "Carol" "C" 2 "Globex" [])
        (PlainInt 1) (PlainInt 20) "10.0.0.1" (mk_world Demo.db []))))
  ↔ UserRole.mk 1 20 ∈ user_roles Demo.db.
Proof.
  apply (put_user_role_spares_other_tenants (H := plain)).
  - intros k [n|st] Heq; [| done]. cbn in Heq |- *. by apply bool_decide_eq_true_1 in Heq.
  - split; compute_done.
  - right. exists (User.mk 1 1 "alice@acme.test" "Alice" "A" UserActive).
    split_and!; [compute_done | reflexivity | discriminate].
Defined.

Lemma elem_of_length_nonzero {A} (l : list A) (x : A) :
  x ∈ l → bool_decide (length l = 0%nat) = false.
Proof. intros Hx. apply bool_decide_eq_false_2. by destruct Hx. Qed.



(** ** Activating and deactivating: [PUT /users/:id/status] *)

Section StatusChange.
Context `{Untyped}.

Lemma put_user_status_cases user id st ip now w :
  (snd (put_user_status user id st ip now w) = w
   ∧ status (fst (put_user_status user id st ip now w)) ≠ 200)
  ∨ ∃ u,
      parseInt id ≠ Some (Principal.id user)
      ∧ u ∈ users (tables w) ∧ sql_eq (User.id u) id = true
      ∧ User.tenant_id u = Principal.tenantId user
      ∧ status (fst (put_user_status user id st ip now w)) = 200
      ∧ tables (snd (put_user_status user id st ip now w))
        = (if decide (js_string st = Some "inactive")
           then revoke_sessions_of id now
                  (update_user_status st id (Principal.tenantId user) (tables w))
           else update_user_status st id (Principal.tenantId user) (tables w)).
Proof.
  unfold put_user_status.
  destruct (decide (parseInt id = Some (Principal.id user))) as [|Hself];
    [by left |].
  case_bool_decide as Hu; [by left |]. right.
  destruct (length_zero_false_elem
              (select_user_in_tenant id (Principal.tenantId user) (tables w)))
    as [u Hin]; [by apply bool_decide_eq_false_2 |].
  apply list_elem_of_filter in Hin as [[? ?] ?]. by exists u.
Qed.

Lemma users_update_user_status st id tid d :
  users (update_user_status st id tid d)
  = (λ u, if decide (sql_eq (User.id u) id = true ∧ User.tenant_id u = tid)
          then set_status (sql_status st) u else u) <$> users d.
Proof. done. Qed.

Lemma users_after_status_change st id tid now d :
  users (if decide (js_string st = Some "inactive")
         then revoke_sessions_of id now (update_user_status st id tid d)
         else update_user_status st id tid d)
  = (λ u, if decide (sql_eq (User.id u) id = true ∧ User.tenant_id u = tid)
          then set_status (sql_status st) u else u) <$> users d.
Proof. by case_decide. Qed.

Lemma sessions_revoke_sessions_of id now d :
  user_sessions (revoke_sessions_of id now d)
  = (λ s, if decide (sql_eq (Session.user_id s) id = true)
          then deactivate now s else s) <$> user_sessions d.
Proof. done. Qed.

End StatusChange.

Lemma verifyToken_proceed_active_user env codec now req s p :
  fst (verifyToken env codec now req s) = Returned (Proceed p) →
  ∃ u, u ∈ users (data s) ∧ User.id u = Principal.id p
       ∧ User.status u = UserActive.
Proof.
  destruct (truthy (bearer req)) as [token|] eqn:Htok.
  2: { unfold verifyToken, try_catch. by rewrite Htok. }
  destruct (jwt_verify codec token (JWT_SECRET env) now) as [decoded|e] eqn:Hver.
  2: { rewrite (verifyToken_thrown env codec now req _ token e Htok Hver).
       by destruct e. }
  rewrite (verifyToken_verified env codec now req _ token decoded Htok Hver).
  unfold after_verify.
  destruct (select_user_join_tenant _ _) as [|user rows] eqn:Hrows; [done |].
  case_decide; [done |]. intros [= <-].
  destruct (elem_of_select_user_join_tenant_active (data s) (userId decoded) user)
    as (u & tn & Hu & _ & -> & _ & _ & Hact).
  { rewrite Hrows. left. }
  by exists u.
Qed.

(** X13: when [PUT /users/:id/status] answers 200 to the status ['inactive'],
    the target is a user of the caller's tenant and is locked out: from then
    on [verifyToken] attaches no principal for that user, a valid token of
    the user is answered 401 "User not found or inactive", and no refresh
    token whose session rows are all the user's can be exchanged. *)
Theorem deactivation_locks_the_user_out `{Untyped}
    user id st ip now (w : world value) :
  eq_stores → inactive_stores →
  primary_keys (tables w) →
  js_string st = Some "inactive" →
  status (fst (put_user_status user id st ip now w)) = 200 →
  let d' := tables (snd (put_user_status user id st ip now w)) in
  ∃ u,
    u ∈ users (tables w) ∧ User.tenant_id u = Principal.tenantId user
    ∧ sql_eq (User.id u) id = true
    ∧ (∀ env codec now' req l p,
         fst (verifyToken env codec now' req (mk_store d' l)) = Returned (Proceed p) →
         Principal.id p ≠ User.id u)
    ∧ (∀ env codec now' req l token payload,
         truthy (bearer req) = Some token →
         valid_token codec token (JWT_SECRET env) now' payload →
         userId payload = User.id u →
         fst (verifyToken env codec now' req (mk_store d' l))
         = Returned (Responded (json_error 401 "User not found or inactive")))
    ∧ (∀ token now',
         (∀ x, x ∈ user_sessions (tables w) → Session.refresh_token x = token →
               Session.user_id x = User.id u) →
         isSessionValid token now' d' = false).
Proof.
  intros Hst Hin [_ Hpk] Hlit Hok d'.
  destruct (put_user_status_cases user id st ip now w)
    as [[_ Hrej] | (u & _ & Hu & Hueq & Hut & _ & Hd')]; [done |].
  subst d'. rewrite Hd'. clear Hd' Hok.
  exists u. split_and!; [done | done | done | | |].
  - (* no principal *)
    assert (∀ u', u' ∈ users (if decide (js_string st = Some "inactive")
                              then revoke_sessions_of id now
                                     (update_user_status st id (Principal.tenantId user) (tables w))
                              else update_user_status st id (Principal.tenantId user) (tables w)) →
                  User.id u' = User.id u → User.status u' ≠ UserActive) as Hoff.
    { intros u' Hu' Hid'. rewrite users_after_status_change in Hu'.
      apply list_elem_of_fmap in Hu' as (u0 & -> & Hu0).
      assert (u0 = u) as ->.
      { apply (NoDup_fmap_key User.id (users (tables w))); [done | done | done |].
        rewrite <- Hid'. by case_decide. }
      rewrite decide_True by done. cbn. by rewrite (Hin _ Hlit). }
    intros env codec now' req l p Hadm Hp.
    apply verifyToken_proceed_active_user in Hadm as (u' & Hu' & Hid' & Hact).
    apply (Hoff u'); [done | congruence | done].
  - intros env codec now' req l token payload Htok Hvalid Hpayload.
    apply jwt_verify_returns in Hvalid.
    rewrite (verifyToken_verified env codec now' req _ token payload Htok Hvalid).
    unfold after_verify. cbn [data]. rewrite select_user_join_tenant_none; [done |].
    intros u' Hu' Hid'. rewrite users_after_status_change in Hu'.
    apply list_elem_of_fmap in Hu' as (u0 & -> & Hu0).
    assert (u0 = u) as ->.
    { apply (NoDup_fmap_key User.id (users (tables w))); [done | done | done |].
      rewrite <- Hpayload, <- Hid'. by case_decide. }
    rewrite decide_True by done. cbn. by rewrite (Hin _ Hlit).
  - intros token now' Hown. rewrite decide_True by done.
    match goal with |- ?v = false => destruct v eqn:Hv; [| done] end.
    apply isSessionValid_true in Hv as (y & Hy & Htok & Hact & _).
    rewrite sessions_revoke_sessions_of in Hy.
    apply list_elem_of_fmap in Hy as (x & -> & Hx).
    cbn [user_sessions update_user_status with_users] in Hx.
    destruct (decide (sql_eq (Session.user_id x) id = true)) as [Hm|Hm].
    + by rewrite deactivate_is_active in Hact.
    + destruct Hm. rewrite (Hown x Hx Htok). done.
Qed.

Lemma deactivation_locks_the_user_out_witness :
  ∃ u,
    u ∈ users Demo.db ∧ User.tenant_id u = 2
    ∧ sql_eq (Untyped := plain) (User.id u) (PlainInt 3) = true
    ∧ (∀ env codec now' req l p,
         fst (verifyToken env codec now' req
                (mk_store (tables (snd (put_user_status (H := plain)
                   (Principal.mk 2 "bob@globex.test" "Bob" "B" 2 "Globex" [])
                   (PlainInt 3) (PlainStatus UserInactive) "10.0.0.1" 100
                   (mk_world Demo.db [])))) l)) = Returned (Proceed p) →
         Principal.id p ≠ User.id u)
    ∧ (∀ env codec now' req l token payload,
         truthy (bearer req) = Some token →
         valid_token codec token (JWT_SECRET env) now' payload →
         userId payload = User.id u →
         fst (verifyToken env codec now' req
                (mk_store (tables (snd (put_user_status (H := plain)
                   (Principal.mk 2 "bob@globex.test" "Bob" "B" 2 "Globex" [])
                   (PlainInt 3) (PlainStatus UserInactive) "10.0.0.1" 100
                   (mk_world Demo.db [])))) l))
         = Returned (Responded (json_error 401 "User not found or inactive")))
    ∧ (∀ token now',
         (∀ x, x ∈ user_sessions Demo.db → Session.refresh_token x = token →
               Session.user_id x = User.id u) →
         isSessionValid token now'
           (tables (snd (put_user_status (H := plain)
              (Principal.mk 2 "bob@globex.test" "Bob" "B" 2 "Globex" [])
              (PlainInt 3) (PlainStatus UserInactive) "10.0.0.1" 100
              (mk_world Demo.db [])))) = false).
Proof.
  apply (deactivation_locks_the_user_out (H := plain)
           (Principal.mk 2 "bob@globex.test" "Bob" "B" 2 "Globex" [])
           (PlainInt 3) (PlainStatus UserInactive) "10.0.0.1" 100
           (mk_world Demo.db [])).
  - intros k [n|st] Heq; [| done]. cbn in Heq |- *. by apply bool_decide_eq_true_1 in Heq.
  - intros [n|[| |]] Heq; try done.
  - split; compute_done.
  - reflexivity.
  - reflexivity.
Defined.

(** X14: [PUT /users/:id/status] never changes the row or the sessions of a
    user of another tenant, and touches no table but [users] and
    [user_sessions], whatever the caller sent.  It leaves the row and the
    sessions of the caller as they are when the guard reads the [id] as
    MySQL does: when [parseInt] reads the caller's id in every [id] that
    MySQL equates with it.  (Same conditions on stored values and keys as
    for the role route.) *)
Theorem put_user_status_spares_other_tenants `{Untyped}
    user id st ip now (w : world value) u' :
  eq_stores →
  primary_keys (tables w) →
  u' ∈ users (tables w) →
  (User.id u' = Principal.id user
   ∧ (sql_eq (Principal.id user) id = true → parseInt id = Some (Principal.id user)))
  ∨ User.tenant_id u' ≠ Principal.tenantId user →
  let d' := tables (snd (put_user_status user id st ip now w)) in
  u' ∈ users d'
  ∧ filter (λ x, Session.user_id x = User.id u') (user_sessions d')
    = filter (λ x, Session.user_id x = User.id u') (user_sessions (tables w))
  ∧ tenants d' = tenants (tables w) ∧ roles d' = roles (tables w)
  ∧ permissions d' = permissions (tables w)
  ∧ role_permissions d' = role_permissions (tables w)
  ∧ user_roles d' = user_roles (tables w).
Proof.
  intros Hst [_ Hpk] Hu' Hother d'.
  destruct (put_user_status_cases user id st ip now w)
    as [[Hsame _] | (u & Hself & Hu & Hueq & Hut & _ & Hd')].
  { subst d'. by rewrite Hsame. }
  subst d'. rewrite Hd'. clear Hd'.
  assert (sql_eq (User.id u') id ≠ true) as Hne.
  { intros Heq. destruct Hother as [[Hcaller Hguard] | Htn].
    - apply Hself, Hguard. by rewrite <- Hcaller.
    - apply Htn. rewrite <- Hut. f_equal.
      apply (NoDup_fmap_key User.id (users (tables w))); [done | done | done |].
      by rewrite <- (Hst _ _ Heq), <- (Hst _ _ Hueq). }
  split_and!.
  - rewrite users_after_status_change. apply list_elem_of_fmap. exists u'.
    split; [| done]. rewrite decide_False; [done |]. by intros [? _].
  - case_decide; [| done]. rewrite sessions_revoke_sessions_of.
    cbn [user_sessions update_user_status with_users].
    induction (user_sessions (tables w)) as [|x l IH]; [done |].
    rewrite fmap_cons, !filter_cons, IH.
    destruct (decide (sql_eq (Session.user_id x) id = true)) as [Hm|Hm]; [| done].
    rewrite deactivate_user_id.
    rewrite !decide_False; [done | |]; intros Heq; apply Hne; by rewrite <- Heq.
  - by case_decide.
  - by case_decide.
  - by case_decide.
  - by case_decide.
  - by case_decide.
Qed.

Lemma put_user_status_spares_other_tenants_witness :
  User.mk 1 1 "alice@acme.test" "Alice" "A" UserActive
    ∈ users (tables (snd (put_user_status (H := plain)
        (Principal.mk 3 "carol@globex.test" "Carol" "C" 2 "Globex" [])
        (PlainInt 1) (PlainStatus UserInactive) "10.0.0.1" 100
        (mk_world Demo.db [])))).
Proof.
  refine (proj1 (put_user_status_spares_other_tenants (H := plain)
            (Principal.mk 3 "carol@globex.test" "Carol" "C" 2 "Globex" [])
            (PlainInt 1) (PlainStatus UserInactive) "10.0.0.1" 100
            (mk_world Demo.db [])
            (User.mk 1 1 "alice@acme.test" "Alice" "A" UserActive) _ _ _ _)).
  - intros k [n|st] Heq; [| done]. cbn in Heq |- *. by apply bool_decide_eq_true_1 in Heq.
  - split; compute_done.
  - compute_done.
  - right. discriminate.
Defined.



Example dave_deactivates_himself :
  let w := snd (put_user_status (H := loose) GuardDemo.dave (Scientific 1 1)
                  (Word "inactive") "10.0.0.1" 100 (mk_world GuardDemo.db [])) in
  fst (put_user_status (H := loose) GuardDemo.dave (Scientific 1 1)
         (Word "inactive") "10.0.0.1" 100 (mk_world GuardDemo.db []))
  = mk_reply 200 (MessageBody "User deactivated successfully")
  ∧ users (tables w)
    = [User.mk 1 1 "alice@acme.test" "Alice" "A" UserActive;
       User.mk 2 2 "bob@globex.test" "Bob" "B" UserInactive;
       User.mk 3 2 "carol@globex.test" "Carol" "C" UserActive;
       User.mk 10 1 "dave@acme.test" "Dave" "D" UserInactive]
  ∧ user_sessions (tables w)
    = [Session.mk 1 2 "rt.bob" true 604800 0; Session.mk 2 1 "rt.alice" true 604800 0;
       Session.mk 3 10 "rt.dave" false 604800 100]
  ∧ fst (put_user_status (H := loose) GuardDemo.dave (Scientific 10 0)
           (Word "inactive") "10.0.0.1" 100 (mk_world GuardDemo.db []))
    = json_error 400 "Cannot change your own status".
Proof. by split_and!. Qed.

(** X15: setting a status other than the string ['inactive'] leaves
    [user_sessions] as it is; so after a deactivation, activating the user
    again restores no session: a refresh token whose rows are all the user's
    stays unusable until the user logs in anew. *)
Theorem reactivation_restores_no_session `{Untyped}
    user id st st' ip ip' now now' (w : world value) :
  eq_stores → inactive_stores →
  primary_keys (tables w) →
  js_string st = Some "inactive" →
  js_string st' ≠ Some "inactive" →
  status (fst (put_user_status user id st ip now w)) = 200 →
  let w1 := snd (put_user_status user id st ip now w) in
  let w2 := snd (put_user_status user id st' ip' now' w1) in
  user_sessions (tables w2) = user_sessions (tables w1)
  ∧ ∃ u, u ∈ users (tables w) ∧ sql_eq (User.id u) id = true
         ∧ ∀ token now'',
             (∀ x, x ∈ user_sessions (tables w) → Session.refresh_token x = token →
                   Session.user_id x = User.id u) →
             isSessionValid token now'' (tables w2) = false.
Proof.
  intros Hst Hin Hpk Hlit Hlit' Hok w1 w2.
  assert (user_sessions (tables w2) = user_sessions (tables w1)) as Hkeep.
  { subst w2.
    destruct (put_user_status_cases user id st' ip' now' w1)
      as [[-> _] | (_ & _ & _ & _ & _ & _ & ->)]; [done |].
    by rewrite decide_False. }
  split; [done |].
  destruct (put_user_status_cases user id st ip now w)
    as [[_ Hrej] | (u & _ & Hu & Hueq & Hut & _ & Hd1)]; [done |].
  exists u. split_and!; [done | done |]. intros token now'' Hown.
  unfold isSessionValid, select_active_session. rewrite Hkeep. fold w1 in Hd1.
  rewrite Hd1, decide_True by done.
  match goal with |- negb (bool_decide (length ?l = 0%nat)) = false =>
    destruct l as [|y rest] eqn:Hf; [done |] end.
  assert (y ∈ y :: rest) as Hy by left. rewrite <- Hf in Hy.
  apply list_elem_of_filter in Hy as [(Htok & Hact & _) Hy].
  rewrite sessions_revoke_sessions_of in Hy.
  apply list_elem_of_fmap in Hy as (x & -> & Hx).
  cbn [user_sessions update_user_status with_users] in Hx.
  destruct (decide (sql_eq (Session.user_id x) id = true)) as [Hm|Hm].
  - by rewrite deactivate_is_active in Hact.
  - destruct Hm. by rewrite (Hown x Hx Htok).
Qed.

Lemma reactivation_restores_no_session_witness :
  isSessionValid "rt.alice" 200
    (tables (snd (put_user_status (H := plain)
       (Principal.mk 7 "dave@acme.test" "Dave" "D" 1 "Acme" [])
       (PlainInt 1) (PlainStatus UserActive) "10.0.0.1" 150
       (snd (put_user_status (H := plain)
          (Principal.mk 7 "dave@acme.test" "Dave" "D" 1 "Acme" [])
          (PlainInt 1) (PlainStatus UserInactive) "10.0.0.1" 100
          (mk_world Demo.db [])))))) = false.
Proof.
  destruct (proj2 (reactivation_restores_no_session (H := plain)
              (Principal.mk 7 "dave@acme.test" "Dave" "D" 1 "Acme" [])
              (PlainInt 1) (PlainStatus UserInactive) (PlainStatus UserActive)
              "10.0.0.1" "10.0.0.1" 100 150 (mk_world Demo.db [])
              ltac:(intros k [n|st] Heq; [| done]; cbn in Heq |- *;
                    by apply bool_decide_eq_true_1 in Heq)
              ltac:(intros [n|[| |]] Heq; done)
              ltac:(split; compute_done)
              eq_refl ltac:(discriminate) eq_refl))
    as (u & Hu & Hueq & Hlock).
  apply Hlock. intros x Hx Htok. cbn in Hx, Hu.
  repeat (apply elem_of_cons in Hx as [-> | Hx]); try discriminate; [| inversion Hx].
  repeat (apply elem_of_cons in Hu as [-> | Hu]); try discriminate; [| inversion Hu].
  reflexivity.
Defined.

(** ** Logging in *)

Example login_demo :
  login Demo.env LoginDemo.codec 100 LoginDemo.email_eq LoginDemo.password_matches
    3 LoginDemo.request Demo.db
  = (LoginSuccessful (Account.mk 1 "alice@acme.test" "Alice" "A" 1 "Acme")
       "at.alice" "rt.alice.2",
     with_user_sessions Demo.db
       (user_sessions Demo.db ++ [Session.mk 3 1 "rt.alice.2" true 604900 100])).
Proof. reflexivity. Qed.

Example login_suspended_tenant :
  fst (login Demo.env LoginDemo.codec 100 LoginDemo.email_eq LoginDemo.password_matches
         3 (mk_login_request [] "carol@globex.test" "whatever" true) Demo.db)
  = LoginRefused (json_error 403 "Organization is suspended").
Proof. reflexivity. Qed.

Section LoginProperties.
Context (env : environment) (codec : jws_codec) (now : Z).
Context (email_eq : string → string → bool).
Context (password_matches : string → User.t → bool).

Lemma elem_of_select_user_by_email email d u tn :
  (u, tn) ∈ select_user_by_email email_eq email d →
  u ∈ users d ∧ tn ∈ tenants d ∧ Tenant.id tn = User.tenant_id u
  ∧ email_eq (User.email u) email = true ∧ User.status u = UserActive.
Proof.
  unfold select_user_by_email. intros Hrow.
  apply list_elem_of_bind in Hrow as (u' & Hrow & Hu).
  apply list_elem_of_bind in Hrow as (tn' & Hrow & Htn).
  case_decide as Hc; [| inversion Hrow].
  apply list_elem_of_singleton in Hrow as [= -> ->].
  destruct Hc as (? & ? & ?). by split_and!.
Qed.

(** The outcome of the handler, by cases. *)
Lemma login_run_cases insert_refused session_id req d :
  (snd (login_run env codec now email_eq password_matches insert_refused
          session_id req d) = []
   ∧ ∀ acct a r,
       fst (login_run env codec now email_eq password_matches insert_refused
              session_id req d)
       ≠ LoginSuccessful acct a r)
  ∨ ∃ u tn,
      insert_refused = false
      ∧ validation_errors req = []
      ∧ u ∈ users d ∧ User.status u = UserActive
      ∧ email_eq (User.email u) (login_email req) = true
      ∧ tn ∈ tenants d ∧ Tenant.id tn = User.tenant_id u
      ∧ Tenant.status tn = TenantActive
      ∧ password_matches (login_password req) u = true
      ∧ login_run env codec now email_eq password_matches insert_refused
          session_id req d
        = (LoginSuccessful
             (Account.mk (User.id u) (User.email u) (User.first_name u)
                (User.last_name u) (User.tenant_id u) (Tenant.name tn))
             (jwt_sign codec (User.id u) (User.tenant_id u) (JWT_SECRET env)
                (if rememberMe req then 30 * 86400 else 3600) now)
             (jwt_sign codec (User.id u) (User.tenant_id u) (JWT_REFRESH_SECRET env)
                (if rememberMe req then 90 * 86400 else 7 * 86400) now),
           [InsertSession session_id (User.id u)
              (jwt_sign codec (User.id u) (User.tenant_id u) (JWT_REFRESH_SECRET env)
                 (if rememberMe req then 90 * 86400 else 7 * 86400) now)
              (now + (if rememberMe req then 90 else 7) * 24 * 60 * 60) now;
            UpdateLastLogin (User.id u) now]).
Proof.
  unfold login_run. case_bool_decide as Herr; cbn [negb]; [| by left].
  destruct (select_user_by_email email_eq (login_email req) d)
    as [|[u tn] rows] eqn:Hrows; [by left |].
  destruct (decide (Tenant.status tn ≠ TenantActive)) as [|Hact]; [by left |].
  destruct (password_matches (login_password req) u) eqn:Hpw; cbn [negb];
    [| by left].
  destruct insert_refused; [by left |].
  right. exists u, tn.
  destruct (elem_of_select_user_by_email (login_email req) d u tn)
    as (? & ? & ? & ? & ?); [rewrite Hrows; left |].
  split_and!; try done. by destruct (Tenant.status tn); try done; destruct Hact.
Qed.

(** The outcome of [login], by cases. *)
Lemma login_cases session_id req d :
  (snd (login env codec now email_eq password_matches session_id req d) = d
   ∧ ∀ acct a r,
       fst (login env codec now email_eq password_matches session_id req d)
       ≠ LoginSuccessful acct a r)
  ∨ ∃ u tn,
      validation_errors req = []
      ∧ u ∈ users d ∧ User.status u = UserActive
      ∧ email_eq (User.email u) (login_email req) = true
      ∧ tn ∈ tenants d ∧ Tenant.id tn = User.tenant_id u
      ∧ Tenant.status tn = TenantActive
      ∧ password_matches (login_password req) u = true
      ∧ login env codec now email_eq password_matches session_id req d
        = (LoginSuccessful
             (Account.mk (User.id u) (User.email u) (User.first_name u)
                (User.last_name u) (User.tenant_id u) (Tenant.name tn))
             (jwt_sign codec (User.id u) (User.tenant_id u) (JWT_SECRET env)
                (if rememberMe req then 30 * 86400 else 3600) now)
             (jwt_sign codec (User.id u) (User.tenant_id u) (JWT_REFRESH_SECRET env)
                (if rememberMe req then 90 * 86400 else 7 * 86400) now),
           insert_session session_id (User.id u)
             (jwt_sign codec (User.id u) (User.tenant_id u) (JWT_REFRESH_SECRET env)
                (if rememberMe req then 90 * 86400 else 7 * 86400) now)
             (now + (if rememberMe req then 90 else 7) * 24 * 60 * 60) now d).
Proof.
  unfold login, login_run. case_bool_decide as Herr; cbn [negb]; [| by left].
  destruct (select_user_by_email email_eq (login_email req) d)
    as [|[u tn] rows] eqn:Hrows; [by left |].
  destruct (decide (Tenant.status tn ≠ TenantActive)) as [|Hact]; [by left |].
  destruct (password_matches (login_password req) u) eqn:Hpw; cbn [negb];
    [| by left].
  right. exists u, tn. cbn [fst snd foldl run_login_write].
  destruct (elem_of_select_user_by_email (login_email req) d u tn)
    as (? & ? & ? & ? & ?); [rewrite Hrows; left |].
  split_and!; try done. by destruct (Tenant.status tn); try done; destruct Hact.
Qed.

Lemma refresh_token_run now' req s token payload :
  truthy (body_refreshToken req) = Some token →
  jwt_verify codec token (JWT_REFRESH_SECRET env) now' = Returned payload →
  isSessionValid token now' (data s) = true →
  refresh_token env codec now' req s
  = (Returned (mk_reply 200 (AccessTokenBody
       (jwt_sign codec (userId payload) (tenantId payload) (JWT_SECRET env)
          (default 3600 (JWT_EXPIRES_IN env)) now'))),
     mk_store (data s) (log s ++ [SelectActiveSession token])).
Proof.
  intros Hbody Hver Hvalid. unfold refresh_token, try_catch. rewrite Hbody.
  unfold mbind, io_bind, throw_or_return. rewrite Hver.
  unfold db_select. cbn [data log]. unfold isSessionValid in Hvalid.
  by destruct (bool_decide (length (select_active_session token now' (data s)) = 0%nat)).
Qed.

End LoginProperties.

(** X16: [POST /auth/login] hands out tokens only to an active user of an
    active tenant whose e-mail and password match, and only for a request
    that passed validation and a session row that MySQL took; the tokens are
    signed for that user's id and tenant.  Such a login writes twice, in
    this order: a fresh, active session row of that user carrying the
    refresh token, and [last_login] of that user, set to the time of the
    login.  A login that hands out no tokens writes nothing. *)
Theorem login_succeeds_only_for_active_account
    env codec now email_eq password_matches insert_refused session_id req d :
  let answer := fst (login_run env codec now email_eq password_matches
                       insert_refused session_id req d) in
  let writes := snd (login_run env codec now email_eq password_matches
                       insert_refused session_id req d) in
  (∀ acct accessToken refreshToken,
     answer = LoginSuccessful acct accessToken refreshToken →
     insert_refused = false
     ∧ ∃ u tn,
       validation_errors req = []
       ∧ u ∈ users d ∧ User.status u = UserActive
       ∧ email_eq (User.email u) (login_email req) = true
       ∧ tn ∈ tenants d ∧ Tenant.id tn = User.tenant_id u
       ∧ Tenant.status tn = TenantActive
       ∧ password_matches (login_password req) u = true
       ∧ Account.id acct = User.id u ∧ Account.tenantId acct = User.tenant_id u
       ∧ accessToken
         = jwt_sign codec (User.id u) (User.tenant_id u) (JWT_SECRET env)
             (if rememberMe req then 30 * 86400 else 3600) now
       ∧ refreshToken
         = jwt_sign codec (User.id u) (User.tenant_id u) (JWT_REFRESH_SECRET env)
             (if rememberMe req then 90 * 86400 else 7 * 86400) now
       ∧ writes
         = [InsertSession session_id (User.id u) refreshToken
              (now + (if rememberMe req then 90 * 86400 else 7 * 86400)) now;
            UpdateLastLogin (User.id u) now]
       ∧ snd (login env codec now email_eq password_matches session_id req d)
         = with_user_sessions d
             (user_sessions d
              ++ [Session.mk session_id (User.id u) refreshToken true
                    (now + (if rememberMe req then 90 * 86400 else 7 * 86400)) now]))
  ∧ ((∀ acct accessToken refreshToken,
        answer ≠ LoginSuccessful acct accessToken refreshToken) →
     writes = [])
  ∧ ((∀ acct accessToken refreshToken,
        fst (login env codec now email_eq password_matches session_id req d)
        ≠ LoginSuccessful acct accessToken refreshToken) →
     snd (login env codec now email_eq password_matches session_id req d) = d).
Proof.
  intros answer writes. subst answer writes. split_and!.
  - destruct (login_run_cases env codec now email_eq password_matches insert_refused
                session_id req d)
      as [[_ Hno] | (u & tn & -> & ? & ? & ? & ? & ? & ? & ? & ? & Hrun)].
    { intros acct a r Hok. by destruct (Hno acct a r). }
    unfold login. rewrite Hrun. cbn [fst snd foldl run_login_write].
    intros acct a r [= <- <- <-]. split; [done |]. exists u, tn.
    replace (now + (if rememberMe req then 90 else 7) * 24 * 60 * 60)
      with (now + (if rememberMe req then 90 * 86400 else 7 * 86400))
      by (destruct (rememberMe req); lia).
    by split_and!.
  - destruct (login_run_cases env codec now email_eq password_matches insert_refused
                session_id req d)
      as [[Hnone _] | (u & tn & _ & _ & _ & _ & _ & _ & _ & _ & _ & Hrun)]; [done |].
    intros Hno. rewrite Hrun in Hno. by destruct (Hno _ _ _ eq_refl).
  - destruct (login_cases env codec now email_eq password_matches session_id req d)
      as [[Hsame _] | (u & tn & _ & _ & _ & _ & _ & _ & _ & _ & Hrun)]; [done |].
    intros Hno. rewrite Hrun in Hno. by destruct (Hno _ _ _ eq_refl).
Qed.

Lemma login_succeeds_only_for_active_account_witness :
  snd (login_run Demo.env LoginDemo.codec 100 LoginDemo.email_eq
         LoginDemo.password_matches false
         3 (mk_login_request [] "alice@acme.test" "wrong" false) Demo.db)
  = [].
Proof.
  refine (proj1 (proj2 (login_succeeds_only_for_active_account
            Demo.env LoginDemo.codec 100 LoginDemo.email_eq
            LoginDemo.password_matches false
            3 (mk_login_request [] "alice@acme.test" "wrong" false) Demo.db)) _).
  intros acct a r. vm_compute. discriminate.
Defined.

Example login_writes_session_and_last_login :
  login_run Demo.env LoginDemo.codec 100 LoginDemo.email_eq LoginDemo.password_matches
    false 3 LoginDemo.request Demo.db
  = (LoginSuccessful (Account.mk 1 "alice@acme.test" "Alice" "A" 1 "Acme")
       "at.alice" "rt.alice.2",
     [InsertSession 3 1 "rt.alice.2" 604900 100; UpdateLastLogin 1 100])
  ∧ login_run Demo.env LoginDemo.codec 100 LoginDemo.email_eq
      LoginDemo.password_matches true 3 LoginDemo.request Demo.db
    = (LoginRefused (json_error 500 "Login failed"), []).
Proof. by split. Qed.

(** X17: the refresh token a login hands out can be exchanged, at any time
    before it expires, for an access token signed for the same user id and
    tenant id, provided the codec reads back what it signed; the exchange
    sends the session lookup and nothing else. *)
Theorem login_then_refresh_round_trip
    env codec now email_eq password_matches session_id req d acct accessToken
    refreshToken now' l :
  fst (login env codec now email_eq password_matches session_id req d)
  = LoginSuccessful acct accessToken refreshToken →
  reads_back codec
    (mk_claims (Account.id acct) (Account.tenantId acct) now
       (now + (if rememberMe req then 90 * 86400 else 7 * 86400)))
    (JWT_REFRESH_SECRET env) →
  now' < now + (if rememberMe req then 90 * 86400 else 7 * 86400) →
  let d' := snd (login env codec now email_eq password_matches session_id req d) in
  refresh_token env codec now' (mk_request None (Some refreshToken)) (mk_store d' l)
  = (Returned (mk_reply 200 (AccessTokenBody
       (jwt_sign codec (Account.id acct) (Account.tenantId acct) (JWT_SECRET env)
          (default 3600 (JWT_EXPIRES_IN env)) now'))),
     mk_store d' (l ++ [SelectActiveSession refreshToken])).
Proof.
  intros Hok (Hne & Hdec & Hsig) Hnow' d'. subst d'.
  destruct (login_cases env codec now email_eq password_matches session_id req d)
    as [[_ Hno] | (u & tn & _ & _ & _ & _ & _ & _ & _ & _ & Hrun)];
    [by destruct (Hno acct accessToken refreshToken) |].
  rewrite Hrun in Hok |- *. cbn [fst snd] in Hok |- *.
  injection Hok as <- _ <-. cbn [Account.id Account.tenantId] in *.
  unfold jwt_sign in *.
  set (c := mk_claims (User.id u) (User.tenant_id u) now
              (now + (if rememberMe req then 90 * 86400 else 7 * 86400))) in *.
  set (rt := jws_sign codec c (JWT_REFRESH_SECRET env)) in *.
  rewrite (refresh_token_run env codec now' _ _ rt c); [done | | |].
  - cbn. by rewrite decide_False.
  - apply jwt_verify_returns. by split_and!.
  - cbn [data]. apply isSessionValid_true. eexists. split_and!.
    + unfold insert_session. cbn [user_sessions with_user_sessions].
      apply elem_of_app. right. left.
    + done.
    + done.
    + cbn. destruct (rememberMe req); lia.
Qed.

Lemma login_then_refresh_round_trip_witness :
  refresh_token Demo.env LoginDemo.codec 5000
    (mk_request None (Some "rt.alice.2"))
    (mk_store (snd (login Demo.env LoginDemo.codec 100 LoginDemo.email_eq
                      LoginDemo.password_matches 3 LoginDemo.request Demo.db)) [])
  = (Returned (mk_reply 200 (AccessTokenBody
       (jwt_sign LoginDemo.codec 1 1 "access-secret" 3600 5000))),
     mk_store (snd (login Demo.env LoginDemo.codec 100 LoginDemo.email_eq
                      LoginDemo.password_matches 3 LoginDemo.request Demo.db))
       [SelectActiveSession "rt.alice.2"]).
Proof.
  apply (login_then_refresh_round_trip Demo.env LoginDemo.codec 100
           LoginDemo.email_eq LoginDemo.password_matches 3 LoginDemo.request Demo.db
           (Account.mk 1 "alice@acme.test" "Alice" "A" 1 "Acme")
           "at.alice" "rt.alice.2" 5000 []).
  - reflexivity.
  - unfold reads_back. split_and!; [discriminate | reflexivity | reflexivity].
  - simpl. lia.
Defined.

(** X18: the access token a login hands out authenticates, at any time before
    it expires, as the user who logged in: [verifyToken] attaches a principal
    with that user's id, e-mail, tenant id and tenant name, provided the
    codec reads back what it signed. *)
Theorem login_then_authenticate
    env codec now email_eq password_matches session_id req d acct accessToken
    refreshToken now' hreq l :
  fst (login env codec now email_eq password_matches session_id req d)
  = LoginSuccessful acct accessToken refreshToken →
  reads_back codec
    (mk_claims (Account.id acct) (Account.tenantId acct) now
       (now + (if rememberMe req then 30 * 86400 else 3600)))
    (JWT_SECRET env) →
  primary_keys d →
  now' < now + (if rememberMe req then 30 * 86400 else 3600) →
  bearer hreq = Some accessToken →
  let d' := snd (login env codec now email_eq password_matches session_id req d) in
  ∃ p s',
    verifyToken env codec now' hreq (mk_store d' l) = (Returned (Proceed p), s')
    ∧ Principal.id p = Account.id acct
    ∧ Principal.email p = Account.email acct
    ∧ Principal.tenantId p = Account.tenantId acct
    ∧ Principal.tenantName p = Account.tenantName acct.
Proof.
  intros Hok (Hne & Hdec & Hsig) Hpk Hnow' Hbearer d'. subst d'.
  destruct (login_cases env codec now email_eq password_matches session_id req d)
    as [[_ Hno] | (u & tn & _ & Hu & Hust & _ & Htn & Htid & Htst & _ & Hrun)];
    [by destruct (Hno acct accessToken refreshToken) |].
  rewrite Hrun in Hok |- *. cbn [fst snd] in Hok |- *.
  injection Hok as <- <- _. cbn [Account.id Account.tenantId Account.email
    Account.tenantName] in *.
  unfold jwt_sign in *.
  set (c := mk_claims (User.id u) (User.tenant_id u) now
              (now + (if rememberMe req then 30 * 86400 else 3600))) in *.
  set (tok := jws_sign codec c (JWT_SECRET env)) in *.
  assert (truthy (bearer hreq) = Some tok) as Htok.
  { rewrite Hbearer. cbn. by rewrite decide_False. }
  assert (jwt_verify codec tok (JWT_SECRET env) now' = Returned c) as Hver.
  { apply jwt_verify_returns. by split_and!. }
  rewrite (verifyToken_verified env codec now' hreq _ tok c Htok Hver).
  unfold after_verify. cbn [data log].
  rewrite (select_user_join_tenant_found _ _ u tn); try done.
  cbn [UserRow.join UserRow.tenant_status UserRow.id UserRow.tenant_id
       UserRow.email UserRow.tenant_name].
  rewrite decide_False by (rewrite Htst; intros Hx; by apply Hx).
  eexists _, _. split; [reflexivity |]. cbn. by split_and!.
Qed.

Lemma login_then_authenticate_witness :
  ∃ p s',
    verifyToken Demo.env LoginDemo.codec 200 (Demo.with_bearer "at.alice")
      (mk_store (snd (login Demo.env LoginDemo.codec 100 LoginDemo.email_eq
                        LoginDemo.password_matches 3 LoginDemo.request Demo.db)) [])
    = (Returned (Proceed p), s')
    ∧ Principal.id p = 1 ∧ Principal.email p = "alice@acme.test"
    ∧ Principal.tenantId p = 1 ∧ Principal.tenantName p = "Acme".
Proof.
  apply (login_then_authenticate Demo.env LoginDemo.codec 100
           LoginDemo.email_eq LoginDemo.password_matches 3 LoginDemo.request Demo.db
           (Account.mk 1 "alice@acme.test" "Alice" "A" 1 "Acme")
           "at.alice" "rt.alice.2" 200 (Demo.with_bearer "at.alice") []).
  - reflexivity.
  - unfold reads_back. split_and!; [discriminate | reflexivity | reflexivity].
  - split; compute_done.
  - simpl. lia.
  - reflexivity.
Defined.

(** ** The slug of an organisation *)

Example slug_of_acme :
  organization_slug ascii_toLowerCase "  Acme & Sons, Ltd. " 1700000000000
  = "acme-sons-ltd-1700000000000".
Proof. vm_compute. reflexivity. Qed.

Example slug_of_symbols :
  organization_slug ascii_toLowerCase "***" 1700000000000 = "-1700000000000".
Proof. vm_compute. reflexivity. Qed.

Lemma dash_is_no_slug_char : is_slug_char "-"%char = false.
Proof. reflexivity. Qed.

Lemma dash_runs_single (in_run : bool) (s : string) :
  single_dashes (negb in_run) (dash_runs in_run s) = true.
Proof.
  revert in_run. induction s as [|c s IH]; intros in_run; [done |].
  cbn [dash_runs]. destruct (is_slug_char c) eqn:Hc.
  - cbn [single_dashes]. rewrite Hc. apply (IH false).
  - destruct in_run.
    + apply (IH true).
    + cbn [single_dashes]. rewrite dash_is_no_slug_char.
      rewrite decide_True by done. apply (IH true).
Qed.

Lemma drop_leading_dash_single (s : string) :
  single_dashes true s = true → single_dashes false (drop_leading_dash s) = true.
Proof.
  destruct s as [|c s]; [done |]. unfold drop_leading_dash.
  destruct (decide (c = "-"%char)) as [->|Hc].
  - cbn [single_dashes]. rewrite dash_is_no_slug_char.
    rewrite decide_True by done. by intros [_ ?]%andb_true_iff.
  - cbn [single_dashes]. destruct (is_slug_char c); [done |].
    by rewrite decide_False.
Qed.

Lemma drop_trailing_dash_empty (s : string) :
  drop_trailing_dash s = EmptyString → s = EmptyString ∨ s = "-".
Proof.
  destruct s as [|c [|c' s]]; cbn [drop_trailing_dash]; [by left | | done].
  destruct (decide (c = "-"%char)) as [->|]; [by right | done].
Qed.

Lemma drop_trailing_dash_words (after_char : bool) (s : string) :
  single_dashes after_char s = true →
  drop_trailing_dash s = EmptyString
  ∨ dashed_words after_char (drop_trailing_dash s) = true.
Proof.
  revert after_char. induction s as [|c s IH]; intros after_char; [by left |].
  cbn [single_dashes]. destruct (is_slug_char c) eqn:Hc.
  - intros Hs. right. destruct s as [|c' s'].
    + cbn [drop_trailing_dash]. rewrite decide_False.
      * cbn. by rewrite Hc.
      * intros ->. by rewrite dash_is_no_slug_char in Hc.
    + change (drop_trailing_dash (String c (String c' s')))
        with (String c (drop_trailing_dash (String c' s'))).
      cbn [dashed_words]. rewrite Hc.
      destruct (IH true Hs) as [-> | ->]; done.
  - destruct (decide (c = "-"%char)) as [->|]; [| done].
    intros [-> Hs]%andb_true_iff. destruct s as [|c' s'].
    + left. cbn. by rewrite decide_True.
    + right.
      change (drop_trailing_dash (String "-" (String c' s')))
        with (String "-"%char (drop_trailing_dash (String c' s'))).
      cbn [dashed_words]. rewrite dash_is_no_slug_char, decide_True by done.
      destruct (IH false Hs) as [Hempty | ->]; [| done].
      apply drop_trailing_dash_empty in Hempty as [? | Hdash]; [done |].
      rewrite Hdash in Hs. cbn in Hs. by rewrite decide_True in Hs.
Qed.

(** X19: whatever the name of the organisation, the part of the slug before
    the timestamp is empty or made of words of lower-case letters and digits
    joined by single dashes: no other character, no dash first or last, no
    two dashes in a row. *)
Theorem slug_base_is_dashed_words (toLowerCase : string → string) (name : string) :
  well_formed_slug (slug_base toLowerCase name) = true.
Proof.
  unfold slug_base, trim_dashes.
  pose proof (dash_runs_single false (toLowerCase name)) as Hs. cbn [negb] in Hs.
  apply drop_leading_dash_single in Hs.
  destruct (drop_trailing_dash_words false _ Hs) as [-> | Hw]; [done |].
  unfold well_formed_slug.
  by destruct (drop_trailing_dash (drop_leading_dash (dash_runs false (toLowerCase name)))).
Qed.

Lemma single_dashes_fixed (after_char : bool) (s : string) :
  single_dashes after_char s = true → dash_runs (negb after_char) s = s.
Proof.
  revert after_char. induction s as [|c s IH]; intros after_char; [done |].
  cbn [single_dashes dash_runs]. destruct (is_slug_char c) eqn:Hc.
  - intros Hs. pose proof (IH true Hs) as E. cbn [negb] in E. by rewrite E.
  - destruct (decide (c = "-"%char)) as [->|]; [| done].
    intros [-> Hs]%andb_true_iff. cbn [negb].
    pose proof (IH false Hs) as E. cbn [negb] in E. by rewrite E.
Qed.

Lemma dashed_words_single (after_char : bool) (s : string) :
  dashed_words after_char s = true → single_dashes after_char s = true.
Proof.
  revert after_char. induction s as [|c s IH]; intros after_char; [done |].
  cbn [single_dashes dashed_words]. destruct (is_slug_char c); [apply IH |].
  destruct (decide (c = "-"%char)); [| done].
  intros [-> Hs]%andb_true_iff. by rewrite (IH false Hs).
Qed.

Lemma dashed_words_no_trailing_dash (after_char : bool) (s : string) :
  dashed_words after_char s = true → drop_trailing_dash s = s.
Proof.
  revert after_char. induction s as [|c s IH]; intros after_char; [done |].
  cbn [dashed_words]. destruct (is_slug_char c) eqn:Hc.
  - intros Hs. destruct s as [|c' s'].
    + cbn. rewrite decide_False; [done |].
      intros ->. by rewrite dash_is_no_slug_char in Hc.
    + change (drop_trailing_dash (String c (String c' s')))
        with (String c (drop_trailing_dash (String c' s'))).
      by rewrite (IH true Hs).
  - destruct (decide (c = "-"%char)) as [->|]; [| done].
    intros [-> Hs]%andb_true_iff. destruct s as [|c' s']; [done |].
    change (drop_trailing_dash (String "-" (String c' s')))
      with (String "-"%char (drop_trailing_dash (String c' s'))).
    by rewrite (IH false Hs).
Qed.

Lemma well_formed_slug_fixed (s : string) :
  well_formed_slug s = true → trim_dashes (dash_runs false s) = s.
Proof.
  destruct s as [|c s]; [done |]. cbn [well_formed_slug]. intros Hw.
  pose proof (single_dashes_fixed false _ (dashed_words_single _ _ Hw)) as Hruns.
  assert (dash_runs false (String c s) = String c s) as ->.
  { cbn [dashed_words] in Hw. cbn [dash_runs].
    destruct (is_slug_char c) eqn:Hc.
    - pose proof (single_dashes_fixed true s (dashed_words_single _ _ Hw)) as E.
      cbn [negb] in E. by rewrite E.
    - by destruct (decide (c = "-"%char)). }
  unfold trim_dashes, drop_leading_dash.
  destruct (decide (c = "-"%char)) as [->|].
  - cbn in Hw. by rewrite decide_True in Hw.
  - by apply (dashed_words_no_trailing_dash false).
Qed.

(** X20: a string that already is such a slug is left as it is by the two
    replacements; so, where lower-casing leaves slugs alone, taking the slug
    of a slug changes nothing. *)
Theorem slug_base_idempotent (toLowerCase : string → string) (name : string) :
  let slug := slug_base toLowerCase name in
  toLowerCase slug = slug → slug_base toLowerCase slug = slug.
Proof.
  intros slug Hlow. unfold slug_base at 1. rewrite Hlow.
  apply well_formed_slug_fixed. subst slug. unfold slug_base, trim_dashes.
  pose proof (dash_runs_single false (toLowerCase name)) as Hs. cbn [negb] in Hs.
  apply drop_leading_dash_single in Hs.
  destruct (drop_trailing_dash_words false _ Hs) as [-> | Hw]; [done |].
  unfold well_formed_slug.
  by destruct (drop_trailing_dash (drop_leading_dash (dash_runs false (toLowerCase name)))).
Qed.

Lemma slug_base_idempotent_witness :
  slug_base ascii_toLowerCase (slug_base ascii_toLowerCase "  Acme & Sons, Ltd. ")
  = slug_base ascii_toLowerCase "  Acme & Sons, Ltd. ".
Proof.
  apply (slug_base_idempotent ascii_toLowerCase "  Acme & Sons, Ltd. ").
  vm_compute. reflexivity.
Defined.

Lemma dash_runs_no_slug_char (s : string) :
  has_slug_char s = false →
  dash_runs true s = EmptyString
  ∧ (dash_runs false s = EmptyString ∨ dash_runs false s = "-").
Proof.
  induction s as [|c s IH]; [by split; [| left] |].
  cbn [has_slug_char dash_runs]. intros [Hc Hs]%orb_false_iff. rewrite Hc.
  destruct (IH Hs) as [-> _]. by split; [| right].
Qed.

(** X21: a name in which lower-casing leaves no letter of [a-z] and no digit
    (a name in another script, or of symbols only) has an empty slug part:
    its slug is a dash followed by the timestamp, and that of every such
    name registered in the same millisecond is the same. *)
Theorem slug_without_letters_is_timestamp
    (toLowerCase : string → string) (name : string) (millis : Z) :
  has_slug_char (toLowerCase name) = false →
  organization_slug toLowerCase name millis = "-" +:+ pretty millis.
Proof.
  intros Hno. unfold organization_slug, slug_base.
  by destruct (dash_runs_no_slug_char _ Hno) as [_ [-> | ->]].
Qed.

Lemma slug_without_letters_is_timestamp_witness :
  organization_slug ascii_toLowerCase "***" 1700000000000 = "-1700000000000".
Proof.
  apply (slug_without_letters_is_timestamp ascii_toLowerCase "***" 1700000000000).
  reflexivity.
Defined.

(** ** Registering an organisation *)

Example register_demo :
  fst (register Demo.env RegisterDemo.codec 100 LoginDemo.email_eq None
         RegisterDemo.keys RegisterDemo.request Demo.db)
  = Registered (Account.mk 4 "erin@initech.test" "Erin" "E" 3 "Initech")
      "at.erin" "rt.erin".
Proof. reflexivity. Qed.

Example register_known_email :
  register Demo.env RegisterDemo.codec 100 LoginDemo.email_eq None RegisterDemo.keys
    (mk_register_request [] "bob@globex.test" "s3cret-pass" "Bob" "B" "Initech")
    Demo.db
  = (RegisterRefused (json_error 400 "Email already registered"), Demo.db).
Proof. reflexivity. Qed.

Section RegisterProperties.
Context (env : environment) (codec : jws_codec) (now : Z).
Context (email_eq : string → string → bool).
Context (JWT_REFRESH_EXPIRES_IN : option Z).

(** The store after a registration that went through. *)
Lemma register_cases keys req d :
  (snd (register env codec now email_eq JWT_REFRESH_EXPIRES_IN keys req d) = d
   ∧ ∀ acct a r,
       fst (register env codec now email_eq JWT_REFRESH_EXPIRES_IN keys req d)
       ≠ Registered acct a r)
  ∨ (reg_validation_errors req = []
     ∧ (∀ u, u ∈ users d → email_eq (User.email u) (reg_email req) ≠ true)
     ∧ register env codec now email_eq JWT_REFRESH_EXPIRES_IN keys req d
       = (Registered
            (Account.mk (new_user_id keys) (reg_email req) (reg_firstName req)
               (reg_lastName req) (new_tenant_id keys) (organizationName req))
            (jwt_sign codec (new_user_id keys) (new_tenant_id keys) (JWT_SECRET env)
               (default 3600 (JWT_EXPIRES_IN env)) now)
            (jwt_sign codec (new_user_id keys) (new_tenant_id keys)
               (JWT_REFRESH_SECRET env)
               (default (7 * 86400) JWT_REFRESH_EXPIRES_IN) now),
          mk_database
            (tenants d
             ++ [Tenant.mk (new_tenant_id keys) (organizationName req) TenantActive])
            (users d
             ++ [User.mk (new_user_id keys) (new_tenant_id keys) (reg_email req)
                   (reg_firstName req) (reg_lastName req) UserActive])
            (roles d ++ [Role.mk (new_admin_role_id keys) (new_tenant_id keys) "Admin" true]
             ++ [Role.mk (new_manager_role_id keys) (new_tenant_id keys) "Manager" true;
                 Role.mk (new_member_role_id keys) (new_tenant_id keys) "Member" true])
            (permissions d)
            (role_permissions d
             ++ ((λ perm, RolePermission.mk (new_admin_role_id keys) (Permission.id perm))
                   <$> permissions d))
            (user_roles d ++ [UserRole.mk (new_user_id keys) (new_admin_role_id keys)])
            (user_sessions d
             ++ [Session.mk (new_session_id keys) (new_user_id keys)
                   (jwt_sign codec (new_user_id keys) (new_tenant_id keys)
                      (JWT_REFRESH_SECRET env)
                      (default (7 * 86400) JWT_REFRESH_EXPIRES_IN) now)
                   true (now + 7 * 24 * 60 * 60) now]))).
Proof.
  unfold register, register_run. case_bool_decide as Herr; cbn [negb]; [| by left].
  case_bool_decide as Hex; cbn [negb]; [| by left].
  right. split_and!; [done | | done].
  intros u Hu Heq.
  assert (u ∈ filter (λ u, email_eq (User.email u) (reg_email req) = true) (users d))
    as Hin by by apply list_elem_of_filter.
  destruct (filter _ (users d)); [inversion Hin | done].
Qed.

End RegisterProperties.

Lemma not_elem_of_fmap_key {A} (key : A → Z) (l : list A) (x : A) (k : Z) :
  k ∉ (key <$> l) → x ∈ l → key x ≠ k.
Proof. intros Hk Hx <-. apply Hk. by apply list_elem_of_fmap_2. Qed.

(** X22: the founder of a newly registered organisation is its
    administrator.  With the access token the registration hands out, and
    until it expires, [verifyToken] attaches a principal of the new user in
    the new tenant whose permissions are the names of all the permissions
    there are, provided the keys handed out were unused and the codec reads
    back what it signed. *)
Theorem registration_makes_founder_admin
    env codec now email_eq refresh_ttl keys req d acct accessToken refreshToken
    now' hreq l :
  fst (register env codec now email_eq refresh_ttl keys req d)
  = Registered acct accessToken refreshToken →
  reads_back codec
    (mk_claims (new_user_id keys) (new_tenant_id keys) now
       (now + default 3600 (JWT_EXPIRES_IN env)))
    (JWT_SECRET env) →
  primary_keys d → keys_unused keys d →
  now' < now + default 3600 (JWT_EXPIRES_IN env) →
  bearer hreq = Some accessToken →
  let d' := snd (register env codec now email_eq refresh_ttl keys req d) in
  ∃ p s',
    verifyToken env codec now' hreq (mk_store d' l) = (Returned (Proceed p), s')
    ∧ Principal.id p = new_user_id keys
    ∧ Principal.tenantId p = new_tenant_id keys
    ∧ Principal.tenantName p = organizationName req
    ∧ ∀ name, name ∈ Principal.permissions p
              ↔ ∃ perm, perm ∈ permissions d ∧ Permission.name perm = name.
Proof.
  intros Hok (Hne & Hdec & Hsig) [Hpkt Hpku] (Hft & Hfu & _) Hnow' Hbearer d'.
  subst d'.
  destruct (register_cases env codec now email_eq refresh_ttl keys req d)
    as [[_ Hno] | (_ & _ & Hrun)];
    [by destruct (Hno acct accessToken refreshToken) |].
  rewrite Hrun in Hok |- *. cbn [fst snd] in Hok |- *.
  injection Hok as _ <- _. unfold jwt_sign in Hbearer |- *.
  set (c := mk_claims (new_user_id keys) (new_tenant_id keys) now
              (now + default 3600 (JWT_EXPIRES_IN env))) in *.
  set (tok := jws_sign codec c (JWT_SECRET env)) in *.
  set (u := User.mk (new_user_id keys) (new_tenant_id keys) (reg_email req)
              (reg_firstName req) (reg_lastName req) UserActive).
  set (tn := Tenant.mk (new_tenant_id keys) (organizationName req) TenantActive).
  match goal with |- context [mk_store ?db l] => set (d' := db) end.
  assert (truthy (bearer hreq) = Some tok) as Htok.
  { rewrite Hbearer. cbn. by rewrite decide_False. }
  assert (jwt_verify codec tok (JWT_SECRET env) now' = Returned c) as Hver.
  { apply jwt_verify_returns. by split_and!. }
  rewrite (verifyToken_verified env codec now' hreq _ tok c Htok Hver).
  unfold after_verify. cbn [data log].
  rewrite (select_user_join_tenant_found d' (userId c) u tn).
  - cbn [UserRow.join UserRow.tenant_status UserRow.id UserRow.tenant_id
         UserRow.email UserRow.tenant_name tn Tenant.status].
    rewrite decide_False by (intros Hx; by apply Hx).
    eexists _, _. split; [reflexivity |]. cbn [Principal.id Principal.tenantId
      Principal.tenantName Principal.permissions]. split_and!; try done.
    intros name. rewrite elem_of_select_permission_names. split.
    + intros (_ & _ & perm & _ & _ & _ & _ & Hperm & _ & Hname). by exists perm.
    + intros (perm & Hperm & Hname).
      exists (UserRole.mk (new_user_id keys) (new_admin_role_id keys)),
             (RolePermission.mk (new_admin_role_id keys) (Permission.id perm)), perm.
      subst d'. cbn [user_roles role_permissions permissions].
      split_and!; try done.
      * apply elem_of_app. right. left.
      * apply elem_of_app. right. apply list_elem_of_fmap. by exists perm.
  - subst d'. split; cbn [tenants users]; rewrite fmap_app; apply NoDup_app;
      (split_and!; [done | | apply NoDup_singleton]);
      intros k Hk Hk'; apply list_elem_of_singleton in Hk'; by subst k.
  - subst d'. cbn [users]. apply elem_of_app. right. left.
  - done.
  - done.
  - subst d'. cbn [tenants]. apply elem_of_app. right. left.
  - done.
Qed.

Lemma registration_makes_founder_admin_witness :
  ∃ p s',
    verifyToken Demo.env RegisterDemo.codec 200 (Demo.with_bearer "at.erin")
      (mk_store (snd (register Demo.env RegisterDemo.codec 100 LoginDemo.email_eq None
                        RegisterDemo.keys RegisterDemo.request Demo.db)) [])
    = (Returned (Proceed p), s')
    ∧ Principal.id p = 4 ∧ Principal.tenantId p = 3
    ∧ Principal.tenantName p = "Initech"
    ∧ ∀ name, name ∈ Principal.permissions p
              ↔ ∃ perm, perm ∈ permissions Demo.db ∧ Permission.name perm = name.
Proof.
  apply (registration_makes_founder_admin Demo.env RegisterDemo.codec 100
           LoginDemo.email_eq None RegisterDemo.keys RegisterDemo.request Demo.db
           (Account.mk 4 "erin@initech.test" "Erin" "E" 3 "Initech")
           "at.erin" "rt.erin" 200 (Demo.with_bearer "at.erin") []).
  - reflexivity.
  - unfold reads_back. split_and!; [discriminate | reflexivity | reflexivity].
  - split; compute_done.
  - split_and!; compute_done.
  - simpl. lia.
  - reflexivity.
Defined.

(** The store a registration leaves, whatever fails. *)
Lemma register_run_cases env codec now email_eq refresh_ttl fault keys req d :
  (snd (register_run env codec now email_eq refresh_ttl fault keys req d) = d
   ∧ (reg_validation_errors req ≠ []
      ∨ (∃ u, u ∈ users d ∧ email_eq (User.email u) (reg_email req) = true)
      ∨ fault = Some InTransaction))
  ∨ (reg_validation_errors req = []
     ∧ (∀ u, u ∈ users d → email_eq (User.email u) (reg_email req) ≠ true)
     ∧ ((fault = None
         ∧ register_run env codec now email_eq refresh_ttl fault keys req d
           = register env codec now email_eq refresh_ttl keys req d)
        ∨ (fault = Some AfterCommit
           ∧ register_run env codec now email_eq refresh_ttl fault keys req d
             = (RegisterRefused (json_error 500 "Registration failed"),
                with_user_sessions
                  (snd (register env codec now email_eq refresh_ttl keys req d))
                  (user_sessions d))))).
Proof.
  unfold register, register_run.
  case_bool_decide as Herr; cbn [negb]; [| left; split; [done | by left]].
  case_bool_decide as Hex; cbn [negb].
  - assert (∀ u, u ∈ users d → email_eq (User.email u) (reg_email req) ≠ true) as Hnew.
    { intros u Hu Heq.
      assert (u ∈ filter (λ u, email_eq (User.email u) (reg_email req) = true) (users d))
        as Hin by by apply list_elem_of_filter.
      destruct (filter _ (users d)); [inversion Hin | done]. }
    destruct fault as [[|]|].
    + left. split; [done |]. right. by right.
    + right. split_and!; [done | done |]. right. by split.
    + right. split_and!; [done | done |]. left. by split.
  - left. split; [done |]. right. left.
    destruct (filter _ (users d)) as [|u l] eqn:Hf; [done |].
    exists u. assert (u ∈ u :: l) as Hin by left. rewrite <- Hf in Hin.
    apply list_elem_of_filter in Hin as [? ?]. by split.
Qed.

(** X23: a registration keeps the store well formed, whether it goes through
    or fails and wherever it fails: if the keys handed out were unused, then
    the primary keys of [tenants] and [users], the foreign keys of
    [user_roles], and the rule that every assignment gives a user a role of
    the user's own tenant all hold after it when they held before.  A
    request that fails validation or names a known e-mail, and one that
    fails within the transaction, write nothing.  One that fails after the
    commit is answered 500 "Registration failed" although the organisation,
    its roles and its founder are written: the store is that of the
    registration gone through, less the session row. *)
Theorem registration_keeps_store_well_formed
    env codec now email_eq refresh_ttl fault keys req d :
  keys_unused keys d →
  primary_keys d → user_roles_foreign_keys d → assignments_within_tenant d →
  let answer := fst (register_run env codec now email_eq refresh_ttl fault keys req d) in
  let d' := snd (register_run env codec now email_eq refresh_ttl fault keys req d) in
  primary_keys d' ∧ user_roles_foreign_keys d' ∧ assignments_within_tenant d'
  ∧ (reg_validation_errors req ≠ []
     ∨ (∃ u, u ∈ users d ∧ email_eq (User.email u) (reg_email req) = true)
     ∨ fault = Some InTransaction →
     d' = d ∧ ∀ acct a r, answer ≠ Registered acct a r)
  ∧ (reg_validation_errors req = [] →
     (∀ u, u ∈ users d → email_eq (User.email u) (reg_email req) ≠ true) →
     fault = Some AfterCommit →
     answer = RegisterRefused (json_error 500 "Registration failed")
     ∧ d' = with_user_sessions
              (snd (register env codec now email_eq refresh_ttl keys req d))
              (user_sessions d)
     ∧ users d' = (users d
                   ++ [User.mk (new_user_id keys) (new_tenant_id keys) (reg_email req)
                         (reg_firstName req) (reg_lastName req) UserActive])%list).
Proof.
  intros (Hft & Hfu & Hfr) [Hpkt Hpku] Hfk Hinv answer d'. subst answer d'.
  assert (let d1 := snd (register env codec now email_eq refresh_ttl keys req d) in
          primary_keys d1 ∧ user_roles_foreign_keys d1 ∧ assignments_within_tenant d1)
    as Hreg.
  { destruct (register_cases env codec now email_eq refresh_ttl keys req d)
      as [[-> _] | (_ & _ & Hrun)]; [by split_and! |].
    rewrite Hrun. cbn [fst snd]. split_and!.
    - split; cbn [tenants users]; rewrite fmap_app; apply NoDup_app;
        (split_and!; [done | | apply NoDup_singleton]);
        intros k Hk Hk'; apply list_elem_of_singleton in Hk'; by subst k.
    - intros ur Hur. cbn [user_roles users roles] in Hur |- *.
      rewrite !fmap_app, !elem_of_app.
      apply elem_of_app in Hur as [Hur | Hur].
      + destruct (Hfk ur Hur) as [? ?]. split; by left.
      + apply list_elem_of_singleton in Hur as ->. cbn.
        split; [right | right; left]; apply list_elem_of_here.
    - intros ur u Hur Hu Hid. cbn [user_roles users roles] in Hur, Hu |- *.
      apply elem_of_app in Hur as [Hur | Hur]; apply elem_of_app in Hu as [Hu | Hu].
      + destruct (Hinv ur u Hur Hu Hid) as (r & Hr & ? & ?).
        exists r. split_and!; [| done | done].
        apply elem_of_app. by left.
      + apply list_elem_of_singleton in Hu as ->. cbn in Hid.
        destruct (Hfk ur Hur) as [Hin _]. rewrite <- Hid in Hin. by destruct Hfu.
      + apply list_elem_of_singleton in Hur as ->. cbn in Hid.
        by destruct (not_elem_of_fmap_key User.id (users d) u _ Hfu Hu).
      + apply list_elem_of_singleton in Hur as ->.
        apply list_elem_of_singleton in Hu as ->.
        exists (Role.mk (new_admin_role_id keys) (new_tenant_id keys) "Admin" true).
        split_and!; [| done | done].
        apply elem_of_app. right. left. }
  destruct Hreg as (Hreg1 & Hreg2 & Hreg3).
  destruct (register_run_cases env codec now email_eq refresh_ttl fault keys req d)
    as [[Hsame Hwhy] | (Hval & Hnew & [[-> Hrun] | [-> Hrun]])].
  - rewrite Hsame. split_and!; try done.
    + intros _. split; [done |]. intros acct a r Hok.
      unfold register_run in Hok. destruct Hwhy as [Herr | [(u & Hu & Heq) | ->]].
      * by rewrite bool_decide_eq_false_2 in Hok.
      * case_bool_decide; cbn [negb] in Hok; [| done].
        rewrite (elem_of_length_nonzero _ u) in Hok; [done |].
        by apply list_elem_of_filter.
      * case_bool_decide; cbn [negb] in Hok; [| done].
        by case_bool_decide.
    + intros Hval Hnew ->. destruct Hwhy as [? | [(u & Hu & Heq) | [=]]]; [done |].
      by destruct (Hnew u Hu).
  - rewrite Hrun. split_and!; try done.
    intros [? | [(u & Hu & Heq) | [=]]]; [done |]. by destruct (Hnew u Hu).
  - rewrite Hrun. cbn [fst snd]. split_and!; try done.
    + intros [? | [(u & Hu & Heq) | [=]]]; [done |]. by destruct (Hnew u Hu).
    + intros _ _ _. split_and!; [done | done |].
      destruct (register_cases env codec now email_eq refresh_ttl keys req d)
        as [[_ Hno] | (_ & _ & Hreg)]; [| by rewrite Hreg].
      exfalso. unfold register, register_run in Hno.
      rewrite bool_decide_eq_true_2 in Hno by done. cbn [negb] in Hno.
      case_bool_decide as Hex; cbn [negb] in Hno; [by destruct (Hno _ _ _ eq_refl) |].
      destruct (filter _ (users d)) as [|u l] eqn:Hf; [done |].
      assert (u ∈ u :: l) as Hin by left. rewrite <- Hf in Hin.
      apply list_elem_of_filter in Hin as [? ?]. by destruct (Hnew u).
Qed.

Lemma registration_keeps_store_well_formed_witness :
  primary_keys (snd (register_run Demo.env RegisterDemo.codec 100 LoginDemo.email_eq None
                       (Some AfterCommit)
                       RegisterDemo.keys RegisterDemo.request Demo.db_scoped))
  ∧ assignments_within_tenant
      (snd (register_run Demo.env RegisterDemo.codec 100 LoginDemo.email_eq None
              (Some AfterCommit)
              RegisterDemo.keys RegisterDemo.request Demo.db_scoped)).
Proof.
  pose proof (registration_keeps_store_well_formed
                Demo.env RegisterDemo.codec 100 LoginDemo.email_eq None
                (Some AfterCommit)
                RegisterDemo.keys RegisterDemo.request Demo.db_scoped) as Hkeep.
  refine ((λ H, conj (proj1 H) (proj1 (proj2 (proj2 H)))) (Hkeep _ _ _ _)).
  - split_and!; compute_done.
  - split; compute_done.
  - intros ur Hur. cbn in Hur. apply list_elem_of_singleton in Hur as ->.
    split; compute_done.
  - intros ur u Hur Hu Hid. cbn in Hur, Hu.
    apply list_elem_of_singleton in Hur as ->.
    exists (Role.mk 10 1 "Member" true).
    repeat (apply elem_of_cons in Hu as [-> | Hu]); try discriminate;
      [| inversion Hu].
    split_and!; [left | reflexivity | reflexivity].
Defined.

(** A registration that fails after the commit: the answer is 500, and erin
    and her organisation are in the store, without a session. *)
Example register_fails_after_commit :
  fst (register_run Demo.env RegisterDemo.codec 100 LoginDemo.email_eq None
         (Some AfterCommit) RegisterDemo.keys RegisterDemo.request Demo.db)
  = RegisterRefused (json_error 500 "Registration failed")
  ∧ users (snd (register_run Demo.env RegisterDemo.codec 100 LoginDemo.email_eq None
                  (Some AfterCommit) RegisterDemo.keys RegisterDemo.request Demo.db))
    = (users Demo.db ++ [User.mk 4 3 "erin@initech.test" "Erin" "E" UserActive])%list
  ∧ user_sessions
      (snd (register_run Demo.env RegisterDemo.codec 100 LoginDemo.email_eq None
              (Some AfterCommit) RegisterDemo.keys RegisterDemo.request Demo.db))
    = user_sessions Demo.db
  ∧ register_run Demo.env RegisterDemo.codec 100 LoginDemo.email_eq None
      (Some InTransaction) RegisterDemo.keys RegisterDemo.request Demo.db
    = (RegisterRefused (json_error 500 "Registration failed"), Demo.db).
Proof. by split_and!. Qed.

(** X24: registering an organisation gives no existing user a permission and
    takes none away: for a user already in [users], the permission names
    reachable through the user's roles are the same after the registration
    as before.  (The keys handed out were unused; the foreign keys of
    [user_roles] hold.) *)
Theorem registration_leaves_existing_permissions
    env codec now email_eq refresh_ttl keys req d uid name :
  keys_unused keys d → user_roles_foreign_keys d →
  uid ∈ (User.id <$> users d) →
  reachable_permission
    (snd (register env codec now email_eq refresh_ttl keys req d)) uid name
  ↔ reachable_permission d uid name.
Proof.
  intros (_ & Hfu & Hfr) Hfk Huid.
  destruct (register_cases env codec now email_eq refresh_ttl keys req d)
    as [[-> _] | (_ & _ & ->)]; [done |].
  cbn [snd]. unfold reachable_permission.
  cbn [user_roles role_permissions permissions]. split.
  - intros (ur & rp & p & Hur & Hu & Hrp & Hrole & Hp & Hid & Hname).
    apply elem_of_app in Hur as [Hur | Hur].
    2: { apply list_elem_of_singleton in Hur as ->. cbn in Hu.
         destruct Hfu. by rewrite Hu. }
    apply elem_of_app in Hrp as [Hrp | Hrp].
    2: { apply list_elem_of_fmap in Hrp as (q & -> & _). cbn in Hrole.
         destruct (Hfk ur Hur) as [_ Hin]. rewrite <- Hrole in Hin.
         by destruct Hfr. }
    by exists ur, rp, p.
  - intros (ur & rp & p & Hur & Hu & Hrp & Hrole & Hp & Hid & Hname).
    exists ur, rp, p. split_and!; try done; apply elem_of_app; by left.
Qed.

Lemma registration_leaves_existing_permissions_witness :
  reachable_permission
    (snd (register Demo.env RegisterDemo.codec 100 LoginDemo.email_eq None
            RegisterDemo.keys RegisterDemo.request Demo.db)) 1 "tasks.view"
  ↔ reachable_permission Demo.db 1 "tasks.view".
Proof.
  apply (registration_leaves_existing_permissions
           Demo.env RegisterDemo.codec 100 LoginDemo.email_eq None
           RegisterDemo.keys RegisterDemo.request Demo.db 1 "tasks.view").
  - split_and!; compute_done.
  - intros ur Hur. cbn in Hur.
    repeat (apply elem_of_cons in Hur as [-> | Hur]); [| | inversion Hur];
      split; compute_done.
  - compute_done.
Defined.

(** ** Reading the [Authorization] header *)

Lemma split_word sep (w : string) :
  contains sep w = false → split sep w = [w].
Proof.
  induction w as [|c w IH]; [done |]. cbn [contains split].
  intros [Hc Hw]%orb_false_iff. apply bool_decide_eq_false_1 in Hc.
  rewrite decide_False by done. by rewrite (IH Hw).
Qed.

Lemma split_word_sep sep (w rest : string) :
  contains sep w = false →
  split sep (w +:+ String sep rest) = w :: split sep rest.
Proof.
  induction w as [|c w IH].
  - intros _. change ("" +:+ String sep rest) with (String sep rest).
    cbn [split]. by rewrite decide_True.
  - cbn [contains]. intros [Hc Hw]%orb_false_iff.
    apply bool_decide_eq_false_1 in Hc.
    change (String c w +:+ String sep rest) with (String c (w +:+ String sep rest)).
    cbn [split]. rewrite decide_False by done. by rewrite (IH Hw).
Qed.

(** X25: the token [verifyToken] reads is the second word of the
    [Authorization] header, words being separated by single spaces: the first
    word need not be "Bearer", anything after the second word is ignored,
    and a header of one word carries no token. *)
Theorem bearer_is_second_word (scheme token rest : string) (body : option string) :
  contains " " scheme = false → contains " " token = false →
  bearer (mk_request (Some (scheme +:+ " " +:+ token)) body) = Some token
  ∧ bearer (mk_request (Some (scheme +:+ " " +:+ token +:+ " " +:+ rest)) body)
    = Some token
  ∧ bearer (mk_request (Some scheme) body) = None.
Proof.
  intros Hs Ht. unfold bearer. cbn [authorization mbind option_bind].
  split_and!.
  - change (scheme +:+ " " +:+ token) with (scheme +:+ String " " token).
    by rewrite (split_word_sep _ _ _ Hs), (split_word _ _ Ht).
  - change (scheme +:+ " " +:+ token +:+ " " +:+ rest)
      with (scheme +:+ String " " (token +:+ String " " rest)).
    by rewrite (split_word_sep _ _ _ Hs), (split_word_sep _ _ _ Ht).
  - by rewrite (split_word _ _ Hs).
Qed.

Lemma bearer_is_second_word_witness :
  bearer (mk_request (Some "Basic tok.alice") None) = Some "tok.alice"
  ∧ bearer (mk_request (Some "Basic tok.alice and more") None) = Some "tok.alice"
  ∧ bearer (mk_request (Some "Basic") None) = None.
Proof.
  apply (bearer_is_second_word "Basic" "tok.alice" "and more" None); reflexivity.
Defined.

(** ** How long the refresh token of a registration lasts *)

Lemma refresh_token_200_inv env codec now req s b :
  fst (refresh_token env codec now req s) = Returned (mk_reply 200 b) →
  ∃ token, body_refreshToken req = Some token
           ∧ isSessionValid token now (data s) = true.
Proof.
  unfold refresh_token, try_catch.
  destruct (body_refreshToken req) as [token|] eqn:Hbody; cbn [truthy]; [| done].
  destruct (decide (token = "")) as [->|Hne]; [done |].
  unfold mbind, io_bind, throw_or_return.
  destruct (jwt_verify codec token (JWT_REFRESH_SECRET env) now) as [decoded|e];
    [| by destruct e].
  unfold db_select. cbn [data log fst snd]. unfold isSessionValid.
  case_bool_decide; [done |]. intros _. exists token.
  by rewrite bool_decide_eq_false_2.
Qed.

(** X26: the refresh token a registration hands out can be exchanged until
    it expires or seven days have passed, whichever comes first, and never
    after seven days: the session row is written for seven days whatever
    [JWT_REFRESH_EXPIRES_IN] says.  (The codec reads back what it signed; no
    older session row carries the token.) *)
Theorem registration_refresh_token_lasts_a_week_at_most
    env codec now email_eq refresh_ttl keys req d acct accessToken refreshToken
    now' l :
  fst (register env codec now email_eq refresh_ttl keys req d)
  = Registered acct accessToken refreshToken →
  reads_back codec
    (mk_claims (new_user_id keys) (new_tenant_id keys) now
       (now + default (7 * 86400) refresh_ttl))
    (JWT_REFRESH_SECRET env) →
  (∀ x, x ∈ user_sessions d → Session.refresh_token x ≠ refreshToken) →
  let d' := snd (register env codec now email_eq refresh_ttl keys req d) in
  let answer := fst (refresh_token env codec now'
                       (mk_request None (Some refreshToken)) (mk_store d' l)) in
  (now' < now + default (7 * 86400) refresh_ttl → now' < now + 7 * 86400 →
   answer = Returned (mk_reply 200 (AccessTokenBody
              (jwt_sign codec (new_user_id keys) (new_tenant_id keys) (JWT_SECRET env)
                 (default 3600 (JWT_EXPIRES_IN env)) now'))))
  ∧ (now + 7 * 86400 ≤ now' → ∀ b, answer ≠ Returned (mk_reply 200 b)).
Proof.
  intros Hok (Hne & Hdec & Hsig) Hnew d' answer. subst d' answer.
  destruct (register_cases env codec now email_eq refresh_ttl keys req d)
    as [[_ Hno] | (_ & _ & Hrun)];
    [by destruct (Hno acct accessToken refreshToken) |].
  rewrite Hrun in Hok |- *. cbn [fst snd] in Hok |- *.
  injection Hok as _ _ <-. unfold jwt_sign in Hnew |- *.
  set (c := mk_claims (new_user_id keys) (new_tenant_id keys) now
              (now + default (7 * 86400) refresh_ttl)) in *.
  set (rt := jws_sign codec c (JWT_REFRESH_SECRET env)) in *.
  match goal with |- context [mk_store ?db l] => set (d' := db) end.
  split.
  - intros Hjwt Hweek.
    rewrite (refresh_token_run env codec now' _ _ rt c); [done | | |].
    + cbn. by rewrite decide_False.
    + apply jwt_verify_returns. by split_and!.
    + cbn [data]. apply isSessionValid_true. eexists. split_and!.
      * subst d'. cbn [user_sessions]. apply elem_of_app. right. left.
      * done.
      * done.
      * cbn. lia.
  - intros Hlate b Hanswer.
    apply refresh_token_200_inv in Hanswer as (token & [= <-] & Hvalid).
    apply isSessionValid_true in Hvalid as (x & Hx & Htok & _ & Hexp).
    subst d'. cbn [data user_sessions] in Hx.
    apply elem_of_app in Hx as [Hx | Hx].
    + by destruct (Hnew x Hx).
    + apply list_elem_of_singleton in Hx as ->. cbn in Hexp. lia.
Qed.

Lemma registration_refresh_token_lasts_a_week_at_most_witness :
  fst (refresh_token Demo.env RegisterDemo2.codec 700000
         (mk_request None (Some "rt.erin"))
         (mk_store (snd (register Demo.env RegisterDemo2.codec 100
                           LoginDemo.email_eq RegisterDemo2.refresh_expires_in
                           RegisterDemo.keys RegisterDemo.request Demo.db)) []))
  ≠ Returned (mk_reply 200 (AccessTokenBody "at.erin")).
Proof.
  refine (proj2 (registration_refresh_token_lasts_a_week_at_most
            Demo.env RegisterDemo2.codec 100 LoginDemo.email_eq
            RegisterDemo2.refresh_expires_in RegisterDemo.keys RegisterDemo.request
            Demo.db (Account.mk 4 "erin@initech.test" "Erin" "E" 3 "Initech")
            "at.erin" "rt.erin" 700000 [] _ _ _) _ (AccessTokenBody "at.erin")).
  - reflexivity.
  - unfold reads_back. split_and!; [discriminate | reflexivity | reflexivity].
  - intros x Hx. cbn in Hx.
    repeat (apply elem_of_cons in Hx as [-> | Hx]); [| | inversion Hx]; discriminate.
  - simpl. lia.
Defined.
